(** * Antigravity quota extension: the metrics client and its caller

    A shallow embedding of [metricsClient.ts] ([discoverServer],
    [fetchMetrics], [formatResetTime]), of [refreshData] from
    [extension.ts], of what the sidebar and the panel read of the data
    they show, and of the port loop of [fetch_metrics.sh], with the
    properties of the discovery protocol, of the fetch and of the
    caller's cache proved over it.

    The operating system and the network are an oracle threaded through
    the code as explicit state: every [execSync] and every [http.request]
    asks the oracle and is recorded, with its answer, in a log. *)

From Stdlib Require Import String Ascii List ZArith NArith Bool Lia.
Import ListNotations.

Set Warnings "-register-all".
Local Open Scope Z_scope.

(** ** JavaScript strings

    A JavaScript string is a sequence of UTF-16 code units. *)

Module JS.

Definition jsstring := list N.

(** An ASCII literal as a JavaScript string. *)
Definition js (s : string) : jsstring :=
  List.map N_of_ascii (list_ascii_of_string s).

(** The double quote. *)
Definition dq : jsstring := [34%N].

Fixpoint jseqb (a b : jsstring) : bool :=
  match a, b with
  | [], [] => true
  | x :: a', y :: b' => N.eqb x y && jseqb a' b'
  | _, _ => false
  end.

Definition is_empty (s : jsstring) : bool :=
  match s with [] => true | _ => false end.

(** WhiteSpace and LineTerminator of ECMAScript: the characters that
    [String.prototype.trim] strips and that [\s] matches. *)
Definition is_space (c : N) : bool :=
  ((9 <=? c) && (c <=? 13) || (c =? 32) || (c =? 160) || (c =? 5760)
   || (8192 <=? c) && (c <=? 8202)
   || (c =? 8232) || (c =? 8233) || (c =? 8239) || (c =? 8287)
   || (c =? 12288) || (c =? 65279))%N.

(** [\d] *)
Definition is_digit (c : N) : bool := ((48 <=? c) && (c <=? 57))%N.

(** [[a-zA-Z0-9-]] *)
Definition is_token_char (c : N) : bool :=
  ((97 <=? c) && (c <=? 122) || (65 <=? c) && (c <=? 90)
   || is_digit c || (c =? 45))%N.

Fixpoint take_while (p : N -> bool) (s : jsstring) : jsstring :=
  match s with
  | c :: r => if p c then c :: take_while p r else []
  | [] => []
  end.

Fixpoint drop_while (p : N -> bool) (s : jsstring) : jsstring :=
  match s with
  | c :: r => if p c then drop_while p r else s
  | [] => []
  end.

(** [s.trim()] *)
Definition trim (s : jsstring) : jsstring :=
  rev (drop_while is_space (rev (drop_while is_space s))).

(** [s.split(sep)] for a separator of one code unit: the pieces between
    the occurrences of [sep]; never the empty list. *)
Fixpoint split_on (sep : N) (s : jsstring) : list jsstring :=
  match s with
  | [] => [[]]
  | c :: r =>
      if N.eqb c sep then [] :: split_on sep r
      else match split_on sep r with
           | piece :: pieces => (c :: piece) :: pieces
           | [] => [[c]]
           end
  end.

Definition LF : N := 10%N.

(** [s.split(/\s+/)]: the pieces between the maximal runs of white space.
    [cur] is the piece being read, reversed; [in_ws] tells that the last
    character read was white space. *)
Fixpoint split_ws_go (cur : jsstring) (in_ws : bool) (s : jsstring)
  : list jsstring :=
  match s with
  | [] => [rev cur]
  | c :: r =>
      if is_space c then
        if in_ws then split_ws_go [] true r
        else rev cur :: split_ws_go [] true r
      else split_ws_go (c :: cur) false r
  end.

Definition split_ws (s : jsstring) : list jsstring := split_ws_go [] false s.

(** [s] without the prefix [p], when it starts with [p]. *)
Fixpoint strip_prefix (p s : jsstring) : option jsstring :=
  match p, s with
  | [], _ => Some s
  | x :: p', y :: s' => if N.eqb x y then strip_prefix p' s' else None
  | _ :: _, [] => None
  end.

(** A regular expression without the sticky flag matches at the leftmost
    position where it matches at all. *)
Fixpoint leftmost {A} (here : jsstring -> option A) (s : jsstring)
  : option A :=
  match here s with
  | Some a => Some a
  | None => match s with
            | [] => None
            | _ :: r => leftmost here r
            end
  end.

(** JavaScript numbers, as far as this program meets them: the integral
    values (process ids, ports, time values in milliseconds and their
    quotients after [Math.floor]) and [NaN]. Below 2^53 in absolute value
    the arithmetic of doubles on these is exact. *)
Inductive number : Type :=
| NaN
| Int (z : Z).

Definition isNaN (n : number) : bool :=
  match n with NaN => true | Int _ => false end.

Definition digit_value (radix : Z) (c : N) : option Z :=
  let v :=
    if is_digit c then Some (Z.of_N c - 48)
    else if ((97 <=? c) && (c <=? 122))%N then Some (Z.of_N c - 87)
    else if ((65 <=? c) && (c <=? 90))%N then Some (Z.of_N c - 55)
    else None in
  match v with
  | Some d => if d <? radix then Some d else None
  | None => None
  end.

(** The digits of [s] in the radix, most significant first, up to the
    first character that is not one. *)
Fixpoint leading_digits (radix : Z) (s : jsstring) : list Z :=
  match s with
  | c :: r => match digit_value radix c with
              | Some d => d :: leading_digits radix r
              | None => []
              end
  | [] => []
  end.

Definition digits_value (radix : Z) (ds : list Z) : Z :=
  fold_left (fun acc d => acc * radix + d) ds 0.

(** [parseInt(s)] with no radix: leading white space is skipped, a sign
    is read, a [0x] or [0X] prefix selects radix 16, and the longest
    prefix of digits is the value; [NaN] when there is no digit. *)
Definition parseInt (s : jsstring) : number :=
  let s := drop_while is_space s in
  let '(sign, s) :=
    match s with
    | 45%N :: r => (-1, r)
    | 43%N :: r => (1, r)
    | _ => (1, s)
    end in
  let '(radix, s) :=
    match s with
    | 48%N :: 120%N :: r => (16, r)
    | 48%N :: 88%N :: r => (16, r)
    | _ => (10, s)
    end in
  match leading_digits radix s with
  | [] => NaN
  | ds => Int (sign * digits_value radix ds)
  end.

(** The decimal digits of a natural number, most significant first. *)
Fixpoint decimal_go (fuel : nat) (n : Z) (acc : jsstring) : jsstring :=
  match fuel with
  | O => acc
  | S fuel' =>
      let acc' := (Z.to_N (48 + n mod 10)) :: acc in
      if n <? 10 then acc' else decimal_go fuel' (n / 10) acc'
  end.

Definition decimal (n : Z) : jsstring :=
  decimal_go (S (Z.to_nat (Z.log2 n))) n [].

(** [String(n)], the text a template literal puts for [${n}]. *)
Definition to_string (n : number) : jsstring :=
  match n with
  | NaN => js "NaN"
  | Int z => if z <? 0 then 45%N :: decimal (- z) else decimal z
  end.

(** [Buffer.byteLength(s)]: the length of [s] in UTF-8; a surrogate pair
    takes four bytes, a lone surrogate the three of U+FFFD. *)
Fixpoint byteLength (s : jsstring) : Z :=
  match s with
  | [] => 0
  | c :: r =>
      if (c <? 128)%N then 1 + byteLength r
      else if (c <? 2048)%N then 2 + byteLength r
      else if ((55296 <=? c) && (c <=? 56319))%N then
        match r with
        | d :: r' =>
            if ((56320 <=? d) && (d <=? 57343))%N then 4 + byteLength r'
            else 3 + byteLength r
        | [] => 3
        end
      else 3 + byteLength r
  end.

End JS.
Export JS.

(** ** JSON

    [JSON.parse] belongs to the JavaScript runtime. It is modelled by a
    recursive-descent parser of the JSON grammar (ECMA-404), which
    [JSON.parse] accepts exactly. A number is kept as the decimal it
    denotes, [mantissa * 10 ^ exponent]. [JSON.parse] rounds it to the
    nearest double; the client never computes with it, and of the
    rounding only this is modelled: whether the double is 0, which
    decides what the number counts as in a condition. *)

Module Json.

Inductive value : Type :=
| JNull
| JBool (b : bool)
| JNumber (mantissa exponent : Z)
| JString (s : jsstring)
| JArray (elements : list value)
| JObject (members : list (jsstring * value)).

(** The decimal [m * 10 ^ e] rounds to the double 0 (of either sign):
    it is 0, or its size is at most 2^-1075, half of the least positive
    double 2^-1074; the tie itself goes to 0, whose significand is even.
    With [e >= 0] a decimal other than 0 has a size of 1 at least. *)
Definition rounds_to_zero (m e : Z) : bool :=
  if m =? 0 then true
  else if e <? 0 then Z.abs m * 2 ^ 1075 <=? 10 ^ (- e)
  else false.

(** Defining a property on an object under construction: a later
    duplicate of a key replaces the value of the earlier one. *)
Fixpoint set_member (k : jsstring) (v : value)
  (ms : list (jsstring * value)) : list (jsstring * value) :=
  match ms with
  | [] => [(k, v)]
  | (k', v') :: r =>
      if jseqb k k' then (k, v) :: r else (k', v') :: set_member k v r
  end.

(** [o[k]] for an own property of a parsed object. *)
Fixpoint get_member (k : jsstring) (ms : list (jsstring * value))
  : option value :=
  match ms with
  | [] => None
  | (k', v) :: r => if jseqb k k' then Some v else get_member k r
  end.

Definition is_json_ws (c : N) : bool :=
  ((c =? 9) || (c =? 10) || (c =? 13) || (c =? 32))%N.

Definition skip_ws (s : jsstring) : jsstring := drop_while is_json_ws s.

Definition hex4 (a b c d : N) : option N :=
  match digit_value 16 a, digit_value 16 b, digit_value 16 c,
        digit_value 16 d with
  | Some x, Some y, Some z, Some w =>
      Some (Z.to_N (((x * 16 + y) * 16 + z) * 16 + w))
  | _, _, _, _ => None
  end.

(** [s] after the character [c], when it starts with [c]. *)
Definition starts_with (c : N) (s : jsstring) : option jsstring :=
  match s with
  | x :: r => if N.eqb x c then Some r else None
  | [] => None
  end.

(** The character that a two-character escape stands for: the quote,
    the backslash and the slash stand for themselves; b, f, n, r and t
    for backspace, form feed, line feed, carriage return and tab. *)
Definition unescape (e : N) : option N :=
  (if e =? 34 then Some 34
   else if e =? 92 then Some 92
   else if e =? 47 then Some 47
   else if e =? 98 then Some 8
   else if e =? 102 then Some 12
   else if e =? 110 then Some 10
   else if e =? 114 then Some 13
   else if e =? 116 then Some 9
   else None)%N.

(** The characters of a string after its opening quote, up to the closing
    one; [acc] holds the characters read, reversed. *)
Fixpoint parse_chars (acc : jsstring) (s : jsstring)
  : option (jsstring * jsstring) :=
  match s with
  | [] => None
  | c :: r =>
      if (c =? 34)%N then Some (rev acc, r)
      else if (c =? 92)%N then
        match r with
        | [] => None
        | e :: r1 =>
            if (e =? 117)%N then
              match r1 with
              | a :: b :: c :: d :: r' =>
                  match hex4 a b c d with
                  | Some u => parse_chars (u :: acc) r'
                  | None => None
                  end
              | _ => None
              end
            else
              match unescape e with
              | Some u => parse_chars (u :: acc) r1
              | None => None
              end
        end
      else if (c <? 32)%N then None
      else parse_chars (c :: acc) r
  end.

Definition digits_of (s : jsstring) : list Z := leading_digits 10 s.

(** At least one digit, and the text after the digits. *)
Definition take_digits (s : jsstring) : option (list Z * jsstring) :=
  match digits_of s with
  | [] => None
  | ds => Some (ds, skipn (length ds) s)
  end.

(** The fraction of a number: nothing, or a dot and at least one digit. *)
Definition parse_fraction (s : jsstring) : option (list Z * jsstring) :=
  match starts_with 46 s with
  | Some r => take_digits r
  | None => Some ([], s)
  end.

(** The exponent of a number: nothing, or e or E, an optional sign and
    at least one digit. *)
Definition parse_exponent (s : jsstring) : option (Z * jsstring) :=
  match s with
  | c :: r =>
      if ((c =? 101) || (c =? 69))%N then
        let '(esign, r) :=
          match starts_with 45 r with
          | Some r' => (-1, r')
          | None =>
              match starts_with 43 r with
              | Some r' => (1, r')
              | None => (1, r)
              end
          end in
        match take_digits r with
        | Some (ds, r') => Some (esign * digits_value 10 ds, r')
        | None => None
        end
      else Some (0, s)
  | [] => Some (0, s)
  end.

(** A number: an optional minus sign; an integer part, which is a single
    0 or starts with a digit from 1 to 9; a fraction; an exponent. *)
Definition parse_number (s : jsstring) : option (value * jsstring) :=
  let '(neg, s) :=
    match starts_with 45 s with
    | Some r => (true, r)
    | None => (false, s)
    end in
  let int_digits :=
    match starts_with 48 s with
    | Some _ => [0]
    | None => digits_of s
    end in
  match int_digits with
  | [] => None
  | _ =>
      match parse_fraction (skipn (length int_digits) s) with
      | None => None
      | Some (frac_digits, s) =>
          match parse_exponent s with
          | None => None
          | Some (e, s) =>
              let m := digits_value 10 (int_digits ++ frac_digits) in
              Some (JNumber (if neg then - m else m)
                            (e - Z.of_nat (length frac_digits)), s)
          end
      end
  end.

Definition parse_literal (s : jsstring) : option (value * jsstring) :=
  match strip_prefix (js "true") s with
  | Some r => Some (JBool true, r)
  | None =>
  match strip_prefix (js "false") s with
  | Some r => Some (JBool false, r)
  | None =>
  match strip_prefix (js "null") s with
  | Some r => Some (JNull, r)
  | None => None
  end end end.

(** A value that is neither a string, an array nor an object. *)
Definition parse_scalar (s : jsstring) : option (value * jsstring) :=
  match s with
  | c :: _ =>
      if is_digit c || (c =? 45)%N then parse_number s else parse_literal s
  | [] => None
  end.

(** A value, the elements of an array after its first one, and the
    members of an object. [fuel] bounds the depth of the calls; every
    call is on a shorter text than the one before, so that a [fuel] above
    the length of the text is never used up. *)
Fixpoint parse_value (fuel : nat) (s : jsstring)
  : option (value * jsstring) :=
  match fuel with
  | O => None
  | S fuel' =>
      let s := skip_ws s in
      match starts_with 34 s with
      | Some r =>
          match parse_chars [] r with
          | Some (str, r') => Some (JString str, r')
          | None => None
          end
      | None =>
      match starts_with 91 s with
      | Some r =>
          match starts_with 93 (skip_ws r) with
          | Some r' => Some (JArray [], r')
          | None =>
              match parse_value fuel' r with
              | Some (v, r') => parse_elements fuel' [v] r'
              | None => None
              end
          end
      | None =>
      match starts_with 123 s with
      | Some r =>
          match starts_with 125 (skip_ws r) with
          | Some r' => Some (JObject [], r')
          | None => parse_members fuel' [] r
          end
      | None => parse_scalar s
      end end end
  end

with parse_elements (fuel : nat) (acc : list value) (s : jsstring)
  : option (value * jsstring) :=
  match fuel with
  | O => None
  | S fuel' =>
      let s := skip_ws s in
      match starts_with 93 s with
      | Some r => Some (JArray (rev acc), r)
      | None =>
          match starts_with 44 s with
          | Some r =>
              match parse_value fuel' r with
              | Some (v, r') => parse_elements fuel' (v :: acc) r'
              | None => None
              end
          | None => None
          end
      end
  end

with parse_members (fuel : nat) (acc : list (jsstring * value))
  (s : jsstring) : option (value * jsstring) :=
  match fuel with
  | O => None
  | S fuel' =>
      match starts_with 34 (skip_ws s) with
      | None => None
      | Some r =>
          match parse_chars [] r with
          | None => None
          | Some (k, r1) =>
              match starts_with 58 (skip_ws r1) with
              | None => None
              | Some r2 =>
                  match parse_value fuel' r2 with
                  | None => None
                  | Some (v, r3) =>
                      let acc' := set_member k v acc in
                      match starts_with 125 (skip_ws r3) with
                      | Some r4 => Some (JObject acc', r4)
                      | None =>
                          match starts_with 44 (skip_ws r3) with
                          | Some r4 => parse_members fuel' acc' r4
                          | None => None
                          end
                      end
                  end
              end
          end
      end
  end.

(** [JSON.parse(text)]: one value, white space around it, nothing else;
    [None] stands for the [SyntaxError] it throws. *)
Definition parse (text : jsstring) : option value :=
  match parse_value (S (length text)) text with
  | Some (v, r) => if is_empty (skip_ws r) then Some v else None
  | None => None
  end.

End Json.
Export Json.

(** ** The host: operating system and network

    [execSync] returns the standard output of a shell command or throws
    (a pipeline that exits with a status other than 0, as [grep] does when
    it selects no line, or one that outlives its timeout). [http.request]
    either throws at once or produces, over time, the events that the
    handlers of [fetchMetrics] are registered for. What the host answers
    may depend on its state and may change it. *)

Module Host.

Record JSError : Type := Error { message : jsstring }.

(** The completion of a JavaScript computation. *)
Inductive Completion (A : Type) : Type :=
| Normal (a : A)
| Throw (e : JSError).
Arguments Normal {A} a.
Arguments Throw {A} e.

Definition ExecResult := Completion jsstring.

Record RequestOptions : Type := {
  hostname : jsstring;
  port_number : number;
  path : jsstring;
  method : jsstring;
  headers : list (jsstring * jsstring)
}.

Inductive HttpEvent : Type :=
| EvResponse (statusCode : Z)      (* the callback of [http.request] *)
| EvData (chunk : jsstring)        (* ['data'] on the response *)
| EvEnd                            (* ['end'] on the response *)
| EvError (cause : JSError)        (* ['error'] on the request *)
| EvTimeout.                       (* the callback of [req.setTimeout] *)

Definition HttpRun := Completion (list HttpEvent).

Class Host (World : Type) : Type := {
  run_command : jsstring -> Z -> World -> ExecResult * World;
  run_request :
    RequestOptions -> jsstring -> Z -> World -> HttpRun * World;
  current_time : World -> Z
}.

(** What the program did to the host, in order. *)
Inductive Effect : Type :=
| Exec (command : jsstring) (timeout : Z) (result : ExecResult)
| Request (options : RequestOptions) (body : jsstring) (timeout : Z)
    (run : HttpRun)
| Destroy.

Record Sys (World : Type) : Type := {
  world : World;
  log : list Effect
}.
Arguments world {World} s.
Arguments log {World} s.

(** Computations that read and change the host and may throw. *)
Definition M (World A : Type) : Type :=
  Sys World -> Completion A * Sys World.

Definition ret {World A} (a : A) : M World A := fun st => (Normal a, st).

Definition bind {World A B} (m : M World A) (k : A -> M World B)
  : M World B :=
  fun st =>
    match m st with
    | (Normal a, st') => k a st'
    | (Throw e, st') => (Throw e, st')
    end.

(** [try { m } catch { ... }] as a value: what [m] completed with. *)
Definition try_ {World A} (m : M World A) : M World (Completion A) :=
  fun st => let '(c, st') := m st in (Normal c, st').

Definition log_effect {World} (e : Effect) (st : Sys World) : Sys World :=
  {| world := world st; log := log st ++ [e] |}.

(** [execSync(command, { encoding: 'utf-8', timeout })] *)
Definition execSync {World} `{Host World} (command : jsstring)
  (timeout : Z) : M World jsstring :=
  fun st =>
    let '(r, w) := run_command command timeout (world st) in
    (r, log_effect (Exec command timeout r) {| world := w; log := log st |}).

End Host.
Export Host.

Declare Scope client_scope.
Notation "x <- m ;; k" := (bind m (fun x => k))
  (at level 61, m at next level, right associativity) : client_scope.
Local Open Scope client_scope.

(** ** metricsClient.ts *)

Module MetricsClient.

Record ServerInfo : Type := {
  pid : jsstring;
  token : jsstring;
  port : jsstring
}.

Definition ps_command : jsstring :=
  js "ps aux | grep -E " ++ dq ++ js "language_server_macos|language_server"
  ++ dq ++ js " | grep " ++ dq ++ js "csrf_token" ++ dq
  ++ js " | grep -v grep".

Definition lsof_command (pid : jsstring) : jsstring :=
  js "lsof -iTCP -sTCP:LISTEN -P -n -p " ++ pid
  ++ js " 2>/dev/null | grep " ++ dq ++ js "127.0.0.1" ++ dq.

Definition api_path : jsstring :=
  js "/exa.language_server_pb.LanguageServerService/GetUserStatus".

Definition curl_command (port token : jsstring) : jsstring :=
  js "curl -s -o /dev/null -w " ++ dq ++ js "%{http_code}" ++ dq
  ++ js " -X POST " ++ dq ++ js "http://127.0.0.1:" ++ port ++ api_path
  ++ dq ++ js " "
  ++ js "-H " ++ dq ++ js "X-Codeium-Csrf-Token: " ++ token ++ dq ++ js " "
  ++ js "-H " ++ dq ++ js "Connect-Protocol-Version: 1" ++ dq ++ js " "
  ++ js "-H " ++ dq ++ js "Content-Type: application/json" ++ dq ++ js " "
  ++ js "-d '{}' 2>/dev/null".

Definition ps_timeout : Z := 5000.
Definition lsof_timeout : Z := 5000.
Definition probe_timeout : Z := 3000.
Definition fetch_timeout : Z := 10000.

(** [/--csrf_token\s+([a-zA-Z0-9-]+)/] at the start of [s]: its first
    group. White space and token characters are disjoint, so the greedy
    [\s+] never has to give a character back. *)
Definition token_here (s : jsstring) : option jsstring :=
  match strip_prefix (js "--csrf_token") s with
  | None => None
  | Some r =>
      if is_empty (take_while is_space r) then None
      else
        let tok := take_while is_token_char (drop_while is_space r) in
        if is_empty tok then None else Some tok
  end.

(** [line.match(/--csrf_token\s+([a-zA-Z0-9-]+)/)], group 1 *)
Definition match_token (line : jsstring) : option jsstring :=
  leftmost token_here line.

(** [/:(\d+)\s/] at the start of [s]: its first group. A digit is not
    white space, so the greedy [\d+] takes the whole run of digits. *)
Definition port_here (s : jsstring) : option jsstring :=
  match s with
  | 58%N :: r =>
      let ds := take_while is_digit r in
      if is_empty ds then None
      else match drop_while is_digit r with
           | c :: _ => if is_space c then Some ds else None
           | [] => None
           end
  | _ => None
  end.

(** [line.match(/:(\d+)\s/)], group 1 *)
Definition match_port (line : jsstring) : option jsstring :=
  leftmost port_here line.

(** The loop that extracts all ports, one per line that has one. *)
Fixpoint extract_ports (lines : list jsstring) : list jsstring :=
  match lines with
  | [] => []
  | line :: rest =>
      match match_port line with
      | Some p => p :: extract_ports rest
      | None => extract_ports rest
      end
  end.

Definition first_line (psOutput : jsstring) : jsstring :=
  nth 0 (split_on LF psOutput) [].

(** [parts[1]] of the first line, [undefined] as [None]. *)
Definition pid_field (firstLine : jsstring) : option jsstring :=
  nth_error (split_ws (trim firstLine)) 1.

Section Client.

Context {World : Type} `{Host World}.

(** The loop that finds the active port by testing each one. A probe that
    throws is caught inside the loop; the loop ends without a value when
    no port answered 200. *)
Fixpoint probe_ports (pid token : jsstring) (ports : list jsstring)
  : M World (option ServerInfo) :=
  match ports with
  | [] => ret None
  | port :: rest =>
      r <- try_ (execSync (curl_command port token) probe_timeout) ;;
      match r with
      | Normal testResponse =>
          if jseqb (trim testResponse) (js "200")
          then ret (Some {| pid := pid; token := token; port := port |})
          else probe_ports pid token rest
      | Throw _ => probe_ports pid token rest
      end
  end.

(** The first part of the body of [discoverServer], up to the list of
    ports: the process, its pid and token, its listening ports. [None]
    stands for an early [return null]. *)
Definition list_candidates
  : M World (option (jsstring * jsstring * list jsstring)) :=
  out <- execSync ps_command ps_timeout ;;
  let psOutput := trim out in
  if is_empty psOutput then ret None
  else
    let firstLine := first_line psOutput in
    match pid_field firstLine with
    | None => ret None
    | Some pid =>
        if is_empty pid || isNaN (parseInt pid) then ret None
        else
          match match_token firstLine with
          | None => ret None
          | Some token =>
              out <- execSync (lsof_command pid) lsof_timeout ;;
              let lsofOutput := trim out in
              if is_empty lsofOutput then ret None
              else
                let ports := extract_ports (split_on LF lsofOutput) in
                if (length ports =? 0)%nat then ret None
                else ret (Some (pid, token, ports))
          end
    end.

(** The body of the outer [try] of [discoverServer]. *)
Definition discoverServer_try : M World (option ServerInfo) :=
  found <- list_candidates ;;
  match found with
  | None => ret None
  | Some (pid, token, ports) => probe_ports pid token ports
  end.

(** [discoverServer()]: whatever the body throws is caught and becomes
    [null]. *)
Definition discoverServer (st : Sys World)
  : option ServerInfo * Sys World :=
  match discoverServer_try st with
  | (Normal r, st') => (r, st')
  | (Throw _, st') => (None, st')
  end.

(** A promise: still pending, fulfilled with a value or rejected with an
    error. Once settled it stays as it is. *)
Inductive PromiseState : Type :=
| Pending
| Fulfilled (v : value)
| Rejected (e : JSError).

Definition settle (p new : PromiseState) : PromiseState :=
  match p with
  | Pending => new
  | _ => p
  end.

Definition not_found_message : jsstring :=
  js "Could not find Antigravity Language Server. Make sure the IDE is running.".
Definition parse_failure_message : jsstring :=
  js "Failed to parse metrics response".
Definition fetch_failure_prefix : jsstring := js "Failed to fetch metrics: ".
Definition timeout_message : jsstring := js "Request timed out".

Definition quoted (s : string) : jsstring := dq ++ js s ++ dq.

(** [JSON.stringify] of the fixed metadata object. *)
Definition postData : jsstring :=
  js "{" ++ quoted "metadata" ++ js ":{"
  ++ quoted "ideName" ++ js ":" ++ quoted "antigravity" ++ js ","
  ++ quoted "extensionName" ++ js ":" ++ quoted "quota-monitor" ++ js ","
  ++ quoted "locale" ++ js ":" ++ quoted "en" ++ js "}}".

Definition request_options (serverInfo : ServerInfo) : RequestOptions :=
  {| hostname := js "127.0.0.1";
     port_number := parseInt (port serverInfo);
     path := api_path;
     method := js "POST";
     headers :=
       [ (js "X-Codeium-Csrf-Token", token serverInfo);
         (js "Connect-Protocol-Version", js "1");
         (js "Content-Type", js "application/json");
         (js "Content-Length", to_string (Int (byteLength postData))) ] |}.

(** The variables the handlers of one request share: [data], which
    exists once the response callback has run, and the promise. *)
Record Pending_request : Type := {
  data : option jsstring;
  promise : PromiseState
}.

Definition new_request : Pending_request :=
  {| data := None; promise := Pending |}.

Definition reject_with (msg : jsstring) (r : Pending_request)
  : Pending_request :=
  {| data := data r; promise := settle (promise r) (Rejected (Error msg)) |}.

(** One event of the request, handled. The response callback runs once;
    ['data'] and ['end'] are listened to on the response only. *)
Definition handle (s : Pending_request * Sys World) (ev : HttpEvent)
  : Pending_request * Sys World :=
  let '(r, st) := s in
  match ev with
  | EvResponse _ =>
      match data r with
      | None => ({| data := Some []; promise := promise r |}, st)
      | Some _ => (r, st)
      end
  | EvData chunk =>
      match data r with
      | Some d => ({| data := Some (d ++ chunk); promise := promise r |}, st)
      | None => (r, st)
      end
  | EvEnd =>
      match data r with
      | Some d =>
          match Json.parse d with
          | Some parsed =>
              ({| data := data r;
                  promise := settle (promise r) (Fulfilled parsed) |}, st)
          | None => (reject_with parse_failure_message r, st)
          end
      | None => (r, st)
      end
  | EvError cause =>
      (reject_with (fetch_failure_prefix ++ message cause) r, st)
  | EvTimeout =>
      (reject_with timeout_message r, log_effect Destroy st)
  end.

(** [fetchMetrics()]: the state of the promise it returns once the host
    has delivered every event of the request. *)
Definition fetchMetrics (st : Sys World) : PromiseState * Sys World :=
  let '(serverInfo, st) := discoverServer st in
  match serverInfo with
  | None => (Rejected (Error not_found_message), st)
  | Some serverInfo =>
      let options := request_options serverInfo in
      let '(run, w) :=
        run_request options postData fetch_timeout (world st) in
      let st :=
        log_effect (Request options postData fetch_timeout run)
          {| world := w; log := log st |} in
      match run with
      | Throw e => (Rejected e, st)
      | Normal events =>
          let '(r, st) := fold_left handle events (new_request, st) in
          (promise r, st)
      end
  end.

End Client.

(** Arithmetic and comparisons of numbers; [NaN] is absorbing and
    compares false with everything. *)
Definition minus (a b : number) : number :=
  match a, b with
  | Int x, Int y => Int (x - y)
  | _, _ => NaN
  end.

Definition leq (a b : number) : bool :=
  match a, b with
  | Int x, Int y => x <=? y
  | _, _ => false
  end.

Definition gt (a b : number) : bool :=
  match a, b with
  | Int x, Int y => y <? x
  | _, _ => false
  end.

(** [Math.floor(a / d)] for a positive integer [d] *)
Definition floor_div (a : number) (d : Z) : number :=
  match a with
  | Int x => Int (x / d)
  | NaN => NaN
  end.

(** [a % d]: the remainder has the sign of [a]. *)
Definition remainder (a : number) (d : Z) : number :=
  match a with
  | Int x => Int (Z.rem x d)
  | NaN => NaN
  end.

(** [formatResetTime(resetTime)]. [Date_parse] gives the time value of
    [new Date(resetTime)], [NaN] for an invalid date; [now] is the time
    value of [new Date()]. *)
Definition formatResetTime (Date_parse : jsstring -> number) (now : Z)
  (resetTime : jsstring) : jsstring :=
  let reset := Date_parse resetTime in
  let diffMs := minus reset (Int now) in
  if leq diffMs (Int 0) then js "resetting..."
  else
    let diffMins := floor_div diffMs 60000 in
    let diffHours := floor_div diffMins 60 in
    let diffDays := floor_div diffHours 24 in
    if gt diffDays (Int 0) then
      to_string diffDays ++ js "d " ++ to_string (remainder diffHours 24)
      ++ js "h"
    else if gt diffHours (Int 0) then
      to_string diffHours ++ js "h " ++ to_string (remainder diffMins 60)
      ++ js "m"
    else to_string diffMins ++ js "m".

(** The shape that the interfaces [MetricsResponse], [UserStatus],
    [PlanStatus], [ModelConfig] and [QuotaInfo] declare. *)
Definition is_string (v : value) : bool :=
  match v with JString _ => true | _ => false end.
Definition is_number (v : value) : bool :=
  match v with JNumber _ _ => true | _ => false end.
Definition is_boolean (v : value) : bool :=
  match v with JBool _ => true | _ => false end.

Definition field (k : string) (shape : value -> bool) (v : value) : bool :=
  match v with
  | JObject ms =>
      match get_member (js k) ms with
      | Some x => shape x
      | None => false
      end
  | _ => false
  end.

Definition optional_field (k : string) (shape : value -> bool) (v : value)
  : bool :=
  match v with
  | JObject ms =>
      match get_member (js k) ms with
      | Some x => shape x
      | None => true
      end
  | _ => false
  end.

Definition array_of (shape : value -> bool) (v : value) : bool :=
  match v with
  | JArray xs => forallb shape xs
  | _ => false
  end.

Definition is_QuotaInfo (v : value) : bool :=
  field "remainingFraction" is_number v && field "resetTime" is_string v.

Definition is_ModelConfig (v : value) : bool :=
  field "label" is_string v
  && field "modelOrAlias" (field "model" is_string) v
  && optional_field "quotaInfo" is_QuotaInfo v
  && optional_field "supportsImages" is_boolean v
  && optional_field "isRecommended" is_boolean v.

Definition is_PlanStatus (v : value) : bool :=
  field "planInfo"
    (fun i => field "planName" is_string i
              && field "monthlyPromptCredits" is_number i
              && field "monthlyFlowCredits" is_number i) v
  && field "availablePromptCredits" is_number v
  && field "availableFlowCredits" is_number v.

Definition is_UserStatus (v : value) : bool :=
  field "name" is_string v
  && field "email" is_string v
  && field "planStatus" is_PlanStatus v
  && field "cascadeModelConfigData"
       (field "clientModelConfigs" (array_of is_ModelConfig)) v
  && field "userTier"
       (fun t => field "id" is_string t && field "name" is_string t
                 && field "description" is_string t) v.

Definition is_MetricsResponse (v : value) : bool :=
  field "userStatus" is_UserStatus v.

End MetricsClient.
Export MetricsClient.

(** ** extension.ts

    The caller of [fetchMetrics]: the module variables [sidebarProvider],
    [webviewPanel] and [cachedData], and [refreshData]. Of the two views
    the fields and which page they show are modelled, not the markup; the
    generation of the page that shows quota data reads the fields of the
    data and may throw on data of another shape. *)

Module Extension.

Inductive Html : Type :=
| LoadingHtml
| ErrorHtml (error : jsstring)
| WelcomeHtml
| DataHtml (data : value).

Class Views : Type := {
  sidebar_data_throws : value -> option JSError;
  panel_data_throws : value -> option JSError
}.

(** What a parsed value counts as in a condition: [null], [false], the
    empty string and the numbers 0 and -0 count as false, among them
    every number that [JSON.parse] rounds to 0; [JSON.parse] makes no
    [NaN]. *)
Definition truthy (v : value) : bool :=
  match v with
  | JNull => false
  | JBool b => b
  | JNumber m e => negb (rounds_to_zero m e)
  | JString s => negb (is_empty s)
  | JArray _ | JObject _ => true
  end.

Definition truthy_string (s : option jsstring) : bool :=
  match s with
  | Some t => negb (is_empty t)
  | None => false
  end.

Record QuotaSidebarProvider : Type := {
  _view : option Html;
  _metricsData : value;
  _error : option jsstring;
  _isLoading : bool;
  _lastRefreshTime : option Z
}.

Inductive Notification : Type :=
| InformationMessage (text : jsstring)
| ErrorMessage (text : jsstring).

Record Globals : Type := {
  sidebarProvider : QuotaSidebarProvider;
  webviewPanel : option Html;
  cachedData : value;
  notifications : list Notification
}.

Section Caller.

Context {World : Type} `{Host World} `{Views}.

Definition sidebar_getHtmlContent (sb : QuotaSidebarProvider)
  : Completion Html :=
  if _isLoading sb then Normal LoadingHtml
  else if truthy_string (_error sb) then
    Normal (ErrorHtml (match _error sb with Some e => e | None => [] end))
  else if negb (truthy (_metricsData sb)) then Normal WelcomeHtml
  else match sidebar_data_throws (_metricsData sb) with
       | Some e => Throw e
       | None => Normal (DataHtml (_metricsData sb))
       end.

Definition _updateView (sb : QuotaSidebarProvider)
  : Completion unit * QuotaSidebarProvider :=
  match _view sb with
  | None => (Normal tt, sb)
  | Some _ =>
      match sidebar_getHtmlContent sb with
      | Normal html =>
          (Normal tt,
           {| _view := Some html; _metricsData := _metricsData sb;
              _error := _error sb; _isLoading := _isLoading sb;
              _lastRefreshTime := _lastRefreshTime sb |})
      | Throw e => (Throw e, sb)
      end
  end.

Definition setLoading (sb : QuotaSidebarProvider)
  : Completion unit * QuotaSidebarProvider :=
  _updateView
    {| _view := _view sb; _metricsData := _metricsData sb;
       _error := None; _isLoading := true;
       _lastRefreshTime := _lastRefreshTime sb |}.

(** [refresh(data, error, lastRefreshTime)], [undefined] as [None]. *)
Definition refresh (data : option value) (error : option jsstring)
  (lastRefreshTime : option Z) (sb : QuotaSidebarProvider)
  : Completion unit * QuotaSidebarProvider :=
  _updateView
    {| _view := _view sb;
       _metricsData := match data with Some d => d | None => JNull end;
       _error := error;
       _isLoading := false;
       _lastRefreshTime :=
         match lastRefreshTime with
         | Some t => Some t
         | None => _lastRefreshTime sb
         end |}.

Definition panel_getHtmlContent (data : value) (error : option jsstring)
  : Completion Html :=
  if truthy_string error then
    Normal (ErrorHtml (match error with Some e => e | None => [] end))
  else if negb (truthy data) then Normal LoadingHtml
  else match panel_data_throws data with
       | Some e => Throw e
       | None => Normal (DataHtml data)
       end.

(** [webviewPanel.updateContent(data, error)] on the panel of [g] *)
Definition updateContent (data : value) (error : option jsstring)
  (g : Globals) : Completion unit * Globals :=
  match panel_getHtmlContent data error with
  | Normal html =>
      (Normal tt,
       {| sidebarProvider := sidebarProvider g; webviewPanel := Some html;
          cachedData := cachedData g; notifications := notifications g |})
  | Throw e => (Throw e, g)
  end.

Definition with_sidebar (g : Globals) (sb : QuotaSidebarProvider)
  : Globals :=
  {| sidebarProvider := sb; webviewPanel := webviewPanel g;
     cachedData := cachedData g; notifications := notifications g |}.

Definition notify (n : Notification) (g : Globals) : Globals :=
  {| sidebarProvider := sidebarProvider g; webviewPanel := webviewPanel g;
     cachedData := cachedData g;
     notifications := notifications g ++ [n] |}.

(** The [try] block of [refreshData] from the assignment on, once the
    promise of [fetchMetrics] was fulfilled with [data] at time [now]. *)
Definition refresh_succeeded (data : value) (now : Z) (g : Globals)
  : Completion unit * Globals :=
  let g :=
    {| sidebarProvider := sidebarProvider g; webviewPanel := webviewPanel g;
       cachedData := data; notifications := notifications g |} in
  let shown := match data with JNull => None | _ => Some data end in
  match refresh shown None (Some now) (sidebarProvider g) with
  | (Throw e, sb) => (Throw e, with_sidebar g sb)
  | (Normal _, sb) =>
      let g := with_sidebar g sb in
      let updated :=
        match webviewPanel g with
        | Some _ =>
            if truthy data then updateContent data None g
            else (Normal tt, g)
        | None => (Normal tt, g)
        end in
      match updated with
      | (Throw e, g) => (Throw e, g)
      | (Normal _, g) =>
          (Normal tt,
           notify (InformationMessage
                     (js "Quota data refreshed successfully!")) g)
      end
  end.

(** The [catch] block of [refreshData]. Every error this program throws
    is an instance of [Error]. *)
Definition refresh_failed (error : JSError) (g : Globals) : Globals :=
  let errorMessage := message error in
  let '(_, sb) := refresh None (Some errorMessage) None (sidebarProvider g) in
  let g := with_sidebar g sb in
  let g :=
    match webviewPanel g with
    | Some _ => snd (updateContent JNull (Some errorMessage) g)
    | None => g
    end in
  notify (ErrorMessage (js "Failed to refresh: " ++ errorMessage)) g.

(** [refreshData()]. While the promise of [fetchMetrics] is pending the
    function stays suspended at its [await]. *)
Definition refreshData (g : Globals) (st : Sys World)
  : Globals * Sys World :=
  let '(_, sb) := setLoading (sidebarProvider g) in
  let g := with_sidebar g sb in
  let '(p, st) := fetchMetrics st in
  match p with
  | Pending => (g, st)
  | Rejected error => (refresh_failed error g, st)
  | Fulfilled data =>
      match refresh_succeeded data (current_time (world st)) g with
      | (Normal _, g) => (g, st)
      | (Throw error, g) => (refresh_failed error g, st)
      end
  end.

End Caller.

End Extension.
Export Extension.

(** ** fetch_metrics.sh

    The loop of the shell script that looks for the active port. What
    the command substitution of the [curl] call captures, the status of
    the response as [curl] writes it, is the answer of the host. *)

Module Script.

Class Curl (World : Type) : Type := {
  http_code : jsstring -> jsstring -> World -> jsstring * World
}.

Section Loop.

Context {World : Type} `{Curl World}.

(** [for PORT in $PORTS; do ... done], from the value that [FINAL_PORT]
    has before the loop. *)
Fixpoint port_loop (TOKEN : jsstring) (PORTS : list jsstring)
  (FINAL_PORT : jsstring) (w : World) : jsstring * World :=
  match PORTS with
  | [] => (FINAL_PORT, w)
  | PORT :: rest =>
      let '(RESPONSE, w') := http_code PORT TOKEN w in
      if jseqb RESPONSE (js "200") then (PORT, w')
      else port_loop TOKEN rest FINAL_PORT w'
  end.

(** The loop and the test after it: the port, or the exit with status 1
    when [FINAL_PORT] is still empty. *)
Definition find_port (TOKEN : jsstring) (PORTS : list jsstring) (w : World)
  : option jsstring * World :=
  let '(FINAL_PORT, w') := port_loop TOKEN PORTS [] w in
  (if is_empty FINAL_PORT then None else Some FINAL_PORT, w').

End Loop.

End Script.
Export Script.

(** ** Vocabulary of the properties *)

Module Observations.

(** The probe answered with the status 200. *)
Definition answers_200 (r : ExecResult) : bool :=
  match r with
  | Normal out => jseqb (trim out) (js "200")
  | Throw _ => false
  end.

(** The command of an [execSync] in the log. *)
Definition command_of (e : Effect) : option jsstring :=
  match e with
  | Exec c _ _ => Some c
  | _ => None
  end.

(** Events that leave the promise of a request pending. *)
Definition quiet (ev : HttpEvent) : bool :=
  match ev with
  | EvResponse _ | EvData _ => true
  | EvEnd | EvError _ | EvTimeout => false
  end.

(** How a response that has ended settles the promise. *)
Definition body_outcome (body : jsstring) : PromiseState :=
  match Json.parse body with
  | Some parsed => Fulfilled parsed
  | None => Rejected (Error parse_failure_message)
  end.

Section Observations.

Context {World : Type} `{Host World}.

(** A system that has done nothing yet. *)
Definition boot (w : World) : Sys World := {| world := w; log := [] |}.

(** What the host in state [w] answers to the probe of a port. *)
Definition probe_answer (w : World) (port token : jsstring) : ExecResult :=
  fst (run_command (curl_command port token) probe_timeout w).

(** [e] is the probe of port [q], with the answer of the host. *)
Definition probed_by (token : jsstring) (e : Effect) (q : jsstring) : Prop :=
  exists w,
    e = Exec (curl_command q token) probe_timeout (probe_answer w q token).

(** What it answers to the metrics call. *)
Definition metrics_answer (w : World) (serverInfo : ServerInfo) : HttpRun :=
  fst (run_request (request_options serverInfo) postData fetch_timeout w).

(** The process listing matched by the signature, when there is one. *)
Definition process_listing (w : World) : option jsstring :=
  match fst (run_command ps_command ps_timeout w) with
  | Normal out => if is_empty (trim out) then None else Some (trim out)
  | Throw _ => None
  end.

(** The candidate ports of process [pid], after the process listing. *)
Definition listening_ports (w : World) (pid : jsstring) : list jsstring :=
  match fst (run_command (lsof_command pid) lsof_timeout
               (snd (run_command ps_command ps_timeout w))) with
  | Normal out => extract_ports (split_on LF (trim out))
  | Throw _ => []
  end.

(** The four ways in which there is nothing to locate. *)
Inductive Unlocatable (st : Sys World) : Prop :=
| no_process :
    process_listing (world st) = None -> Unlocatable st
| no_token : forall psOutput,
    process_listing (world st) = Some psOutput ->
    match_token (first_line psOutput) = None -> Unlocatable st
| no_ports : forall psOutput pid,
    process_listing (world st) = Some psOutput ->
    pid_field (first_line psOutput) = Some pid ->
    listening_ports (world st) pid = [] -> Unlocatable st
| no_answer : forall pid token ports st1,
    list_candidates st = (Normal (Some (pid, token, ports)), st1) ->
    (forall q w, In q ports ->
       answers_200 (probe_answer w q token) = false) ->
    Unlocatable st.

End Observations.

End Observations.
Export Observations.

(** ** A scripted host

    A host for trying the client out: a list of situations, each with the
    answers of the shell commands, the course of the metrics call and the
    time. A metrics call ends the current situation. *)

Module Scripted.

Record Situation : Type := {
  answers : list (jsstring * ExecResult);
  exchange : HttpRun;
  clock : Z
}.

Definition command_failed : JSError := Error (js "Command failed").

Fixpoint answer_of (command : jsstring)
  (table : list (jsstring * ExecResult)) : ExecResult :=
  match table with
  | [] => Throw command_failed
  | (c, r) :: rest => if jseqb command c then r else answer_of command rest
  end.

#[export] Instance scripted_host : Host (list Situation) := {
  run_command command _ w :=
    (match w with
     | now :: _ => answer_of command (answers now)
     | [] => Throw command_failed
     end, w);
  run_request _ _ _ w :=
    match w with
    | now :: later => (exchange now, later)
    | [] => (Normal [EvError (Error (js "connect ECONNREFUSED"))], w)
    end;
  current_time w :=
    match w with
    | now :: _ => clock now
    | [] => 0
    end
}.

(** A host that stays in one situation. *)
Definition steady_host (now : Situation) : Host unit := {|
  run_command command _ w := (answer_of command (answers now), w);
  run_request _ _ _ w := (exchange now, w);
  current_time _ := clock now
|}.

Definition ps_line : jsstring :=
  js "dev  4242  0.0  0.1  4096  2048 ??  S  10:00AM  0:01.23 /opt/ide/bin/language_server_macos_arm --csrf_token 0a1b-2c3d --workspace_id demo".

Definition lsof_line (port : string) : jsstring :=
  js "language_ 4242 dev 10u IPv4 0x01 0t0 TCP 127.0.0.1:" ++ js port
  ++ js " (LISTEN)" ++ [LF].

Definition lsof_lines : jsstring :=
  lsof_line "5001" ++ lsof_line "5002" ++ lsof_line "5003".

Definition the_token : jsstring := js "0a1b-2c3d".

(** The process runs and listens on three ports: 5001 refuses the
    connection, 5002 answers 404, 5003 answers 200. *)
Definition ide_running : list (jsstring * ExecResult) :=
  [ (ps_command, Normal (ps_line ++ [LF]));
    (lsof_command (js "4242"), Normal lsof_lines);
    (curl_command (js "5001") the_token, Throw command_failed);
    (curl_command (js "5002") the_token, Normal (js "404"));
    (curl_command (js "5003") the_token, Normal (js "200")) ].

(** The same, with no port that answers 200. *)
Definition ide_starting : list (jsstring * ExecResult) :=
  [ (ps_command, Normal (ps_line ++ [LF]));
    (lsof_command (js "4242"), Normal lsof_lines);
    (curl_command (js "5002") the_token, Normal (js "404")) ].

Definition endpoint : ServerInfo :=
  {| pid := js "4242"; token := the_token; port := js "5003" |}.

Definition midday : Z := 1735732800000.

Definition answering (status : Z) (chunks : list jsstring) : Situation :=
  {| answers := ide_running;
     exchange := Normal (EvResponse status :: map EvData chunks ++ [EvEnd]);
     clock := midday |}.

(** A literal in which the single quotes stand for double quotes. *)
Definition jq (s : string) : jsstring :=
  map (fun c => if (c =? 39)%N then 34%N else c) (js s).

Definition ann_body : list jsstring :=
  [ jq "{'userStatus':{'name'"; jq ":'Ann'}}" ].

Definition ann : value :=
  JObject [(js "userStatus", JObject [(js "name", JString (js "Ann"))])].

Definition unavailable_body : list jsstring :=
  [ jq "{'code':'unavailable'}" ].

(** The body of the example response of the specification. *)
Definition sample_body : jsstring :=
  jq "{'userStatus':{'name':'Ann','email':'a@x.com','planStatus':{'availablePromptCredits':500,'planInfo':{'monthlyPromptCredits':1000,'monthlyFlowCredits':200},'availableFlowCredits':50},'cascadeModelConfigData':{'clientModelConfigs':[{'label':'M1','modelOrAlias':{'model':'m1'},'quotaInfo':{'remainingFraction':0.42,'resetTime':'2025-01-01T00:00:00Z'}}]},'userTier':{'id':'t1','name':'Pro','description':'d'}}}".

(** The value that [JSON.parse] makes of it. *)
Definition sample : value :=
  match Json.parse sample_body with
  | Some parsed => parsed
  | None => JNull
  end.

(** [v.k] and [v[i]] on parsed values *)
Definition member (k : string) (v : option value) : option value :=
  match v with
  | Some (JObject ms) => get_member (js k) ms
  | _ => None
  end.

Definition element (i : nat) (v : option value) : option value :=
  match v with
  | Some (JArray xs) => nth_error xs i
  | _ => None
  end.

(** A host for the shell script: the answers of [ide_running]. *)
#[export] Instance scripted_curl : Curl unit := {
  http_code PORT TOKEN w :=
    (match answer_of (curl_command PORT TOKEN) ide_running with
     | Normal out => out
     | Throw _ => js "000"
     end, w)
}.

Definition stalling : Situation :=
  {| answers := ide_running;
     exchange := Normal [EvTimeout; EvError (Error (js "socket hang up"))];
     clock := midday |}.

Definition ide_closed : Situation :=
  {| answers := []; exchange := Normal []; clock := midday |}.

Definition no_port_yet : Situation :=
  {| answers := ide_starting; exchange := Normal []; clock := midday |}.

(** The process was started with the token in another form. *)
Definition other_flag_line : jsstring :=
  js "dev  4242  0.0  0.1  4096  2048 ??  S  10:00AM  0:01.23 /opt/ide/bin/language_server_macos_arm --csrf_token=0a1b-2c3d".

Definition token_missing : Situation :=
  {| answers := [(ps_command, Normal (other_flag_line ++ [LF]))];
     exchange := Normal []; clock := midday |}.

(** The process runs and listens on no port: [grep] selects no line of
    the port listing and the pipeline fails. *)
Definition not_listening : Situation :=
  {| answers := [(ps_command, Normal (ps_line ++ [LF]))];
     exchange := Normal []; clock := midday |}.

(** A [Date_parse] that knows one date. *)
Definition new_year : jsstring := js "2025-01-02T00:00:00Z".

Definition one_date (s : jsstring) : number :=
  if jseqb s new_year then Int 1735776000000 else NaN.

Definition fresh_globals : Globals :=
  {| sidebarProvider :=
       {| _view := Some WelcomeHtml; _metricsData := JNull; _error := None;
          _isLoading := false; _lastRefreshTime := None |};
     webviewPanel := None;
     cachedData := JNull;
     notifications := [] |}.

End Scripted.
Export Scripted.

(** ** quotaSidebarProvider.ts and quotaWebviewPanel.ts: the texts

    The two helpers of the views that work on integers and strings:
    the age of the last refresh and the short name of a model. *)

Module Presentation.

(** [_formatLastRefresh()] of the sidebar at the time [now]. The time
    values of the two dates are integers. *)
Definition _formatLastRefresh (sb : QuotaSidebarProvider) (now : Z)
  : jsstring :=
  match _lastRefreshTime sb with
  | None => js "Not yet refreshed"
  | Some last =>
      let diffMs := now - last in
      let diffSecs := diffMs / 1000 in
      let diffMins := diffSecs / 60 in
      let diffHours := diffMins / 60 in
      if diffSecs <? 10 then js "Just now"
      else if diffSecs <? 60 then to_string (Int diffSecs) ++ js "s ago"
      else if diffMins <? 60 then to_string (Int diffMins) ++ js "m ago"
      else
        to_string (Int diffHours) ++ js "h "
        ++ to_string (Int (Z.rem diffMins 60)) ++ js "m ago"
  end.

(** [pieces.join(sep)] *)
Fixpoint join (sep : jsstring) (pieces : list jsstring) : jsstring :=
  match pieces with
  | [] => []
  | [piece] => piece
  | piece :: rest => piece ++ sep ++ join sep rest
  end.

Definition SPACE : N := 32%N.

(** [label.split(' ').slice(0, 2).join(' ')] *)
Definition first_two_words (label : jsstring) : jsstring :=
  join [SPACE] (firstn 2 (split_on SPACE label)).

(** The table of the sidebar. *)
Definition sidebar_mappings : list (jsstring * jsstring) :=
  [ (js "Claude Opus 4.5 (Thinking)", js "Claude Opus");
    (js "Claude Sonnet 4.5", js "Sonnet");
    (js "Claude Sonnet 4.5 (Thinking)", js "Sonnet Think");
    (js "Gemini 3 Pro (High)", js "Gemini Pro");
    (js "Gemini 3 Pro (Low)", js "Gemini Pro");
    (js "Gemini 3 Flash", js "Gemini Flash");
    (js "GPT-OSS 120B (Medium)", js "GPT-OSS") ].

(** The table of the panel. *)
Definition panel_mappings : list (jsstring * jsstring) :=
  [ (js "Claude Opus 4.5 (Thinking)", js "Claude Opus");
    (js "Claude Sonnet 4.5", js "Claude Sonnet");
    (js "Claude Sonnet 4.5 (Thinking)", js "Claude Sonnet");
    (js "Gemini 3 Pro (High)", js "Gemini Pro");
    (js "Gemini 3 Pro (Low)", js "Gemini Pro");
    (js "Gemini 3 Flash", js "Gemini Flash");
    (js "GPT-OSS 120B (Medium)", js "GPT-OSS") ].

(** The names that every object literal inherits from
    [Object.prototype]: [mappings[label]] finds a function or an object
    under them, which counts as true in a condition. *)
Definition object_prototype_names : list jsstring :=
  [ js "constructor"; js "__defineGetter__"; js "__defineSetter__";
    js "hasOwnProperty"; js "__lookupGetter__"; js "__lookupSetter__";
    js "isPrototypeOf"; js "propertyIsEnumerable"; js "toString";
    js "valueOf"; js "__proto__"; js "toLocaleString" ].

Fixpoint assoc (k : jsstring) (table : list (jsstring * jsstring))
  : option jsstring :=
  match table with
  | [] => None
  | (k', v) :: rest => if jseqb k k' then Some v else assoc k rest
  end.

Definition inherited (label : jsstring) : bool :=
  existsb (jseqb label) object_prototype_names.

(** [_getShortModelName(label)] over a table, for a label that is a
    string. The entries of the tables are not empty, so an entry that is
    found is returned; [None] stands for the inherited member that is
    returned in place of a string. *)
Definition getShortModelName (mappings : list (jsstring * jsstring))
  (label : jsstring) : option jsstring :=
  match assoc label mappings with
  | Some short => Some short
  | None =>
      if inherited label then None else Some (first_two_words label)
  end.

Definition sidebar_getShortModelName : jsstring -> option jsstring :=
  getShortModelName sidebar_mappings.

Definition panel_getShortModelName : jsstring -> option jsstring :=
  getShortModelName panel_mappings.

End Presentation.
Export Presentation.

(** ** quotaSidebarProvider.ts and quotaWebviewPanel.ts: the data page

    The generation of the page that shows the quota data, followed for
    what it reads of the data and where it throws; the markup it returns
    is not modelled. The data is whatever [JSON.parse] returned, so every
    read can meet a value of another kind than the declared one. The
    messages of the errors are worded as V8 words them. *)

Module Rendering.

Definition and_then {A B : Type} (c : Completion A)
  (k : A -> Completion B) : Completion B :=
  match c with
  | Normal a => k a
  | Throw e => Throw e
  end.

Notation "x <~ c ;; k" := (and_then c (fun x => k))
  (at level 61, c at next level, right associativity) : client_scope.

Definition reading_of_undefined (k : string) : JSError :=
  Error (js "Cannot read properties of undefined (reading '" ++ js k
         ++ js "')").

Definition reading_of_null (k : string) : JSError :=
  Error (js "Cannot read properties of null (reading '" ++ js k ++ js "')").

Definition not_a_function (callee : string) : JSError :=
  Error (js callee ++ js " is not a function").

Definition not_a_primitive : JSError :=
  Error (js "Cannot convert object to primitive value").

(** [v.k], for a name [k] that no prototype defines; [None] stands for
    [undefined]. Only [undefined] and [null] make the read throw; of the
    parsed values only an object has members of its own. *)
Definition read (k : string) (v : option value) : Completion (option value) :=
  match v with
  | None => Throw (reading_of_undefined k)
  | Some JNull => Throw (reading_of_null k)
  | Some (JObject ms) => Normal (get_member (js k) ms)
  | Some _ => Normal None
  end.

(** The receiver of a call [v.method(...)], for a method that the
    values selected by [pick] have and no other parsed value: a member of
    that name of a parsed object is never a function. *)
Definition receiver {A : Type} (callee method : string)
  (pick : value -> option A) (v : option value) : Completion A :=
  match v with
  | None => Throw (reading_of_undefined method)
  | Some JNull => Throw (reading_of_null method)
  | Some x =>
      match pick x with
      | Some a => Normal a
      | None => Throw (not_a_function callee)
      end
  end.

Definition as_string (v : value) : option jsstring :=
  match v with
  | JString s => Some s
  | _ => None
  end.

Definition as_array (v : value) : option (list value) :=
  match v with
  | JArray xs => Some xs
  | _ => None
  end.

(** The conversion of a value to a primitive one, which an arithmetic
    operator, a comparison, a template literal, a property key and
    [new Date(v)] apply, completes. A parsed object inherits [toString]
    and [valueOf], of which [valueOf] returns the object itself: the
    conversion fails exactly when a member of its own hides [toString].
    An array is joined, which converts its elements. *)
Fixpoint converts (v : value) : bool :=
  match v with
  | JObject ms =>
      match get_member (js "toString") ms with
      | Some _ => false
      | None => true
      end
  | JArray xs => forallb converts xs
  | _ => true
  end.

Definition to_primitive (v : option value) : Completion unit :=
  match v with
  | Some x => if converts x then Normal tt else Throw not_a_primitive
  | None => Normal tt
  end.

(** A value that may be [undefined], in a condition. *)
Definition holds (v : option value) : bool :=
  match v with
  | Some x => truthy x
  | None => false
  end.

(** [models.filter(m => m.quotaInfo)], on the elements of the array *)
Fixpoint with_quotaInfo (models : list value) : Completion (list value) :=
  match models with
  | [] => Normal []
  | m :: rest =>
      quotaInfo <~ read "quotaInfo" (Some m) ;;
      kept <~ with_quotaInfo rest ;;
      Normal (if holds quotaInfo then m :: kept else kept)
  end.

Definition modelsWithQuota_of (models : option value)
  : Completion (list value) :=
  elements <~ receiver "models.filter" "filter" as_array models ;;
  with_quotaInfo elements.

(** [s.toLowerCase()], as far as a comparison with a text of ASCII can
    tell: the capital letters of ASCII become small, the Kelvin sign
    U+212A becomes k, the capital I with a dot U+0130 becomes i and a
    combining dot; every other code unit lowers to code units outside
    ASCII and is kept as it is. *)
Definition lowered (s : jsstring) : jsstring :=
  flat_map
    (fun c =>
       if ((65 <=? c) && (c <=? 90))%N then [(c + 32)%N]
       else if (c =? 8490)%N then [107%N]
       else if (c =? 304)%N then [105%N; 775%N]
       else [c])
    s.

(** [s.includes(sub)] *)
Definition includes (s sub : jsstring) : bool :=
  match leftmost (strip_prefix sub) s with
  | Some _ => true
  | None => false
  end.

(** The defaults of the settings [heroModel1], [heroModel2] and
    [heroModel3], which [_getHeroModelNames] returns when the user has
    set none. *)
Definition default_heroModelNames : list jsstring :=
  [ js "Claude Opus 4.5 (Thinking)"; js "Gemini 3 Pro (High)";
    js "Gemini 3 Flash" ].

(** The test of [modelsWithQuota.find], once both texts are strings. *)
Definition matches (label name : jsstring) : bool :=
  includes (lowered label) (lowered name)
  || includes (lowered name) (lowered label).

(** [modelsWithQuota.find(m => ...)] for one hero name: the position of
    the model found. A model is an object, and objects are compared by
    identity, so that a position stands for the model. *)
Fixpoint find_model (name : jsstring) (i : nat) (models : list value)
  : Completion (option nat) :=
  match models with
  | [] => Normal None
  | m :: rest =>
      label <~ read "label" (Some m) ;;
      text <~ receiver "m.label.toLowerCase" "toLowerCase" as_string label ;;
      if matches text name then Normal (Some i)
      else find_model name (S i) rest
  end.

Definition included (i : nat) (heroModels : list nat) : bool :=
  existsb (Nat.eqb i) heroModels.

(** The loop over the hero names. *)
Fixpoint named_heroes (names : list jsstring) (models : list value)
  (heroModels : list nat) : Completion (list nat) :=
  match names with
  | [] => Normal heroModels
  | name :: rest =>
      found <~ find_model name 0 models ;;
      named_heroes rest models
        match found with
        | Some i =>
            if included i heroModels then heroModels else heroModels ++ [i]
        | None => heroModels
        end
  end.

(** The loop that fills the heroes up to three, over [count] models. *)
Definition filled (count : nat) (heroModels : list nat) : list nat :=
  if (length heroModels <? 3)%nat then
    fold_left
      (fun heroes i =>
         if negb (included i heroes) && (length heroes <? 3)%nat
         then heroes ++ [i] else heroes)
      (seq 0 count) heroModels
  else heroModels.

Definition models_at (positions : list nat) (models : list value)
  : list value :=
  flat_map
    (fun i => match nth_error models i with Some m => [m] | None => [] end)
    positions.

Fixpoint each {A : Type} (f : A -> Completion unit) (xs : list A)
  : Completion unit :=
  match xs with
  | [] => Normal tt
  | x :: rest => _ <~ f x ;; each f rest
  end.

(** What the gauge and the row of a model compute first: the percentage,
    a product, and the reset time, which [formatResetTime] passes to
    [new Date]. With the setting [resetTimeFormat] at its default the
    panel formats the reset time with [formatResetTime] as well. *)
Definition quota_of (quotaInfo : option value) : Completion unit :=
  remainingFraction <~ read "remainingFraction" quotaInfo ;;
  _ <~ to_primitive remainingFraction ;;
  resetTime <~ read "resetTime" quotaInfo ;;
  to_primitive resetTime.

(** The text of [v], as a property key or as an element of an array
    that is joined, is [key]. For the keys of the tables and the names of
    [Object.prototype] only: the text of a number, of a boolean, of
    [null] or of an object is none of them, an empty array and an element
    [null] give the empty text, and an array of several elements gives a
    text with a comma. *)
Fixpoint spells (v : value) (key : jsstring) : bool :=
  match v with
  | JString s => jseqb s key
  | JArray [x] => spells x key
  | _ => false
  end.

(** [mappings[label]] counts as true: the label spells a key of the
    table or a name that the table inherits. *)
Definition listed (mappings : list (jsstring * jsstring))
  (label : option value) : bool :=
  match label with
  | Some v =>
      existsb (spells v) (map fst mappings ++ object_prototype_names)
  | None => false
  end.

(** [_getShortModelName(label)] over a table, for any label. *)
Definition shortName_of (mappings : list (jsstring * jsstring))
  (label : option value) : Completion unit :=
  _ <~ to_primitive label ;;
  if listed mappings label then Normal tt
  else _ <~ receiver "label.split" "split" as_string label ;; Normal tt.

(** One hero gauge. *)
Definition gauge (mappings : list (jsstring * jsstring)) (model : value)
  : Completion unit :=
  quotaInfo <~ read "quotaInfo" (Some model) ;;
  if negb (holds quotaInfo) then Normal tt
  else
    _ <~ quota_of quotaInfo ;;
    label <~ read "label" (Some model) ;;
    shortName_of mappings label.

(** One row of the list of models, whose template puts the label. *)
Definition row (model : value) : Completion unit :=
  quotaInfo <~ read "quotaInfo" (Some model) ;;
  if negb (holds quotaInfo) then Normal tt
  else
    _ <~ quota_of quotaInfo ;;
    label <~ read "label" (Some model) ;;
    to_primitive label.

(** The credits: what is read of [planStatus], and the two quotients. *)
Definition credits (planStatus : option value)
  : Completion (option value * option value * option value * option value) :=
  promptCurrent <~ read "availablePromptCredits" planStatus ;;
  planInfo <~ read "planInfo" planStatus ;;
  promptTotal <~ read "monthlyPromptCredits" planInfo ;;
  _ <~ to_primitive promptCurrent ;;
  _ <~ to_primitive promptTotal ;;
  flowCurrent <~ read "availableFlowCredits" planStatus ;;
  planInfo <~ read "planInfo" planStatus ;;
  flowTotal <~ read "monthlyFlowCredits" planInfo ;;
  _ <~ to_primitive flowCurrent ;;
  _ <~ to_primitive flowTotal ;;
  Normal (promptCurrent, promptTotal, flowCurrent, flowTotal).

(** [_formatK(num)]. The comparison converts [num]. A value of 1000 at
    least takes the branch of [toFixed], which does not throw;
    [undefined] and [null] are not that large and have no [toString]
    to call; every other value that converts has one. *)
Definition _formatK (num : option value) : Completion unit :=
  _ <~ to_primitive num ;;
  match num with
  | None => Throw (reading_of_undefined "toString")
  | Some JNull => Throw (reading_of_null "toString")
  | Some _ => Normal tt
  end.

(** The part of the template from the credits to the user card. *)
Definition cards (userStatus : option value)
  (amounts : option value * option value * option value * option value)
  : Completion unit :=
  let '(promptCurrent, promptTotal, flowCurrent, flowTotal) := amounts in
  _ <~ _formatK promptCurrent ;;
  _ <~ _formatK promptTotal ;;
  _ <~ _formatK flowCurrent ;;
  _ <~ _formatK flowTotal ;;
  name <~ read "name" userStatus ;;
  _ <~ receiver "userStatus.name.charAt" "charAt" as_string name ;;
  email <~ read "email" userStatus ;;
  _ <~ to_primitive email ;;
  userTier <~ read "userTier" userStatus ;;
  tier <~ read "name" userTier ;;
  to_primitive tier.

(** [_getDataHtml(data)] of the sidebar, for the hero names of the
    settings. *)
Definition sidebar_getDataHtml (heroModelNames : list jsstring)
  (data : value) : Completion unit :=
  userStatus <~ read "userStatus" (Some data) ;;
  cascadeModelConfigData <~ read "cascadeModelConfigData" userStatus ;;
  models <~ read "clientModelConfigs" cascadeModelConfigData ;;
  planStatus <~ read "planStatus" userStatus ;;
  modelsWithQuota <~ modelsWithQuota_of models ;;
  heroModels <~ named_heroes heroModelNames modelsWithQuota [] ;;
  let heroModels := filled (length modelsWithQuota) heroModels in
  _ <~ each (gauge sidebar_mappings) (models_at heroModels modelsWithQuota) ;;
  _ <~ each row modelsWithQuota ;;
  amounts <~ credits planStatus ;;
  cards userStatus amounts.

(** [_getHtmlContent(data)] of the panel after its two tests, with the
    reset times in the relative form of the default settings. *)
Definition panel_getDataHtml (data : value) : Completion unit :=
  userStatus <~ read "userStatus" (Some data) ;;
  cascadeModelConfigData <~ read "cascadeModelConfigData" userStatus ;;
  models <~ read "clientModelConfigs" cascadeModelConfigData ;;
  planStatus <~ read "planStatus" userStatus ;;
  modelsWithQuota <~ modelsWithQuota_of models ;;
  _ <~ each (gauge panel_mappings) (firstn 3 modelsWithQuota) ;;
  _ <~ each row (skipn 3 modelsWithQuota) ;;
  amounts <~ credits planStatus ;;
  cards userStatus amounts.

Definition thrown {A : Type} (c : Completion A) : option JSError :=
  match c with
  | Normal _ => None
  | Throw e => Some e
  end.

(** The two views under the default settings. *)
#[export] Instance default_views : Views := {
  sidebar_data_throws data :=
    thrown (sidebar_getDataHtml default_heroModelNames data);
  panel_data_throws data := thrown (panel_getDataHtml data)
}.

End Rendering.
Export Rendering.

(** ** Vocabulary of the further properties *)

Module Accounting.

(** The number of times the timeout of a request expired. *)
Definition timeouts (events : list HttpEvent) : nat :=
  length (filter (fun ev => match ev with EvTimeout => true | _ => false end)
            events).

(** The commands of a discovery: the process listing, a port listing,
    or the probe of a port written in digits with a token written in
    token characters, each with its timeout. *)
Definition discovery_effect (e : Effect) : Prop :=
  match e with
  | Exec c t _ =>
      (c = ps_command /\ t = ps_timeout)
      \/ (exists pid, c = lsof_command pid /\ t = lsof_timeout)
      \/ (exists q tok,
            c = curl_command q tok /\ t = probe_timeout
            /\ forallb is_digit q = true
            /\ forallb is_token_char tok = true)
  | _ => False
  end.

Definition no_space (s : jsstring) : bool :=
  forallb (fun c => negb (is_space c)) s.

Definition spaces (s : jsstring) : nat :=
  length (filter (N.eqb SPACE) s).

(** [p] is a prefix of [s]. *)
Definition is_prefix (p s : jsstring) : Prop := exists rest, s = p ++ rest.

(** The chunks of data among the events, in their order. *)
Definition chunks_of (events : list HttpEvent) : list jsstring :=
  flat_map (fun ev => match ev with EvData chunk => [chunk] | _ => [] end)
    events.

(** The events that follow the first head of a response. *)
Fixpoint after_response (events : list HttpEvent)
  : option (list HttpEvent) :=
  match events with
  | [] => None
  | EvResponse _ :: rest => Some rest
  | _ :: rest => after_response rest
  end.

(** The body received in the course of the events: the chunks that
    followed the head of the response, put together; none while there is
    no response. *)
Definition body_of (events : list HttpEvent) : option jsstring :=
  option_map (fun rest => concat (chunks_of rest)) (after_response events).

Definition is_failure (ev : HttpEvent) : bool :=
  match ev with
  | EvError _ | EvTimeout => true
  | _ => false
  end.

Definition is_end (ev : HttpEvent) : bool :=
  match ev with
  | EvEnd => true
  | _ => false
  end.

(** None of the events settles the promise: there is no error and no
    timeout among them, and no end after the head of a response. *)
Definition unsettled (events : list HttpEvent) : bool :=
  negb (existsb is_failure events)
  && match after_response events with
     | Some rest => negb (existsb is_end rest)
     | None => true
     end.

(** Why a promise of [fetchMetrics] can be rejected with [e], given the
    course of the request: by the first of its events that settles the
    promise, which is the end of a response whose body is not JSON, the
    timeout or an error. *)
Definition rejection_cause (run : option HttpRun) (e : JSError) : Prop :=
  match run with
  | None => e = Error not_found_message
  | Some (Throw thrown) => e = thrown
  | Some (Normal events) =>
      exists before ev rest,
        events = before ++ ev :: rest
        /\ unsettled before = true
        /\ match ev with
           | EvEnd =>
               exists body,
                 body_of before = Some body
                 /\ Json.parse body = None
                 /\ e = Error parse_failure_message
           | EvTimeout => e = Error timeout_message
           | EvError cause =>
               e = Error (fetch_failure_prefix ++ message cause)
           | EvResponse _ | EvData _ => False
           end
  end.

(** How an event settles a promise that the events [before] have left
    pending, when it does. *)
Definition settlement (before : list HttpEvent) (ev : HttpEvent)
  : option PromiseState :=
  match ev with
  | EvEnd => option_map body_outcome (body_of before)
  | EvError cause =>
      Some (Rejected (Error (fetch_failure_prefix ++ message cause)))
  | EvTimeout => Some (Rejected (Error timeout_message))
  | EvResponse _ | EvData _ => None
  end.

(** What a metrics call does to the host: one request, and one
    [req.destroy()] for each time the timeout expired. *)
Definition http_effects (serverInfo : ServerInfo) (run : HttpRun)
  : list Effect :=
  Request (request_options serverInfo) postData fetch_timeout run
  :: match run with
     | Normal events => repeat Destroy (timeouts events)
     | Throw _ => []
     end.

(** A host of the script that also keeps the ports it was asked about,
    in the order of the calls. *)
Definition recording {World : Type} (host : Curl World)
  : Curl (World * list jsstring) := {|
  http_code PORT TOKEN w :=
    let '(RESPONSE, w') := @http_code World host PORT TOKEN (fst w) in
    (RESPONSE, (w', snd w ++ [PORT]))
|}.

(** The ports that the script tries, one call of [curl] each. *)
Definition tried_ports {World : Type} `{host : Curl World}
  (TOKEN : jsstring) (PORTS : list jsstring) (w : World) : list jsstring :=
  snd (snd (@find_port (World * list jsstring) (recording host)
              TOKEN PORTS (w, []))).

End Accounting.
Export Accounting.

(** ** More situations of the scripted host *)

Module Situations.

(** A response that never ends. *)
Definition hanging : Situation :=
  {| answers := ide_running;
     exchange := Normal [EvResponse 200; EvData (js "{")];
     clock := midday |}.

(** A connection that is reset. *)
Definition resetting : Situation :=
  {| answers := ide_running;
     exchange := Normal [EvError (Error (js "read ECONNRESET"))];
     clock := midday |}.

(** A sidebar that was refreshed a while before [midday]. *)
Definition refreshed_before (ms : Z) : QuotaSidebarProvider :=
  {| _view := Some WelcomeHtml; _metricsData := JNull; _error := None;
     _isLoading := false; _lastRefreshTime := Some (midday - ms) |}.

(** The module variables with both views open and data in the cache. *)
Definition showing_sample : Globals :=
  {| sidebarProvider :=
       {| _view := Some (DataHtml sample); _metricsData := sample;
          _error := None; _isLoading := false;
          _lastRefreshTime := Some (midday - 60000) |};
     webviewPanel := Some (DataHtml sample);
     cachedData := sample;
     notifications := [] |}.

Definition unavailable : value :=
  JObject [(js "code", JString (js "unavailable"))].

End Situations.
Export Situations.

(** * Properties *)

(** ** Strings and the log *)

Lemma jseqb_eq (a b : jsstring) : jseqb a b = true <-> a = b.
Proof.
  revert b; induction a as [|x a IH]; intros [|y b]; simpl;
    try (split; [discriminate | congruence]); try tauto.
  rewrite andb_true_iff, N.eqb_eq, IH. split.
  - intros [-> ->]; reflexivity.
  - intros E; injection E; auto.
Qed.

Lemma jsstring_eq_dec (a b : jsstring) : {a = b} + {a <> b}.
Proof. apply list_eq_dec, N.eq_dec. Qed.

(** The first occurrence of an element of a list. *)
Lemma first_occurrence (p : jsstring) (l : list jsstring) :
  In p l -> exists pre post, l = pre ++ p :: post /\ ~ In p pre.
Proof.
  induction l as [|x l IH]; intros Hin; [destruct Hin|].
  destruct (jsstring_eq_dec x p) as [->|Hne].
  - exists [], l. split; [reflexivity | intros []].
  - destruct Hin as [E|Hin]; [contradiction|].
    destruct (IH Hin) as (pre & post & -> & Hpre).
    exists (x :: pre), post. split; [reflexivity|].
    intros [E|Hin']; [contradiction | exact (Hpre Hin')].
Qed.

(** ** The fuel of the JSON parser

    Each call of the parser is on a text shorter than that of its caller,
    so a fuel above the length of the text is never used up: no text
    fails to parse for lack of fuel. *)

Lemma drop_while_length (p : N -> bool) (s : jsstring) :
  (length (drop_while p s) <= length s)%nat.
Proof.
  induction s as [|c s IH]; cbn; [lia|]. destruct (p c); cbn; lia.
Qed.

Lemma skip_ws_length (s : jsstring) :
  (length (skip_ws s) <= length s)%nat.
Proof. apply drop_while_length. Qed.

Lemma starts_with_length (c : N) (s r : jsstring) :
  starts_with c s = Some r -> length s = S (length r).
Proof.
  destruct s as [|x s]; cbn; [discriminate|].
  destruct (N.eqb x c); [|discriminate]. intros [= ->]. reflexivity.
Qed.

Lemma starts_with_skip_ws (c : N) (s r : jsstring) :
  starts_with c (skip_ws s) = Some r -> (length r < length s)%nat.
Proof.
  intros E. apply starts_with_length in E.
  pose proof (skip_ws_length s). lia.
Qed.

Lemma strip_prefix_length (p : jsstring) :
  forall s r, strip_prefix p s = Some r -> (length r <= length s)%nat.
Proof.
  induction p as [|x p IH]; intros [|y s] r; cbn; try discriminate.
  - intros [= <-]. cbn. lia.
  - intros [= <-]. cbn. lia.
  - destruct (N.eqb x y); [|discriminate]. intros E. apply IH in E. lia.
Qed.

Lemma parse_chars_length (n : nat) :
  forall s acc str r,
    (length s <= n)%nat ->
    parse_chars acc s = Some (str, r) -> (length r < length s)%nat.
Proof.
  induction n as [|n IH]; intros [|c s] acc str r Hn; cbn;
    try discriminate; cbn in Hn; [lia|].
  destruct (c =? 34)%N; [intros [= _ <-]; lia|].
  destruct (c =? 92)%N.
  - destruct s as [|e s1]; [discriminate|].
    destruct (e =? 117)%N.
    + destruct s1 as [|a [|b [|c' [|d s2]]]]; try discriminate.
      destruct (hex4 a b c' d); [|discriminate].
      intros E. apply IH in E; cbn in *; lia.
    + destruct (unescape e); [|discriminate].
      intros E. apply IH in E; cbn in *; lia.
  - destruct (c <? 32)%N; [discriminate|].
    intros E. apply IH in E; lia.
Qed.

Lemma parse_literal_length (s : jsstring) (v : value) (r : jsstring) :
  parse_literal s = Some (v, r) -> (length r <= length s)%nat.
Proof.
  unfold parse_literal.
  destruct (strip_prefix (js "true") s) eqn:E1;
    [intros [= _ <-]; exact (strip_prefix_length _ _ _ E1)|].
  destruct (strip_prefix (js "false") s) eqn:E2;
    [intros [= _ <-]; exact (strip_prefix_length _ _ _ E2)|].
  destruct (strip_prefix (js "null") s) eqn:E3;
    [intros [= _ <-]; exact (strip_prefix_length _ _ _ E3)|].
  discriminate.
Qed.

Lemma take_digits_length (s : jsstring) (ds : list Z) (r : jsstring) :
  take_digits s = Some (ds, r) -> (length r <= length s)%nat.
Proof.
  unfold take_digits. destruct (digits_of s) as [|d l]; [discriminate|].
  intros E. assert (Hr : r = skipn (length (d :: l)) s) by congruence.
  rewrite Hr, length_skipn. lia.
Qed.

Lemma parse_fraction_length (s : jsstring) (ds : list Z) (r : jsstring) :
  parse_fraction s = Some (ds, r) -> (length r <= length s)%nat.
Proof.
  unfold parse_fraction. destruct (starts_with 46 s) as [t|] eqn:E.
  - apply starts_with_length in E. intros Ed.
    apply take_digits_length in Ed. lia.
  - intros [= _ <-]. lia.
Qed.

Lemma parse_exponent_length (s : jsstring) (e : Z) (r : jsstring) :
  parse_exponent s = Some (e, r) -> (length r <= length s)%nat.
Proof.
  unfold parse_exponent. destruct s as [|c t]; [intros [= _ <-]; lia|].
  destruct ((c =? 101) || (c =? 69))%N; [|intros [= _ <-]; lia].
  assert (Hsign : exists esign t',
             match starts_with 45 t with
             | Some r' => (-1, r')
             | None =>
                 match starts_with 43 t with
                 | Some r' => (1, r')
                 | None => (1, t)
                 end
             end = (esign, t') /\ (length t' <= length t)%nat).
  { destruct (starts_with 45 t) as [t'|] eqn:E1.
    - apply starts_with_length in E1. exists (-1), t'.
      split; [reflexivity | lia].
    - destruct (starts_with 43 t) as [t'|] eqn:E2.
      + apply starts_with_length in E2. exists 1, t'.
        split; [reflexivity | lia].
      + exists 1, t. split; [reflexivity | lia]. }
  destruct Hsign as (esign & t' & -> & Ht').
  destruct (take_digits t') as [[ds t'']|] eqn:Ed; [|discriminate].
  apply take_digits_length in Ed. intros [= _ <-]. cbn [length]. lia.
Qed.

Lemma parse_number_length (s : jsstring) (v : value) (r : jsstring) :
  parse_number s = Some (v, r) -> (length r <= length s)%nat.
Proof.
  unfold parse_number.
  assert (Hsign : exists neg t,
             match starts_with 45 s with
             | Some r => (true, r)
             | None => (false, s)
             end = (neg, t) /\ (length t <= length s)%nat).
  { destruct (starts_with 45 s) as [t|] eqn:E.
    - apply starts_with_length in E. exists true, t. split; [reflexivity|lia].
    - exists false, s. split; [reflexivity|lia]. }
  destruct Hsign as (neg & t & -> & Ht).
  destruct (match starts_with 48 t with Some _ => [0] | None => digits_of t end)
    as [|d ds]; [discriminate|].
  destruct (parse_fraction (skipn (length (d :: ds)) t))
    as [[frac t1]|] eqn:Ef; [|discriminate].
  destruct (parse_exponent t1) as [[e t2]|] eqn:Ee; [|discriminate].
  intros [= _ <-].
  apply parse_fraction_length in Ef. apply parse_exponent_length in Ee.
  pose proof (length_skipn (length (d :: ds)) t) as Hskip.
  lia.
Qed.

Lemma parse_scalar_length (s : jsstring) (v : value) (r : jsstring) :
  parse_scalar s = Some (v, r) -> (length r <= length s)%nat.
Proof.
  unfold parse_scalar. destruct s as [|c t]; [discriminate|].
  destruct (is_digit c || (c =? 45)%N);
    [apply parse_number_length | apply parse_literal_length].
Qed.

(** What is left of the text after a value is not longer than the text. *)
Lemma parse_rest_length (fuel : nat) :
  (forall s v r,
     parse_value fuel s = Some (v, r) -> (length r <= length s)%nat)
  /\ (forall acc s v r,
        parse_elements fuel acc s = Some (v, r) ->
        (length r <= length s)%nat)
  /\ (forall acc s v r,
        parse_members fuel acc s = Some (v, r) ->
        (length r <= length s)%nat).
Proof.
  induction fuel as [|fuel (IHv & IHe & IHm)];
    [repeat split; intros; discriminate|].
  split; [|split].
  - intros s v r. cbn [parse_value].
    pose proof (skip_ws_length s) as Hs.
    destruct (starts_with 34 (skip_ws s)) as [t|] eqn:E1.
    { apply starts_with_length in E1.
      destruct (parse_chars [] t) as [[str t']|] eqn:Ec; [|discriminate].
      apply (parse_chars_length _ _ _ _ _ (le_n _)) in Ec.
      intros [= _ <-]. lia. }
    destruct (starts_with 91 (skip_ws s)) as [t|] eqn:E2.
    { apply starts_with_length in E2.
      destruct (starts_with 93 (skip_ws t)) as [t'|] eqn:E3.
      { apply starts_with_skip_ws in E3. intros [= _ <-]. lia. }
      destruct (parse_value fuel t) as [[v1 t1]|] eqn:Ev; [|discriminate].
      apply IHv in Ev. intros Ee. apply IHe in Ee. lia. }
    destruct (starts_with 123 (skip_ws s)) as [t|] eqn:E4.
    { apply starts_with_length in E4.
      destruct (starts_with 125 (skip_ws t)) as [t'|] eqn:E5.
      { apply starts_with_skip_ws in E5. intros [= _ <-]. lia. }
      intros Em. apply IHm in Em. lia. }
    intros Es. apply parse_scalar_length in Es. lia.
  - intros acc s v r. cbn [parse_elements].
    destruct (starts_with 93 (skip_ws s)) as [t|] eqn:E1.
    { apply starts_with_skip_ws in E1. intros [= _ <-]. lia. }
    destruct (starts_with 44 (skip_ws s)) as [t|] eqn:E2; [|discriminate].
    apply starts_with_skip_ws in E2.
    destruct (parse_value fuel t) as [[v1 t1]|] eqn:Ev; [|discriminate].
    apply IHv in Ev. intros Ee. apply IHe in Ee. lia.
  - intros acc s v r. cbn [parse_members].
    destruct (starts_with 34 (skip_ws s)) as [t|] eqn:E1; [|discriminate].
    apply starts_with_skip_ws in E1.
    destruct (parse_chars [] t) as [[k t1]|] eqn:Ec; [|discriminate].
    apply (parse_chars_length _ _ _ _ _ (le_n _)) in Ec.
    destruct (starts_with 58 (skip_ws t1)) as [t2|] eqn:E2; [|discriminate].
    apply starts_with_skip_ws in E2.
    destruct (parse_value fuel t2) as [[v1 t3]|] eqn:Ev; [|discriminate].
    apply IHv in Ev. cbv zeta.
    destruct (starts_with 125 (skip_ws t3)) as [t4|] eqn:E3.
    { apply starts_with_skip_ws in E3. intros [= _ <-]. lia. }
    destruct (starts_with 44 (skip_ws t3)) as [t4|] eqn:E4; [|discriminate].
    apply starts_with_skip_ws in E4. intros Em. apply IHm in Em. lia.
Qed.

(** With a fuel above the length of the text, the result does not depend
    on the fuel. *)
Lemma parse_fuel_stable (f1 : nat) :
  (forall f2 s,
     (length s < f1)%nat -> (length s < f2)%nat ->
     parse_value f1 s = parse_value f2 s)
  /\ (forall f2 acc s,
        (length s < f1)%nat -> (length s < f2)%nat ->
        parse_elements f1 acc s = parse_elements f2 acc s)
  /\ (forall f2 acc s,
        (length s < f1)%nat -> (length s < f2)%nat ->
        parse_members f1 acc s = parse_members f2 acc s).
Proof.
  induction f1 as [|f1 (IHv & IHe & IHm)]; [repeat split; intros; lia|].
  split; [|split].
  - intros [|f2] s H1 H2; [lia|]. cbn [parse_value].
    pose proof (skip_ws_length s) as Hs.
    destruct (starts_with 34 (skip_ws s)); [reflexivity|].
    destruct (starts_with 91 (skip_ws s)) as [t|] eqn:E2.
    { apply starts_with_length in E2.
      destruct (starts_with 93 (skip_ws t)); [reflexivity|].
      rewrite (IHv f2 t) by lia.
      destruct (parse_value f2 t) as [[v1 t1]|] eqn:Ev; [|reflexivity].
      apply (proj1 (parse_rest_length f2)) in Ev.
      apply IHe; lia. }
    destruct (starts_with 123 (skip_ws s)) as [t|] eqn:E4; [|reflexivity].
    apply starts_with_length in E4.
    destruct (starts_with 125 (skip_ws t)); [reflexivity|].
    apply IHm; lia.
  - intros [|f2] acc s H1 H2; [lia|]. cbn [parse_elements].
    destruct (starts_with 93 (skip_ws s)); [reflexivity|].
    destruct (starts_with 44 (skip_ws s)) as [t|] eqn:E2; [|reflexivity].
    apply starts_with_skip_ws in E2.
    rewrite (IHv f2 t) by lia.
    destruct (parse_value f2 t) as [[v1 t1]|] eqn:Ev; [|reflexivity].
    apply (proj1 (parse_rest_length f2)) in Ev.
    apply IHe; lia.
  - intros [|f2] acc s H1 H2; [lia|]. cbn [parse_members].
    destruct (starts_with 34 (skip_ws s)) as [t|] eqn:E1; [|reflexivity].
    apply starts_with_skip_ws in E1.
    destruct (parse_chars [] t) as [[k t1]|] eqn:Ec; [|reflexivity].
    apply (parse_chars_length _ _ _ _ _ (le_n _)) in Ec.
    destruct (starts_with 58 (skip_ws t1)) as [t2|] eqn:E2; [|reflexivity].
    apply starts_with_skip_ws in E2.
    rewrite (IHv f2 t2) by lia.
    destruct (parse_value f2 t2) as [[v1 t3]|] eqn:Ev; [|reflexivity].
    apply (proj1 (parse_rest_length f2)) in Ev. cbv zeta.
    destruct (starts_with 125 (skip_ws t3)); [reflexivity|].
    destruct (starts_with 44 (skip_ws t3)) as [t4|] eqn:E4; [|reflexivity].
    apply starts_with_skip_ws in E4.
    apply IHm; lia.
Qed.

(** [Json.parse] never fails for lack of fuel: more fuel gives the same
    result. *)
Lemma parse_fuel_suffices (text : jsstring) (fuel : nat) :
  (length text < fuel)%nat ->
  parse_value fuel text = parse_value (S (length text)) text.
Proof.
  intros Hfuel. apply (proj1 (parse_fuel_stable fuel)); lia.
Qed.

Section Discovery.

Context {World : Type} `{Host World}.

(** ** The probe loop *)

Lemma probe_ports_step (pid token p : jsstring) (rest : list jsstring)
  (st : Sys World) :
  probe_ports pid token (p :: rest) st =
  let a := run_command (curl_command p token) probe_timeout (world st) in
  let st' :=
    {| world := snd a;
       log := log st ++ [Exec (curl_command p token) probe_timeout (fst a)] |}
  in
  if answers_200 (fst a)
  then (Normal (Some {| pid := pid; token := token; port := p |}), st')
  else probe_ports pid token rest st'.
Proof.
  cbn [probe_ports]. unfold bind, try_, execSync, log_effect.
  destruct (run_command (curl_command p token) probe_timeout (world st))
    as [[out|e] w]; cbn [fst snd world log answers_200]; [|reflexivity].
  destruct (jseqb (trim out) (js "200")); reflexivity.
Qed.

(** No probe makes the loop throw. *)
Lemma probe_ports_completes (pid token : jsstring) (ports : list jsstring) :
  forall st, exists r st', probe_ports pid token ports st = (Normal r, st').
Proof.
  induction ports as [|p rest IH]; intros st.
  - exists None, st. reflexivity.
  - rewrite probe_ports_step. cbv zeta.
    destruct (answers_200 _); [eauto | apply IH].
Qed.

(** The loop returns a port only after that port answered 200, as the
    last thing it did. *)
Lemma probe_ports_sound (pid token : jsstring) (ports : list jsstring) :
  forall st info st',
    probe_ports pid token ports st = (Normal (Some info), st') ->
    exists earlier out,
      log st' = log st ++ earlier
                ++ [Exec (curl_command (port info) token) probe_timeout
                      (Normal out)]
      /\ trim out = js "200"
      /\ In (port info) ports
      /\ MetricsClient.pid info = pid /\ MetricsClient.token info = token.
Proof.
  induction ports as [|p rest IH]; intros st info st' Hrun.
  - discriminate Hrun.
  - rewrite probe_ports_step in Hrun. cbv zeta in Hrun.
    destruct (run_command (curl_command p token) probe_timeout (world st))
      as [r w] eqn:Ha. cbn [fst snd] in Hrun.
    destruct (answers_200 r) eqn:H200.
    + injection Hrun as <- <-. destruct r as [out|e]; [|discriminate].
      exists [], out. cbn. apply jseqb_eq in H200. auto.
    + destruct (IH _ _ _ Hrun) as (earlier & out & Hlog & Hout & Hin & Hp & Ht).
      exists (Exec (curl_command p token) probe_timeout r :: earlier), out.
      cbn [log] in Hlog. rewrite Hlog, <- app_assoc. cbn. auto.
Qed.

(** The ports before the first one that answers 200 are probed in their
    order, then that one, and no other. *)
Lemma probe_ports_first (pid token p : jsstring) (post : list jsstring) :
  forall pre st,
    (forall q w, In q pre -> answers_200 (probe_answer w q token) = false) ->
    (forall w, answers_200 (probe_answer w p token) = true) ->
    exists probes st',
      probe_ports pid token (pre ++ p :: post) st
      = (Normal (Some {| pid := pid; token := token; port := p |}), st')
      /\ log st' = log st ++ probes
      /\ Forall2 (probed_by token) probes (pre ++ [p]).
Proof.
  induction pre as [|q pre IH]; intros st Hpre Hp.
  - cbn [app]. rewrite probe_ports_step. cbv zeta.
    specialize (Hp (world st)). unfold probe_answer in Hp. rewrite Hp.
    eexists [_], _. split; [reflexivity|]. split; [reflexivity|].
    constructor; [|constructor]. exists (world st). reflexivity.
  - cbn [app]. rewrite probe_ports_step. cbv zeta.
    pose proof (Hpre q (world st) (or_introl eq_refl)) as Hq.
    unfold probe_answer in Hq. rewrite Hq.
    edestruct IH as (probes & st' & Hrun & Hlog & Hcmds);
      [intros q' w Hin; apply Hpre; right; exact Hin | exact Hp |].
    rewrite Hrun. eexists (_ :: probes), st'.
    split; [reflexivity|]. split.
    + rewrite Hlog. cbn [log]. rewrite <- app_assoc. reflexivity.
    + constructor; [|exact Hcmds]. exists (world st). reflexivity.
Qed.

(** The probes are [execSync] calls of the probe commands. *)
Lemma probed_commands (token : jsstring) (probes : list Effect)
  (ports : list jsstring) :
  Forall2 (probed_by token) probes ports ->
  map command_of probes = map (fun q => Some (curl_command q token)) ports.
Proof.
  induction 1 as [|e q probes ports [w ->] _ IH]; [reflexivity|].
  cbn [map command_of]. rewrite IH. reflexivity.
Qed.

(** The loop returns nothing when no port answers 200. *)
Lemma probe_ports_none (pid token : jsstring) :
  forall ports st,
    (forall q w, In q ports -> answers_200 (probe_answer w q token) = false) ->
    exists st', probe_ports pid token ports st = (Normal None, st').
Proof.
  induction ports as [|q ports IH]; intros st Hall.
  - exists st. reflexivity.
  - rewrite probe_ports_step. cbv zeta.
    pose proof (Hall q (world st) (or_introl eq_refl)) as Hq.
    unfold probe_answer in Hq. rewrite Hq.
    apply IH. intros q' w Hin. apply Hall. right. exact Hin.
Qed.

(** ** [discoverServer] *)

Lemma discoverServer_found (st st1 : Sys World) (pid token : jsstring)
  (ports : list jsstring) :
  list_candidates st = (Normal (Some (pid, token, ports)), st1) ->
  discoverServer_try st = probe_ports pid token ports st1.
Proof.
  intros Hc. unfold discoverServer_try, bind. rewrite Hc. reflexivity.
Qed.

Lemma discoverServer_inv (st st' : Sys World) (info : ServerInfo) :
  discoverServer st = (Some info, st') ->
  exists pid token ports st1,
    list_candidates st = (Normal (Some (pid, token, ports)), st1)
    /\ probe_ports pid token ports st1 = (Normal (Some info), st').
Proof.
  unfold discoverServer, discoverServer_try, bind.
  destruct (list_candidates st) as [[[[[pid token] ports]|]|e] st1];
    cbn; try discriminate.
  intros Hd. exists pid, token, ports, st1. split; [reflexivity|].
  destruct (probe_ports pid token ports st1) as [[r|e] st2];
    [|discriminate]. injection Hd as -> ->. reflexivity.
Qed.

(** C2: every endpoint that [discoverServer] returns has passed the probe:
    the last thing the discovery did was a probe POST to 127.0.0.1 on the
    returned port, with the returned token in the token header, and that
    probe answered 200; pid and token are the ones read from the process
    listing and the port is one of the listening ports. *)
Theorem returned_endpoint_was_probed (st st' : Sys World)
  (info : ServerInfo) :
  discoverServer st = (Some info, st') ->
  exists earlier out pid token ports st1,
    log st' = earlier
              ++ [Exec (curl_command (port info) (MetricsClient.token info))
                    probe_timeout (Normal out)]
    /\ trim out = js "200"
    /\ list_candidates st = (Normal (Some (pid, token, ports)), st1)
    /\ MetricsClient.pid info = pid
    /\ MetricsClient.token info = token
    /\ In (port info) ports.
Proof.
  intros Hd.
  destruct (discoverServer_inv _ _ _ Hd) as (pid & token & ports & st1 & Hc & Hp).
  destruct (probe_ports_sound _ _ _ _ _ _ Hp)
    as (earlier & out & Hlog & Hout & Hin & Hpid & Htok).
  exists (log st1 ++ earlier), out, pid, token, ports, st1.
  rewrite Htok, Hlog, <- app_assoc.
  repeat split; try assumption; reflexivity.
Qed.

(** C3: when exactly one of the candidate ports answers 200,
    [discoverServer] returns that port, however many candidates come
    before it; the probes are made in the order of the list, one per
    candidate up to the first occurrence of that port, and none after. *)
Theorem probes_in_order_until_first_200 (st st1 : Sys World)
  (pid token p : jsstring) (ports : list jsstring) :
  list_candidates st = (Normal (Some (pid, token, ports)), st1) ->
  In p ports ->
  (forall w, answers_200 (probe_answer w p token) = true) ->
  (forall q w, In q ports -> q <> p ->
     answers_200 (probe_answer w q token) = false) ->
  exists pre post probes st2,
    ports = pre ++ p :: post /\ ~ In p pre
    /\ discoverServer st
       = (Some {| pid := pid; token := token; port := p |}, st2)
    /\ log st2 = log st1 ++ probes
    /\ Forall2 (probed_by token) probes (pre ++ [p])
    /\ map command_of probes
       = map (fun q => Some (curl_command q token)) (pre ++ [p]).
Proof.
  intros Hc Hin Hp Hothers.
  destruct (first_occurrence p ports Hin) as (pre & post & -> & Hpre).
  destruct (probe_ports_first pid token p post pre st1)
    as (probes & st2 & Hrun & Hlog & Hcmds); [|exact Hp|].
  { intros q w Hq. apply Hothers.
    - apply in_or_app. left. exact Hq.
    - intros ->. exact (Hpre Hq). }
  exists pre, post, probes, st2.
  unfold discoverServer. rewrite (discoverServer_found _ _ _ _ _ Hc), Hrun.
  repeat split; try assumption; try reflexivity.
  apply probed_commands, Hcmds.
Qed.

(** C5: a probe that throws is caught inside the loop. When a candidate
    that is not the last one throws and a later candidate is the first to
    answer 200, the body of [discoverServer] completes normally with the
    later port, and so does [discoverServer]. *)
Theorem probe_error_is_swallowed (st st1 : Sys World)
  (pid token bad p : jsstring) (before between post : list jsstring) :
  list_candidates st
  = (Normal (Some (pid, token, before ++ bad :: between ++ p :: post)), st1) ->
  (forall w, exists e, probe_answer w bad token = Throw e) ->
  (forall q w, In q (before ++ between) ->
     answers_200 (probe_answer w q token) = false) ->
  (forall w, answers_200 (probe_answer w p token) = true) ->
  exists st2,
    discoverServer_try st
    = (Normal (Some {| pid := pid; token := token; port := p |}), st2)
    /\ discoverServer st
       = (Some {| pid := pid; token := token; port := p |}, st2)
    /\ exists e,
         In (Exec (curl_command bad token) probe_timeout (Throw e))
            (log st2).
Proof.
  intros Hc Hbad Hquiet Hp.
  assert (Hpre : forall q w, In q (before ++ bad :: between) ->
                   answers_200 (probe_answer w q token) = false).
  { intros q w Hq. apply in_app_or in Hq. destruct Hq as [Hq|[<-|Hq]].
    - apply Hquiet, in_or_app. left. exact Hq.
    - destruct (Hbad w) as [e ->]. reflexivity.
    - apply Hquiet, in_or_app. right. exact Hq. }
  destruct (probe_ports_first pid token p post (before ++ bad :: between) st1
              Hpre Hp) as (probes & st2 & Hrun & Hlog & Hprobes).
  rewrite <- app_assoc in Hrun. cbn [app] in Hrun.
  exists st2. unfold discoverServer.
  rewrite (discoverServer_found _ _ _ _ _ Hc), Hrun.
  split; [reflexivity|]. split; [reflexivity|].
  rewrite <- app_assoc in Hprobes. cbn [app] in Hprobes.
  apply Forall2_app_inv_r in Hprobes.
  destruct Hprobes as (l1 & l2 & _ & Hl2 & ->).
  inversion Hl2 as [|e0 q0 l2' ports' [w ->] _]; subst.
  destruct (Hbad w) as [e He]. exists e.
  rewrite Hlog, <- He. apply in_or_app. right.
  apply in_or_app. right. left. reflexivity.
Qed.

(** ** Failures of the discovery *)

Lemma fetchMetrics_not_found (st : Sys World) :
  fst (discoverServer st) = None ->
  fst (fetchMetrics st) = Rejected (Error not_found_message).
Proof.
  unfold fetchMetrics. destruct (discoverServer st) as [[info|] st'];
    [discriminate | reflexivity].
Qed.

Lemma process_listing_inv (w : World) (psOutput : jsstring) :
  process_listing w = Some psOutput ->
  exists out,
    fst (run_command ps_command ps_timeout w) = Normal out
    /\ is_empty (trim out) = false /\ psOutput = trim out.
Proof.
  unfold process_listing.
  destruct (fst (run_command ps_command ps_timeout w)) as [out|e];
    [|discriminate].
  destruct (is_empty (trim out)) eqn:E; [discriminate|].
  intros [= <-]. exists out. auto.
Qed.

Lemma no_process_found (st : Sys World) :
  process_listing (world st) = None -> fst (discoverServer st) = None.
Proof.
  unfold process_listing, discoverServer, discoverServer_try,
    list_candidates, bind, execSync, ret.
  destruct (run_command ps_command ps_timeout (world st)) as [[out|e] w];
    cbn [fst snd]; [|reflexivity].
  destruct (is_empty (trim out)); [reflexivity | discriminate].
Qed.

Lemma no_token_found (st : Sys World) (psOutput : jsstring) :
  process_listing (world st) = Some psOutput ->
  match_token (first_line psOutput) = None ->
  fst (discoverServer st) = None.
Proof.
  intros Hps Htok.
  destruct (process_listing_inv _ _ Hps) as (out & Hout & Hne & ->).
  unfold discoverServer, discoverServer_try, list_candidates, bind,
    execSync, ret.
  destruct (run_command ps_command ps_timeout (world st)) as [r w].
  cbn [fst snd] in Hout |- *. subst r. rewrite Hne, Htok.
  destruct (pid_field (first_line (trim out))) as [pid|]; [|reflexivity].
  destruct (is_empty pid || isNaN (parseInt pid)); reflexivity.
Qed.

Lemma no_ports_found (st : Sys World) (psOutput pid : jsstring) :
  process_listing (world st) = Some psOutput ->
  pid_field (first_line psOutput) = Some pid ->
  listening_ports (world st) pid = [] ->
  fst (discoverServer st) = None.
Proof.
  intros Hps Hpid Hports.
  destruct (process_listing_inv _ _ Hps) as (out & Hout & Hne & ->).
  unfold listening_ports in Hports.
  unfold discoverServer, discoverServer_try, list_candidates, bind,
    execSync, ret.
  destruct (run_command ps_command ps_timeout (world st)) as [r w].
  cbn [fst snd] in Hout, Hports |- *. subst r. rewrite Hne, Hpid.
  destruct (is_empty pid || isNaN (parseInt pid)); [reflexivity|].
  destruct (match_token (first_line (trim out))); [|reflexivity].
  unfold log_effect. cbn [world log].
  destruct (run_command (lsof_command pid) lsof_timeout w) as [[out2|e] w2];
    cbn [fst snd] in Hports |- *; [|reflexivity].
  rewrite Hports.
  destruct (is_empty (trim out2)); reflexivity.
Qed.

Lemma no_answer_found (st st1 : Sys World) (pid token : jsstring)
  (ports : list jsstring) :
  list_candidates st = (Normal (Some (pid, token, ports)), st1) ->
  (forall q w, In q ports -> answers_200 (probe_answer w q token) = false) ->
  fst (discoverServer st) = None.
Proof.
  intros Hc Hall. unfold discoverServer.
  rewrite (discoverServer_found _ _ _ _ _ Hc).
  destruct (probe_ports_none pid token ports st1 Hall) as [st' ->].
  reflexivity.
Qed.

(** C4: when no process matches the signature, or the matched process has
    no token to extract, or it has no listening port on the loopback
    address, or no candidate port answers 200, [discoverServer] returns
    [null], also where the process listing, the port listing or a probe
    throws, and [fetchMetrics] fails with the one error of a server that
    was not found. *)
Theorem unlocatable_is_not_found (st : Sys World) :
  Unlocatable st ->
  fst (discoverServer st) = None
  /\ fst (fetchMetrics st) = Rejected (Error not_found_message).
Proof.
  intros Hun.
  assert (Hnone : fst (discoverServer st) = None).
  { destruct Hun as [Hps | psOutput Hps Htok | psOutput pid Hps Hpid Hports
                    | pid token ports st1 Hc Hall].
    - exact (no_process_found _ Hps).
    - exact (no_token_found _ _ Hps Htok).
    - exact (no_ports_found _ _ _ Hps Hpid Hports).
    - exact (no_answer_found _ _ _ _ _ Hc Hall). }
  split; [exact Hnone | exact (fetchMetrics_not_found _ Hnone)].
Qed.

End Discovery.

(** ** The loop of the shell script *)

Section ScriptLoop.

Context {World : Type} `{Curl World}.

(** The script takes the first port whose response is 200, like
    [discoverServer]. *)
Lemma port_loop_first_200 (TOKEN p : jsstring) (post : list jsstring) :
  forall pre w,
    (forall q w', In q pre -> fst (http_code q TOKEN w') <> js "200") ->
    (forall w', fst (http_code p TOKEN w') = js "200") ->
    fst (port_loop TOKEN (pre ++ p :: post) [] w) = p.
Proof.
  induction pre as [|q pre IH]; intros w Hpre Hp; cbn [app port_loop].
  - specialize (Hp w). destruct (http_code p TOKEN w) as [r w'].
    cbn [fst] in Hp. rewrite Hp. reflexivity.
  - pose proof (Hpre q w (or_introl eq_refl)) as Hq.
    destruct (http_code q TOKEN w) as [r w']. cbn [fst] in Hq.
    destruct (jseqb r (js "200")) eqn:E;
      [apply jseqb_eq in E; contradiction|].
    apply IH; [|exact Hp]. intros q' w'' Hin. apply Hpre. right. exact Hin.
Qed.

End ScriptLoop.

Section Fetch.

Context {World : Type} `{Host World}.

(** ** The handlers of the request *)

Lemma settle_settled (p new : PromiseState) :
  p <> Pending -> settle p new = p.
Proof. destruct p; [congruence | reflexivity | reflexivity]. Qed.

Lemma handle_settled (ev : HttpEvent) (r : Pending_request)
  (st : Sys World) :
  promise r <> Pending -> promise (fst (handle (r, st) ev)) = promise r.
Proof.
  intros Hp. destruct ev; cbn [handle].
  - destruct (data r); reflexivity.
  - destruct (data r); reflexivity.
  - destruct (data r) as [d|]; [|reflexivity].
    destruct (Json.parse d); cbn; apply settle_settled, Hp.
  - cbn. apply settle_settled, Hp.
  - cbn. apply settle_settled, Hp.
Qed.

(** A settled promise stays as it is, whatever events follow. *)
Lemma handlers_settled (events : list HttpEvent) :
  forall r (st : Sys World),
    promise r <> Pending ->
    promise (fst (fold_left handle events (r, st))) = promise r.
Proof.
  induction events as [|ev events IH]; intros r st Hp; [reflexivity|].
  cbn [fold_left]. destruct (handle (r, st) ev) as [r' st'] eqn:E.
  assert (Hr' : promise r' = promise r).
  { change r' with (fst (r', st')). rewrite <- E. apply handle_settled, Hp. }
  rewrite IH; [exact Hr' | rewrite Hr'; exact Hp].
Qed.

(** The handlers only add to the log. *)
Lemma handlers_log (events : list HttpEvent) :
  forall r (st : Sys World),
    exists more, log (snd (fold_left handle events (r, st))) = log st ++ more.
Proof.
  induction events as [|ev events IH]; intros r st.
  - exists []. cbn. rewrite app_nil_r. reflexivity.
  - cbn [fold_left]. destruct (handle (r, st) ev) as [r' st'] eqn:E.
    destruct (IH r' st') as [more Hmore]. rewrite Hmore.
    assert (Hst' : exists l, log st' = log st ++ l).
    { destruct ev; cbn [handle] in E;
        repeat match type of E with
               | context [match ?x with _ => _ end] => destruct x
               end;
        injection E as <- <-;
        first [ exists []; rewrite app_nil_r; reflexivity
              | exists [Destroy]; reflexivity ]. }
    destruct Hst' as [l ->]. exists (l ++ more). apply eq_sym, app_assoc.
Qed.

(** The chunks of the body are appended to [data] in their order. *)
Lemma handlers_data (chunks : list jsstring) :
  forall d p (st : Sys World),
    fold_left handle (map EvData chunks) ({| data := Some d; promise := p |}, st)
    = ({| data := Some (d ++ concat chunks); promise := p |}, st).
Proof.
  induction chunks as [|c chunks IH]; intros d p st; cbn.
  - rewrite app_nil_r. reflexivity.
  - rewrite IH, <- app_assoc. reflexivity.
Qed.

(** Events that do not settle leave the promise pending and the log as
    it is. *)
Lemma handlers_quiet (events : list HttpEvent) :
  forall d (st : Sys World),
    forallb quiet events = true ->
    exists d',
      fold_left handle events ({| data := d; promise := Pending |}, st)
      = ({| data := d'; promise := Pending |}, st).
Proof.
  induction events as [|ev events IH]; intros d st Hq.
  - exists d. reflexivity.
  - cbn [forallb] in Hq. apply andb_true_iff in Hq. destruct Hq as [Hev Hq].
    destruct ev; try discriminate Hev; cbn [fold_left handle data promise];
      destruct d as [d|]; apply IH, Hq.
Qed.

(** A response that ends settles the promise by its body. *)
Lemma response_settles (status : Z) (chunks : list jsstring)
  (rest : list HttpEvent) (st : Sys World) :
  promise (fst (fold_left handle
                  (EvResponse status :: map EvData chunks ++ EvEnd :: rest)
                  (new_request, st)))
  = body_outcome (concat chunks).
Proof.
  cbn [fold_left handle new_request data promise].
  rewrite fold_left_app, handlers_data. cbn [app fold_left handle data].
  unfold body_outcome.
  destruct (Json.parse (concat chunks)); cbn [reject_with];
    rewrite handlers_settled; cbn; congruence.
Qed.

(** What [fetchMetrics] does once the server is found. *)
Lemma fetchMetrics_found (st st1 : Sys World) (info : ServerInfo) :
  discoverServer st = (Some info, st1) ->
  fetchMetrics st =
  let run := metrics_answer (world st1) info in
  let st2 :=
    {| world :=
         snd (run_request (request_options info) postData fetch_timeout
                (world st1));
       log := log st1
              ++ [Request (request_options info) postData fetch_timeout run]
    |} in
  match run with
  | Throw e => (Rejected e, st2)
  | Normal events =>
      (promise (fst (fold_left handle events (new_request, st2))),
       snd (fold_left handle events (new_request, st2)))
  end.
Proof.
  intros Hd. unfold fetchMetrics, metrics_answer, log_effect. rewrite Hd.
  destruct (run_request (request_options info) postData fetch_timeout
              (world st1)) as [[events|e] w]; cbn [fst snd world log];
    [|reflexivity].
  destruct (fold_left handle events _); reflexivity.
Qed.

(** An error of the socket before the request has settled rejects the
    promise with the cause in the message. *)
Lemma socket_error_rejects (st st1 : Sys World) (info : ServerInfo)
  (before rest : list HttpEvent) (cause : JSError) :
  discoverServer st = (Some info, st1) ->
  metrics_answer (world st1) info = Normal (before ++ EvError cause :: rest) ->
  forallb quiet before = true ->
  fst (fetchMetrics st)
  = Rejected (Error (fetch_failure_prefix ++ message cause)).
Proof.
  intros Hd Hrun Hq. rewrite (fetchMetrics_found _ _ _ Hd). cbv zeta.
  rewrite Hrun. cbn [fst]. rewrite fold_left_app.
  match goal with
  | |- context [fold_left handle before (new_request, ?s)] =>
      destruct (handlers_quiet before None s Hq) as [d' Hbefore]
  end.
  unfold new_request. rewrite Hbefore.
  cbn [fold_left handle reject_with promise data settle].
  rewrite handlers_settled; [reflexivity | discriminate].
Qed.

(** C1, as the code has it: the status of the response is not inspected.
    A response with a status other than 200 settles the promise by its
    body like any other: fulfilled with the parsed body when the body is
    JSON, rejected with the parse failure when it is not. *)
Theorem status_is_not_inspected (st st1 : Sys World) (info : ServerInfo)
  (status : Z) (chunks : list jsstring) (rest : list HttpEvent) :
  discoverServer st = (Some info, st1) ->
  metrics_answer (world st1) info
  = Normal (EvResponse status :: map EvData chunks ++ EvEnd :: rest) ->
  status <> 200 ->
  fst (fetchMetrics st)
  = match Json.parse (concat chunks) with
    | Some parsed => Fulfilled parsed
    | None => Rejected (Error parse_failure_message)
    end.
Proof.
  intros Hd Hrun _. rewrite (fetchMetrics_found _ _ _ Hd). cbv zeta.
  rewrite Hrun. cbn [fst]. apply response_settles.
Qed.

(** C6, as the code has it: a 200 response whose body is not JSON fails
    with the parse failure; a body that is JSON, of whatever shape, is
    returned as parsed, unchanged. *)
Theorem body_is_parsed_not_validated (st st1 : Sys World)
  (info : ServerInfo) (chunks : list jsstring) (rest : list HttpEvent) :
  discoverServer st = (Some info, st1) ->
  metrics_answer (world st1) info
  = Normal (EvResponse 200 :: map EvData chunks ++ EvEnd :: rest) ->
  (Json.parse (concat chunks) = None ->
   fst (fetchMetrics st) = Rejected (Error parse_failure_message))
  /\ (forall parsed, Json.parse (concat chunks) = Some parsed ->
      fst (fetchMetrics st) = Fulfilled parsed).
Proof.
  intros Hd Hrun. rewrite (fetchMetrics_found _ _ _ Hd). cbv zeta.
  rewrite Hrun. cbn [fst]. rewrite response_settles. unfold body_outcome.
  split; [intros -> | intros parsed ->]; reflexivity.
Qed.

(** C7, as the code has it: the timeout of the request is an event of
    the socket. When it comes before the request has settled, the handler
    destroys the request and the promise is rejected with the message of
    a timeout. The request was made with a timeout of 10 seconds, longer
    than the 3 seconds of a probe. *)
Theorem timeout_destroys_and_rejects (st st1 : Sys World)
  (info : ServerInfo) (before rest : list HttpEvent) :
  discoverServer st = (Some info, st1) ->
  metrics_answer (world st1) info = Normal (before ++ EvTimeout :: rest) ->
  forallb quiet before = true ->
  fst (fetchMetrics st) = Rejected (Error timeout_message)
  /\ (exists more,
        log (snd (fetchMetrics st))
        = log st1
          ++ [Request (request_options info) postData fetch_timeout
                (Normal (before ++ EvTimeout :: rest));
              Destroy]
          ++ more)
  /\ fetch_timeout = 10000
  /\ probe_timeout < fetch_timeout.
Proof.
  intros Hd Hrun Hq. rewrite (fetchMetrics_found _ _ _ Hd). cbv zeta.
  rewrite Hrun. cbn [fst snd]. rewrite fold_left_app.
  match goal with
  | |- context [fold_left handle before (new_request, ?s)] =>
      destruct (handlers_quiet before None s Hq) as [d' Hbefore]
  end.
  unfold new_request. rewrite Hbefore.
  cbn [fold_left handle reject_with promise data settle].
  split; [|split; [|split; [reflexivity | reflexivity]]].
  - rewrite handlers_settled; [reflexivity | discriminate].
  - match goal with
    | |- context [fold_left handle rest (?r, ?s)] =>
        destruct (handlers_log rest r s) as [more Hmore]
    end.
    exists more. rewrite Hmore. unfold log_effect. cbn [log].
    rewrite <- !app_assoc. reflexivity.
Qed.

(** ** Every call starts with a discovery *)

Lemma probe_ports_log (pid token : jsstring) (ports : list jsstring) :
  forall st,
    exists more, log (snd (probe_ports pid token ports st)) = log st ++ more.
Proof.
  induction ports as [|p rest IH]; intros st.
  - exists []. cbn. rewrite app_nil_r. reflexivity.
  - rewrite probe_ports_step. cbv zeta.
    destruct (answers_200 _).
    + eexists. reflexivity.
    + match goal with
      | |- context [probe_ports pid token rest ?s] =>
          destruct (IH s) as [more ->]
      end.
      eexists. cbn [log]. rewrite <- app_assoc. reflexivity.
Qed.

(** The first thing [list_candidates] does is to ask for the process
    listing. *)
Lemma list_candidates_log (st : Sys World) :
  exists more,
    log (snd (list_candidates st))
    = log st
      ++ Exec ps_command ps_timeout
           (fst (run_command ps_command ps_timeout (world st)))
      :: more.
Proof.
  unfold list_candidates, bind, execSync, ret, log_effect.
  destruct (run_command ps_command ps_timeout (world st)) as [[out|e] w];
    cbn [fst snd world log]; [|exists []; reflexivity].
  destruct (is_empty (trim out)); [exists []; reflexivity|].
  destruct (pid_field (first_line (trim out))) as [pid|];
    [|exists []; reflexivity].
  destruct (is_empty pid || isNaN (parseInt pid)); [exists []; reflexivity|].
  destruct (match_token (first_line (trim out))) as [token|];
    [|exists []; reflexivity].
  cbn [world log].
  destruct (run_command (lsof_command pid) lsof_timeout w) as [[out2|e] w2];
    cbn [fst snd world log].
  - destruct (is_empty (trim out2));
      [|destruct (length (extract_ports (split_on LF (trim out2))) =? 0)%nat];
      eexists; cbn [snd log]; rewrite <- app_assoc; reflexivity.
  - eexists. rewrite <- app_assoc. reflexivity.
Qed.

Lemma discoverServer_log (st : Sys World) :
  exists more,
    log (snd (discoverServer st))
    = log st
      ++ Exec ps_command ps_timeout
           (fst (run_command ps_command ps_timeout (world st)))
      :: more.
Proof.
  destruct (list_candidates_log st) as [l Hl].
  unfold discoverServer, discoverServer_try, bind.
  destruct (list_candidates st) as [[[[[pid token] ports]|]|e] st1];
    cbn [snd] in Hl; cbn [ret]; try (exists l; exact Hl).
  destruct (probe_ports_log pid token ports st1) as [more Hmore].
  destruct (probe_ports pid token ports st1) as [[r|e] st2];
    cbn [snd] in Hmore |- *; rewrite Hmore, Hl, <- app_assoc;
    eexists; reflexivity.
Qed.

Lemma fetchMetrics_log (st : Sys World) :
  exists more,
    log (snd (fetchMetrics st))
    = log st
      ++ Exec ps_command ps_timeout
           (fst (run_command ps_command ps_timeout (world st)))
      :: more.
Proof.
  destruct (discoverServer_log st) as [l Hl].
  destruct (discoverServer st) as [[info|] st1] eqn:Hd; cbn [snd] in Hl.
  - rewrite (fetchMetrics_found _ _ _ Hd). cbv zeta.
    destruct (metrics_answer (world st1) info) as [events|e]; cbn [snd].
    + match goal with
      | |- context [fold_left handle events (?r, ?s)] =>
          destruct (handlers_log events r s) as [more ->]
      end.
      cbn [log]. rewrite Hl, <- !app_assoc. eexists. reflexivity.
    + cbn [log]. rewrite Hl, <- app_assoc. eexists. reflexivity.
  - unfold fetchMetrics. rewrite Hd. cbn [snd]. exists l. exact Hl.
Qed.

(** ** Every call runs the whole discovery *)

Lemma is_empty_nil (s : jsstring) : is_empty s = true -> s = [].
Proof. destruct s; [reflexivity | discriminate]. Qed.

(** With a process listed and its ports listed, [list_candidates] runs
    the two listings and returns what it read from them. *)
Lemma list_candidates_listed (psOut lsofOut pid token : jsstring)
  (ports : list jsstring) (st : Sys World) :
  (forall w, fst (run_command ps_command ps_timeout w) = Normal psOut) ->
  pid_field (first_line (trim psOut)) = Some pid ->
  isNaN (parseInt pid) = false ->
  match_token (first_line (trim psOut)) = Some token ->
  (forall w,
     fst (run_command (lsof_command pid) lsof_timeout w) = Normal lsofOut) ->
  extract_ports (split_on LF (trim lsofOut)) = ports ->
  ports <> [] ->
  exists st1,
    list_candidates st = (Normal (Some (pid, token, ports)), st1)
    /\ log st1
       = log st
         ++ [Exec ps_command ps_timeout (Normal psOut);
             Exec (lsof_command pid) lsof_timeout (Normal lsofOut)].
Proof.
  intros Hps Hpid Hnum Htok Hlsof Hports Hsome.
  assert (Hne : is_empty (trim psOut) = false).
  { destruct (is_empty (trim psOut)) eqn:E; [|reflexivity].
    apply is_empty_nil in E. rewrite E in Hpid. discriminate Hpid. }
  assert (Hpidne : is_empty pid = false).
  { destruct (is_empty pid) eqn:E; [|reflexivity].
    apply is_empty_nil in E. rewrite E in Hnum. discriminate Hnum. }
  assert (Hne2 : is_empty (trim lsofOut) = false).
  { destruct (is_empty (trim lsofOut)) eqn:E; [|reflexivity].
    apply is_empty_nil in E. rewrite E in Hports.
    contradiction Hsome. rewrite <- Hports. reflexivity. }
  assert (Hlen : (length ports =? 0)%nat = false).
  { destruct ports; [contradiction Hsome; reflexivity | reflexivity]. }
  unfold list_candidates, bind, execSync, ret, log_effect.
  pose proof (Hps (world st)) as E1.
  destruct (run_command ps_command ps_timeout (world st)) as [r w].
  cbn [fst snd world log] in E1 |- *. subst r.
  rewrite Hne, Hpid, Hpidne, Hnum, Htok. cbn [orb world log].
  pose proof (Hlsof w) as E2.
  destruct (run_command (lsof_command pid) lsof_timeout w) as [r2 w2].
  cbn [fst snd world log] in E2 |- *. subst r2.
  rewrite Hne2, Hports, Hlen.
  eexists. split; [reflexivity|]. cbn [log]. rewrite <- app_assoc.
  reflexivity.
Qed.

(** Then, with one port that answers 200 after ports that do not, a
    call of [fetchMetrics] runs the two listings, probes the ports up to
    that one and sends its request there. *)
Lemma fetchMetrics_discovers (psOut lsofOut pid token p : jsstring)
  (pre post : list jsstring) (st : Sys World) :
  (forall w, fst (run_command ps_command ps_timeout w) = Normal psOut) ->
  pid_field (first_line (trim psOut)) = Some pid ->
  isNaN (parseInt pid) = false ->
  match_token (first_line (trim psOut)) = Some token ->
  (forall w,
     fst (run_command (lsof_command pid) lsof_timeout w) = Normal lsofOut) ->
  extract_ports (split_on LF (trim lsofOut)) = pre ++ p :: post ->
  (forall q w, In q pre -> answers_200 (probe_answer w q token) = false) ->
  (forall w, answers_200 (probe_answer w p token) = true) ->
  exists probes run more,
    log (snd (fetchMetrics st))
    = log st
      ++ Exec ps_command ps_timeout (Normal psOut)
      :: Exec (lsof_command pid) lsof_timeout (Normal lsofOut)
      :: probes
      ++ Request (request_options {| pid := pid; token := token; port := p |})
           postData fetch_timeout run
      :: more
    /\ Forall2 (probed_by token) probes (pre ++ [p]).
Proof.
  intros Hps Hpid Hnum Htok Hlsof Hports Hpre Hp.
  destruct (list_candidates_listed psOut lsofOut pid token (pre ++ p :: post)
              st Hps Hpid Hnum Htok Hlsof Hports)
    as (st1 & Hc & Hlog1); [apply not_eq_sym, app_cons_not_nil|].
  destruct (probe_ports_first pid token p post pre st1 Hpre Hp)
    as (probes & st2 & Hrun & Hlog2 & Hprobes).
  assert (Hd : discoverServer st
               = (Some {| pid := pid; token := token; port := p |}, st2)).
  { unfold discoverServer.
    rewrite (discoverServer_found _ _ _ _ _ Hc), Hrun. reflexivity. }
  rewrite (fetchMetrics_found _ _ _ Hd). cbv zeta.
  exists probes.
  destruct (metrics_answer (world st2) _) as [events|e] eqn:Hanswer;
    cbn [snd].
  - match goal with
    | |- context [fold_left handle events (?r, ?s)] =>
        destruct (handlers_log events r s) as [more Hmore]
    end.
    exists (Normal events), more. split; [|exact Hprobes].
    rewrite Hmore. cbn [log]. rewrite Hlog2, Hlog1, <- !app_assoc.
    reflexivity.
  - exists (Throw e), []. split; [|exact Hprobes].
    cbn [log]. rewrite Hlog2, Hlog1, <- !app_assoc. reflexivity.
Qed.

(** C8: nothing that a call of [fetchMetrics] discovers is kept for the
    next one. On a host where the process is listed, its ports are listed
    and one of them answers 200 after ports that do not, each of two
    calls in a row runs the whole discovery: the process listing, the
    port listing of the process read from it, a probe of every port up to
    the first that answers 200, with the token read from the listing;
    only then it sends its request, to that port. The second call adds
    all of this to the log once more. *)
Theorem every_fetch_rediscovers (psOut lsofOut pid token p : jsstring)
  (pre post : list jsstring) (st : Sys World) :
  (forall w, fst (run_command ps_command ps_timeout w) = Normal psOut) ->
  pid_field (first_line (trim psOut)) = Some pid ->
  isNaN (parseInt pid) = false ->
  match_token (first_line (trim psOut)) = Some token ->
  (forall w,
     fst (run_command (lsof_command pid) lsof_timeout w) = Normal lsofOut) ->
  extract_ports (split_on LF (trim lsofOut)) = pre ++ p :: post ->
  (forall q w, In q pre -> answers_200 (probe_answer w q token) = false) ->
  (forall w, answers_200 (probe_answer w p token) = true) ->
  let discovery probes :=
    Exec ps_command ps_timeout (Normal psOut)
    :: Exec (lsof_command pid) lsof_timeout (Normal lsofOut)
    :: probes in
  let request run :=
    Request (request_options {| pid := pid; token := token; port := p |})
      postData fetch_timeout run in
  let s1 := snd (fetchMetrics st) in
  let s2 := snd (fetchMetrics s1) in
  exists probes1 run1 more1 probes2 run2 more2,
    log s1 = log st ++ discovery probes1 ++ request run1 :: more1
    /\ Forall2 (probed_by token) probes1 (pre ++ [p])
    /\ log s2 = log s1 ++ discovery probes2 ++ request run2 :: more2
    /\ Forall2 (probed_by token) probes2 (pre ++ [p]).
Proof.
  intros Hps Hpid Hnum Htok Hlsof Hports Hpre Hp discovery request s1 s2.
  destruct (fetchMetrics_discovers psOut lsofOut pid token p pre post st
              Hps Hpid Hnum Htok Hlsof Hports Hpre Hp)
    as (probes1 & run1 & more1 & Hlog1 & Hprobes1).
  destruct (fetchMetrics_discovers psOut lsofOut pid token p pre post s1
              Hps Hpid Hnum Htok Hlsof Hports Hpre Hp)
    as (probes2 & run2 & more2 & Hlog2 & Hprobes2).
  exists probes1, run1, more1, probes2, run2, more2.
  subst discovery request s2. cbn [app].
  split; [exact Hlog1|]. split; [exact Hprobes1|].
  split; [exact Hlog2 | exact Hprobes2].
Qed.

End Fetch.

Section Refresh.

Context {World : Type} `{Host World} `{Views}.

(** ** The cache of the caller *)




End Refresh.

(** ** [formatResetTime] *)

(** C10: for a reset time that is not a valid date, [formatResetTime]
    returns the text NaNm: the difference of the times is [NaN], no
    comparison with it holds, and the branch of the minutes is taken. *)
Theorem invalid_date_formats_as_NaNm (Date_parse : jsstring -> number)
  (now : Z) (resetTime : jsstring) :
  Date_parse resetTime = NaN ->
  formatResetTime Date_parse now resetTime = js "NaNm".
Proof.
  intros Hinvalid. unfold formatResetTime. rewrite Hinvalid. reflexivity.
Qed.

(** * Runs on the scripted host *)

Lemma invalid_date_formats_as_NaNm_witness :
  one_date (js "soon") = NaN
  /\ formatResetTime one_date midday (js "soon") = js "NaNm".
Proof.
  split; [reflexivity|].
  apply (invalid_date_formats_as_NaNm one_date midday (js "soon")).
  reflexivity.
Defined.

Lemma returned_endpoint_was_probed_witness :
  let H := steady_host (answering 200 ann_body) in
  exists earlier out,
    log (snd (discoverServer (boot tt)))
    = earlier
      ++ [Exec (curl_command (js "5003") the_token) probe_timeout (Normal out)]
    /\ trim out = js "200".
Proof.
  intros H.
  destruct (returned_endpoint_was_probed (boot tt)
              (snd (discoverServer (boot tt))) endpoint)
    as (earlier & out & _ & _ & _ & _ & Hlog & Hout & _).
  - vm_compute. reflexivity.
  - exists earlier, out. split; [exact Hlog | exact Hout].
Defined.

Lemma probes_in_order_until_first_200_witness :
  let H := steady_host (answering 200 ann_body) in
  exists st2,
    discoverServer (boot tt) = (Some endpoint, st2)
    /\ map command_of (log st2)
       = map Some [ ps_command; lsof_command (js "4242");
                    curl_command (js "5001") the_token;
                    curl_command (js "5002") the_token;
                    curl_command (js "5003") the_token ].
Proof.
  intros H.
  destruct (probes_in_order_until_first_200 (boot tt)
              (snd (list_candidates (boot tt)))
              (js "4242") the_token (js "5003")
              [js "5001"; js "5002"; js "5003"])
    as (pre & post & probes & st2 & _ & _ & Hd & _).
  - vm_compute. reflexivity.
  - vm_compute. tauto.
  - intros []. vm_compute. reflexivity.
  - intros q [] Hin Hne.
    destruct Hin as [<-|[<-|[<-|[]]]];
      [vm_compute; reflexivity | vm_compute; reflexivity
      | contradiction Hne; reflexivity].
  - exists st2. split; [exact Hd|].
    replace st2 with (snd (discoverServer (boot tt))) by (rewrite Hd; reflexivity).
    vm_compute. reflexivity.
Defined.

Lemma probe_error_is_swallowed_witness :
  let H := steady_host (answering 200 ann_body) in
  exists st2,
    discoverServer_try (boot tt) = (Normal (Some endpoint), st2)
    /\ In (Exec (curl_command (js "5001") the_token) probe_timeout
             (Throw command_failed))
          (log st2).
Proof.
  intros H.
  destruct (probe_error_is_swallowed (boot tt)
              (snd (list_candidates (boot tt)))
              (js "4242") the_token (js "5001") (js "5003")
              [] [js "5002"] [])
    as (st2 & Htry & _ & e & Hin).
  - vm_compute. reflexivity.
  - intros []. exists command_failed. vm_compute. reflexivity.
  - intros q [] Hin. destruct Hin as [<-|[]]. vm_compute. reflexivity.
  - intros []. vm_compute. reflexivity.
  - exists st2. split; [exact Htry|].
    replace st2 with (snd (discoverServer_try (boot tt)))
      by (rewrite Htry; reflexivity).
    vm_compute. tauto.
Defined.

Lemma unlocatable_is_not_found_witness :
  (let H := steady_host ide_closed in
   fst (fetchMetrics (boot tt)) = Rejected (Error not_found_message))
  /\ (let H := steady_host token_missing in
      fst (fetchMetrics (boot tt)) = Rejected (Error not_found_message))
  /\ (let H := steady_host not_listening in
      fst (fetchMetrics (boot tt)) = Rejected (Error not_found_message))
  /\ (let H := steady_host no_port_yet in
      fst (fetchMetrics (boot tt)) = Rejected (Error not_found_message)).
Proof.
  split; [|split; [|split]]; intros H.
  - apply (unlocatable_is_not_found (boot tt)).
    apply no_process. vm_compute. reflexivity.
  - apply (unlocatable_is_not_found (boot tt)).
    apply (no_token (boot tt) other_flag_line).
    + vm_compute. reflexivity.
    + vm_compute. reflexivity.
  - apply (unlocatable_is_not_found (boot tt)).
    apply (no_ports (boot tt) ps_line (js "4242")).
    + vm_compute. reflexivity.
    + vm_compute. reflexivity.
    + vm_compute. reflexivity.
  - apply (unlocatable_is_not_found (boot tt)).
    apply (no_answer (boot tt) (js "4242") the_token
             [js "5001"; js "5002"; js "5003"]
             (snd (list_candidates (boot tt)))).
    + vm_compute. reflexivity.
    + intros q [] Hin.
      destruct Hin as [<-|[<-|[<-|[]]]]; vm_compute; reflexivity.
Defined.

(** C1 fails on the code: the metrics call is answered with the status
    500 and a JSON body, and the promise of [fetchMetrics] is fulfilled
    with that body, not rejected. *)
Lemma status_500_is_fulfilled :
  let H := steady_host (answering 500 unavailable_body) in
  metrics_answer tt endpoint
  = Normal [EvResponse 500; EvData (concat unavailable_body); EvEnd]
  /\ 500 <> 200
  /\ fst (fetchMetrics (boot tt))
     = Fulfilled (JObject [(js "code", JString (js "unavailable"))]).
Proof.
  intros H. split; [|split].
  - vm_compute. reflexivity.
  - discriminate.
  - vm_compute. reflexivity.
Defined.

Lemma status_is_not_inspected_witness :
  let H := steady_host (answering 503 [js "Service "; js "Unavailable"]) in
  fst (fetchMetrics (boot tt)) = Rejected (Error parse_failure_message).
Proof.
  intros H.
  apply (status_is_not_inspected (boot tt) (snd (discoverServer (boot tt)))
           endpoint 503 [js "Service "; js "Unavailable"] []).
  - vm_compute. reflexivity.
  - vm_compute. reflexivity.
  - discriminate.
Defined.

(** C6 fails on the code: the body of a 200 response is JSON but lacks
    most of what [MetricsResponse] declares, and the promise of
    [fetchMetrics] is fulfilled with it, not rejected. *)
Lemma partial_body_is_fulfilled :
  let H := steady_host (answering 200 ann_body) in
  Json.parse (concat ann_body) = Some ann
  /\ is_MetricsResponse ann = false
  /\ fst (fetchMetrics (boot tt)) = Fulfilled ann.
Proof.
  intros H. split; [|split]; vm_compute; reflexivity.
Defined.

Lemma body_is_parsed_not_validated_witness :
  (let H := steady_host (answering 200 [js "not-json"]) in
   fst (fetchMetrics (boot tt)) = Rejected (Error parse_failure_message))
  /\ (let H := steady_host (answering 200 [js "4"; js "2"]) in
      fst (fetchMetrics (boot tt)) = Fulfilled (JNumber 42 0)).
Proof.
  split; intros H.
  - apply (body_is_parsed_not_validated (boot tt)
             (snd (discoverServer (boot tt))) endpoint [js "not-json"] []).
    + vm_compute. reflexivity.
    + vm_compute. reflexivity.
    + vm_compute. reflexivity.
  - apply (body_is_parsed_not_validated (boot tt)
             (snd (discoverServer (boot tt))) endpoint [js "4"; js "2"] []).
    + vm_compute. reflexivity.
    + vm_compute. reflexivity.
    + vm_compute. reflexivity.
Defined.

(** C7 fails on the code: the connection is closed after the first chunk
    of the response. The call never completes, and no end, no error and
    no timeout of the request follows, for which alone [fetchMetrics] has
    handlers: nothing is destroyed and the promise is not rejected, it
    stays pending. *)
Lemma cut_off_response_stays_pending :
  let H := steady_host hanging in
  metrics_answer tt endpoint = Normal [EvResponse 200; EvData (js "{")]
  /\ fst (fetchMetrics (boot tt)) = Pending
  /\ ~ In Destroy (log (snd (fetchMetrics (boot tt)))).
Proof.
  intros H. split; [|split].
  - vm_compute. reflexivity.
  - vm_compute. reflexivity.
  - vm_compute. intros Hin.
    repeat (destruct Hin as [E|Hin]; [discriminate E|]). exact Hin.
Defined.

Lemma timeout_destroys_and_rejects_witness :
  let H := steady_host stalling in
  fst (fetchMetrics (boot tt)) = Rejected (Error timeout_message)
  /\ In Destroy (log (snd (fetchMetrics (boot tt)))).
Proof.
  intros H.
  destruct (timeout_destroys_and_rejects (boot tt)
              (snd (discoverServer (boot tt))) endpoint
              [] [EvError (Error (js "socket hang up"))])
    as (Hrejected & _).
  - vm_compute. reflexivity.
  - vm_compute. reflexivity.
  - reflexivity.
  - split; [exact Hrejected|]. vm_compute. tauto.
Defined.

Lemma every_fetch_rediscovers_witness :
  let H := steady_host (answering 200 ann_body) in
  let s2 := snd (fetchMetrics (snd (fetchMetrics (boot tt)))) in
  (exists probes1 run1 more1 probes2 run2 more2,
     log s2
     = (Exec ps_command ps_timeout (Normal (ps_line ++ [LF]))
        :: Exec (lsof_command (js "4242")) lsof_timeout (Normal lsof_lines)
        :: probes1
        ++ Request (request_options endpoint) postData fetch_timeout run1
        :: more1)
       ++ Exec ps_command ps_timeout (Normal (ps_line ++ [LF]))
       :: Exec (lsof_command (js "4242")) lsof_timeout (Normal lsof_lines)
       :: probes2
       ++ Request (request_options endpoint) postData fetch_timeout run2
       :: more2
     /\ Forall2 (probed_by the_token) probes1 [js "5001"; js "5002"; js "5003"]
     /\ Forall2 (probed_by the_token) probes2 [js "5001"; js "5002"; js "5003"])
  /\ map command_of (log s2)
     = [ Some ps_command; Some (lsof_command (js "4242"));
         Some (curl_command (js "5001") the_token);
         Some (curl_command (js "5002") the_token);
         Some (curl_command (js "5003") the_token); None;
         Some ps_command; Some (lsof_command (js "4242"));
         Some (curl_command (js "5001") the_token);
         Some (curl_command (js "5002") the_token);
         Some (curl_command (js "5003") the_token); None ].
Proof.
  intros H s2. split; [|vm_compute; reflexivity].
  destruct (every_fetch_rediscovers (ps_line ++ [LF]) lsof_lines (js "4242")
              the_token (js "5003") [js "5001"; js "5002"] [] (boot tt))
    as (probes1 & run1 & more1 & probes2 & run2 & more2
        & Hlog1 & Hprobes1 & Hlog2 & Hprobes2).
  - intros []. vm_compute. reflexivity.
  - vm_compute. reflexivity.
  - vm_compute. reflexivity.
  - vm_compute. reflexivity.
  - intros []. vm_compute. reflexivity.
  - vm_compute. reflexivity.
  - intros q [] [<-|[<-|[]]]; vm_compute; reflexivity.
  - intros []. vm_compute. reflexivity.
  - exists probes1, run1, more1, probes2, run2, more2.
    split; [|split; [exact Hprobes1 | exact Hprobes2]].
    subst s2. rewrite Hlog2, Hlog1. reflexivity.
Defined.



(** * Checks of the model on concrete inputs *)

(** ** Strings and numbers *)

Example trim_both_ends :
  trim (js "  ab c  ") = js "ab c".
Proof. reflexivity. Qed.

Example trim_line_ends :
  trim (js "200" ++ [LF]) = js "200".
Proof. reflexivity. Qed.

Example split_ws_runs :
  split_ws (js "a  b c") = [js "a"; js "b"; js "c"].
Proof. reflexivity. Qed.

Example split_of_empty :
  split_on LF [] = [[]].
Proof. reflexivity. Qed.

Example parseInt_hexadecimal : parseInt (js "0x1f") = Int 31.
Proof. reflexivity. Qed.

Example parseInt_prefix : parseInt (js "12ab") = Int 12.
Proof. reflexivity. Qed.

Example parseInt_no_digit :
  parseInt (js "ab") = NaN /\ parseInt (js "0x") = NaN.
Proof. split; reflexivity. Qed.

Example to_string_decimal :
  to_string (Int 1234567890) = js "1234567890"
  /\ to_string (Int 0) = js "0"
  /\ to_string (Int 1024) = js "1024"
  /\ to_string (Int 99) = js "99"
  /\ to_string (Int (-7)) = js "-7".
Proof. repeat split; reflexivity. Qed.

(** ** The two regular expressions *)

Example token_after_white_space :
  match_token (js "x --csrf_token   ab-9_c --other") = Some (js "ab-9").
Proof. reflexivity. Qed.

Example token_needs_white_space :
  match_token (js "x --csrf_token=ab --csrf_token  z") = Some (js "z")
  /\ match_token (js "x --csrf_token=ab") = None.
Proof. split; reflexivity. Qed.

Example port_of_lsof_line :
  match_port (js "node 123 u 22u IPv4 0x1 0t0 TCP 127.0.0.1:5012 (LISTEN)")
  = Some (js "5012").
Proof. reflexivity. Qed.

Example port_needs_white_space :
  match_port (js "a:12b :7 ") = Some (js "7").
Proof. reflexivity. Qed.

Example pid_is_second_field :
  pid_field (js "user   4242  0.0 /bin/x") = Some (js "4242").
Proof. reflexivity. Qed.

(** ** JSON *)

Example parse_not_json : Json.parse (js "not-json") = None.
Proof. reflexivity. Qed.

Example parse_empty_object : Json.parse (js "{}") = Some (JObject []).
Proof. reflexivity. Qed.

Example parse_array :
  Json.parse (js " [1, 2.5e3 , -0.25, true,null, [] ,{}] ")
  = Some (JArray [JNumber 1 0; JNumber 25 2; JNumber (-25) (-2); JBool true;
                  JNull; JArray []; JObject []]).
Proof. reflexivity. Qed.

Example parse_duplicate_key :
  Json.parse (jq "{'a':{'b':'x\nyA'}, 'a' : 1, 'c':[ ]}")
  = Some (JObject [(js "a", JNumber 1 0); (js "c", JArray [])]).
Proof. reflexivity. Qed.

Example parse_escapes :
  Json.parse (jq "'aA\t\/'") = Some (JString [97; 65; 9; 47]%N).
Proof. reflexivity. Qed.

Example parse_rejects :
  Json.parse (js "") = None /\ Json.parse (js "01") = None
  /\ Json.parse (js "[1,]") = None /\ Json.parse (js "[1 2]") = None
  /\ Json.parse (js "-") = None /\ Json.parse (js "1.") = None
  /\ Json.parse (js ".5") = None /\ Json.parse (js "1e") = None
  /\ Json.parse (js "tru") = None /\ Json.parse (js "nulll") = None
  /\ Json.parse (js "{,}") = None /\ Json.parse (js "{'a':1}") = None.
Proof. vm_compute. tauto. Qed.

Example parse_deep_and_long :
  Json.parse (js "[[[[[[[[[[[[[[[[[[[[1]]]]]]]]]]]]]]]]]]]]") <> None
  /\ Json.parse (js "[1,2,3,4,5,6,7,8,9,10,11,12,13,14,15,16,17,18,19,20]")
     <> None.
Proof. vm_compute. split; discriminate. Qed.

Example postData_parses :
  Json.parse postData
  = Some (JObject
            [(js "metadata",
              JObject [(js "ideName", JString (js "antigravity"));
                       (js "extensionName", JString (js "quota-monitor"));
                       (js "locale", JString (js "en"))])]).
Proof. reflexivity. Qed.

(** The example response of the specification: the values pass through;
    the plan information has no [planName], which [PlanStatus] declares. *)
Example sample_body_passes_through :
  let parsed := Json.parse sample_body in
  let userStatus := member "userStatus" parsed in
  member "availablePromptCredits" (member "planStatus" userStatus)
  = Some (JNumber 500 0)
  /\ member "remainingFraction"
       (member "quotaInfo"
          (element 0
             (member "clientModelConfigs"
                (member "cascadeModelConfigData" userStatus))))
     = Some (JNumber 42 (-2))
  /\ option_map is_MetricsResponse parsed = Some false.
Proof. vm_compute. repeat split; reflexivity. Qed.

(** ** Discovery and fetch *)

Example discovery_finds_the_endpoint :
  fst (discoverServer (boot [answering 200 ann_body])) = Some endpoint.
Proof. vm_compute. reflexivity. Qed.

Example discovery_commands :
  map command_of (log (snd (discoverServer (boot [answering 200 ann_body]))))
  = map Some [ ps_command; lsof_command (js "4242");
               curl_command (js "5001") the_token;
               curl_command (js "5002") the_token;
               curl_command (js "5003") the_token ].
Proof. vm_compute. reflexivity. Qed.

Example fetch_fulfilled :
  fst (fetchMetrics (boot [answering 200 ann_body])) = Fulfilled ann.
Proof. vm_compute. reflexivity. Qed.

Example fetch_of_the_sample :
  option_map Fulfilled (Json.parse sample_body)
  = Some (fst (fetchMetrics (boot [answering 200 [sample_body]]))).
Proof. vm_compute. reflexivity. Qed.

Example fetch_without_server :
  fst (fetchMetrics (boot [ide_closed])) = Rejected (Error not_found_message)
  /\ fst (fetchMetrics (boot [no_port_yet]))
     = Rejected (Error not_found_message).
Proof. vm_compute. split; reflexivity. Qed.

Example fetch_socket_error :
  fst (fetchMetrics
         (boot [ {| answers := ide_running;
                    exchange := Normal [EvError (Error (js "read ECONNRESET"))];
                    clock := midday |} ]))
  = Rejected (Error (js "Failed to fetch metrics: read ECONNRESET")).
Proof. vm_compute. reflexivity. Qed.

(** The second of two calls meets the host as the first one left it:
    with the process gone it finds no server, whatever the first found. *)
Example second_fetch_finds_the_process_gone :
  let first := fetchMetrics (boot [answering 200 ann_body; ide_closed]) in
  fst first = Fulfilled ann
  /\ fst (fetchMetrics (snd first)) = Rejected (Error not_found_message)
  /\ map command_of (log (snd (fetchMetrics (snd first))))
     = [ Some ps_command; Some (lsof_command (js "4242"));
         Some (curl_command (js "5001") the_token);
         Some (curl_command (js "5002") the_token);
         Some (curl_command (js "5003") the_token); None;
         Some ps_command ].
Proof. vm_compute. repeat split; reflexivity. Qed.

Example script_finds_the_port :
  fst (find_port the_token [js "5001"; js "5002"; js "5003"] tt)
  = Some (js "5003").
Proof. vm_compute. reflexivity. Qed.

(** ** [formatResetTime] *)

Example reset_in_twelve_hours :
  formatResetTime one_date midday new_year = js "12h 0m".
Proof. vm_compute. reflexivity. Qed.

Example reset_in_days :
  formatResetTime one_date (midday - 86400000) new_year = js "1d 12h".
Proof. vm_compute. reflexivity. Qed.

Example reset_in_minutes :
  formatResetTime one_date (1735776000000 - 125000) new_year = js "2m".
Proof. vm_compute. reflexivity. Qed.

Example reset_in_the_past :
  formatResetTime one_date (1735776000000 + 1) new_year = js "resetting...".
Proof. vm_compute. reflexivity. Qed.

(** ** Conditions on parsed values *)

Example tiny_number_counts_as_false :
  Json.parse (js "1e-400") = Some (JNumber 1 (-400))
  /\ truthy (JNumber 1 (-400)) = false
  /\ truthy (JNumber 2 (-324)) = false
  /\ truthy (JNumber (-2) (-324)) = false.
Proof. vm_compute. repeat split; reflexivity. Qed.

Example least_double_counts_as_true :
  truthy (JNumber 3 (-324)) = true
  /\ truthy (JNumber 5 (-324)) = true
  /\ truthy (JNumber 1 400) = true
  /\ truthy (JNumber 0 400) = false.
Proof. vm_compute. repeat split; reflexivity. Qed.

(** ** The data page of the views *)

Example sample_is_parsed :
  Json.parse sample_body = Some sample.
Proof. vm_compute. reflexivity. Qed.

Example sample_is_shown :
  sidebar_data_throws sample = None /\ panel_data_throws sample = None.
Proof. vm_compute. split; reflexivity. Qed.

Example no_userStatus_throws :
  sidebar_data_throws unavailable
  = Some (reading_of_undefined "cascadeModelConfigData")
  /\ panel_data_throws unavailable
     = Some (reading_of_undefined "cascadeModelConfigData").
Proof. vm_compute. split; reflexivity. Qed.

Example name_alone_throws :
  sidebar_data_throws ann = Some (reading_of_undefined "clientModelConfigs")
  /\ panel_data_throws ann = Some (reading_of_undefined "clientModelConfigs").
Proof. vm_compute. split; reflexivity. Qed.

Example models_must_be_an_array :
  sidebar_data_throws
    (JObject
       [(js "userStatus",
         JObject
           [(js "cascadeModelConfigData",
             JObject [(js "clientModelConfigs", JString (js "none"))])])])
  = Some (not_a_function "models.filter").
Proof. vm_compute. reflexivity. Qed.

(** Without models the page still needs the plan and the user. *)
Example plan_is_read_after_the_models :
  sidebar_data_throws
    (JObject
       [(js "userStatus",
         JObject
           [(js "cascadeModelConfigData",
             JObject [(js "clientModelConfigs", JArray [])])])])
  = Some (reading_of_undefined "availablePromptCredits").
Proof. vm_compute. reflexivity. Qed.

(** A model is a hero by a part of its label, in any case of letters;
    the models found come first, the others fill the places left. *)
Example heroes_by_name :
  let model (label : string) :=
    JObject [(js "label", JString (js label)); (js "quotaInfo", JBool true)] in
  let models :=
    map model
      ["Llama 4"; "GEMINI 3 FLASH (preview)"; "Opus"; "Mistral"]%string in
  option_map (filled 4)
    (match named_heroes default_heroModelNames models [] with
     | Normal heroModels => Some heroModels
     | Throw _ => None
     end)
  = Some [2; 1; 0]%nat.
Proof. vm_compute. reflexivity. Qed.

(** The label of a model is lowered only when the search reaches the
    model: a label that is no string stops the page there. *)
Example label_must_be_a_string :
  let model label :=
    JObject [(js "label", label); (js "quotaInfo", JBool true)] in
  thrown (named_heroes default_heroModelNames
            [model (JString (js "Gemini 3 Flash")); model (JNumber 4 0)] [])
  = Some (not_a_function "m.label.toLowerCase").
Proof. vm_compute. reflexivity. Qed.

(** ** [refreshData] *)

Example refresh_caches_the_data :
  let g :=
    fst (refreshData fresh_globals (boot [answering 200 [sample_body]])) in
  cachedData g = sample
  /\ _view (sidebarProvider g) = Some (DataHtml sample)
  /\ notifications g
     = [InformationMessage (js "Quota data refreshed successfully!")].
Proof. vm_compute. repeat split; reflexivity. Qed.

Example refresh_shows_the_error :
  let g := fst (refreshData fresh_globals (boot [stalling])) in
  cachedData g = JNull
  /\ _view (sidebarProvider g) = Some (ErrorHtml timeout_message)
  /\ notifications g
     = [ErrorMessage (js "Failed to refresh: Request timed out")].
Proof. vm_compute. repeat split; reflexivity. Qed.

(** * Further properties *)

(** ** The texts of the times *)

(** X1: a reset time that is a valid date and not after the current time
    is shown as resetting. *)
Theorem reset_time_not_ahead (Date_parse : jsstring -> number) (now t : Z)
  (resetTime : jsstring) :
  Date_parse resetTime = Int t ->
  t <= now ->
  formatResetTime Date_parse now resetTime = js "resetting...".
Proof.
  intros Hvalid Hpast. unfold formatResetTime. rewrite Hvalid.
  cbn [minus leq]. destruct (Z.leb_spec (t - now) 0); [reflexivity | lia].
Qed.

Lemma reset_time_not_ahead_witness :
  formatResetTime one_date 1735776000000 new_year = js "resetting...".
Proof.
  apply (reset_time_not_ahead one_date 1735776000000 1735776000000 new_year).
  - reflexivity.
  - lia.
Defined.

(** X2: a reset time ahead by [d] milliseconds is shown in whole units,
    rounded down: below an hour the minutes, below a day the hours and
    the minutes of the hour, from a day on the days and the hours of the
    day. Less than a minute ahead is shown as 0m. *)
Theorem reset_time_ahead (Date_parse : jsstring -> number) (now t : Z)
  (resetTime : jsstring) :
  Date_parse resetTime = Int t ->
  now < t ->
  let d := t - now in
  (d < 3600000 ->
   formatResetTime Date_parse now resetTime
   = to_string (Int (d / 60000)) ++ js "m")
  /\ (3600000 <= d < 86400000 ->
      formatResetTime Date_parse now resetTime
      = to_string (Int (d / 3600000)) ++ js "h "
        ++ to_string (Int ((d / 60000) mod 60)) ++ js "m")
  /\ (86400000 <= d ->
      formatResetTime Date_parse now resetTime
      = to_string (Int (d / 86400000)) ++ js "d "
        ++ to_string (Int ((d / 3600000) mod 24)) ++ js "h")
  /\ (d < 60000 -> formatResetTime Date_parse now resetTime = js "0m").
Proof.
  intros Hvalid Hahead d.
  assert (Hd : 0 < d) by (unfold d; lia).
  assert (Hhours : d / 60000 / 60 = d / 3600000)
    by (rewrite Z.div_div by lia; reflexivity).
  assert (Hdays : d / 60000 / 60 / 24 = d / 86400000)
    by (rewrite !Z.div_div by lia; reflexivity).
  assert (Hmins : 0 <= d / 60000) by (apply Z.div_pos; lia).
  assert (Hhrs : 0 <= d / 3600000) by (apply Z.div_pos; lia).
  assert (Hform :
    formatResetTime Date_parse now resetTime
    = if 0 <? d / 86400000 then
        to_string (Int (d / 86400000)) ++ js "d "
        ++ to_string (Int ((d / 3600000) mod 24)) ++ js "h"
      else if 0 <? d / 3600000 then
        to_string (Int (d / 3600000)) ++ js "h "
        ++ to_string (Int ((d / 60000) mod 60)) ++ js "m"
      else to_string (Int (d / 60000)) ++ js "m").
  { unfold formatResetTime. rewrite Hvalid.
    cbn [minus leq floor_div gt remainder]. fold d.
    destruct (Z.leb_spec d 0); [lia|].
    rewrite Hdays, Hhours.
    rewrite (Z.rem_mod_nonneg (d / 3600000) 24) by lia.
    rewrite (Z.rem_mod_nonneg (d / 60000) 60) by lia.
    reflexivity. }
  rewrite Hform. repeat split.
  - intros Hlt.
    rewrite (Z.div_small d 86400000), (Z.div_small d 3600000) by lia.
    reflexivity.
  - intros [Hge Hlt].
    rewrite (Z.div_small d 86400000) by lia. cbn [Z.ltb Z.compare].
    destruct (Z.ltb_spec 0 (d / 3600000)); [reflexivity|].
    pose proof (Z.div_str_pos d 3600000). lia.
  - intros Hge.
    destruct (Z.ltb_spec 0 (d / 86400000)); [reflexivity|].
    pose proof (Z.div_str_pos d 86400000). lia.
  - intros Hlt.
    rewrite (Z.div_small d 86400000), (Z.div_small d 3600000),
      (Z.div_small d 60000) by lia.
    reflexivity.
Qed.

Lemma reset_time_ahead_witness :
  formatResetTime one_date (1735776000000 - 59999) new_year = js "0m"
  /\ formatResetTime one_date midday new_year
     = to_string (Int 12) ++ js "h " ++ to_string (Int 0) ++ js "m".
Proof.
  split.
  - apply (reset_time_ahead one_date (1735776000000 - 59999) 1735776000000
             new_year); [reflexivity | lia | lia].
  - apply (reset_time_ahead one_date midday 1735776000000 new_year);
      [reflexivity | unfold midday; lia | unfold midday; lia].
Defined.

(** X3: the age of the last refresh is shown in whole units, rounded
    down: under ten seconds, and for a refresh that the clock puts in the
    future, as Just now; then the seconds, the minutes, and from an hour
    on the hours and the minutes of the hour. *)
Theorem last_refresh_age (sb : QuotaSidebarProvider) (now last : Z) :
  _lastRefreshTime sb = Some last ->
  let d := now - last in
  (d < 10000 -> _formatLastRefresh sb now = js "Just now")
  /\ (10000 <= d < 60000 ->
      _formatLastRefresh sb now
      = to_string (Int (d / 1000)) ++ js "s ago")
  /\ (60000 <= d < 3600000 ->
      _formatLastRefresh sb now
      = to_string (Int (d / 60000)) ++ js "m ago")
  /\ (3600000 <= d ->
      _formatLastRefresh sb now
      = to_string (Int (d / 3600000)) ++ js "h "
        ++ to_string (Int ((d / 60000) mod 60)) ++ js "m ago").
Proof.
  intros Hlast d. unfold _formatLastRefresh. rewrite Hlast. cbv zeta.
  fold d.
  assert (Hmins : d / 1000 / 60 = d / 60000)
    by (rewrite Z.div_div by lia; reflexivity).
  assert (Hhours : d / 1000 / 60 / 60 = d / 3600000)
    by (rewrite !Z.div_div by lia; reflexivity).
  rewrite Hhours, Hmins. repeat split.
  - intros Hlt.
    destruct (Z.ltb_spec (d / 1000) 10); [reflexivity|].
    assert (d / 1000 < 10) by (apply Z.div_lt_upper_bound; lia). lia.
  - intros [Hge Hlt].
    assert (10 <= d / 1000) by (apply Z.div_le_lower_bound; lia).
    assert (d / 1000 < 60) by (apply Z.div_lt_upper_bound; lia).
    destruct (Z.ltb_spec (d / 1000) 10); [lia|].
    destruct (Z.ltb_spec (d / 1000) 60); [reflexivity | lia].
  - intros [Hge Hlt].
    assert (60 <= d / 1000) by (apply Z.div_le_lower_bound; lia).
    assert (d / 60000 < 60) by (apply Z.div_lt_upper_bound; lia).
    destruct (Z.ltb_spec (d / 1000) 10); [lia|].
    destruct (Z.ltb_spec (d / 1000) 60); [lia|].
    destruct (Z.ltb_spec (d / 60000) 60); [reflexivity | lia].
  - intros Hge.
    assert (60 <= d / 1000) by (apply Z.div_le_lower_bound; lia).
    assert (60 <= d / 60000) by (apply Z.div_le_lower_bound; lia).
    destruct (Z.ltb_spec (d / 1000) 10); [lia|].
    destruct (Z.ltb_spec (d / 1000) 60); [lia|].
    destruct (Z.ltb_spec (d / 60000) 60); [lia|].
    rewrite (Z.rem_mod_nonneg (d / 60000) 60) by lia. reflexivity.
Qed.

Lemma last_refresh_age_witness :
  _formatLastRefresh (refreshed_before (-5000)) midday = js "Just now"
  /\ _formatLastRefresh (refreshed_before 5400000) midday
     = to_string (Int 1) ++ js "h " ++ to_string (Int 30) ++ js "m ago".
Proof.
  split.
  - apply (last_refresh_age (refreshed_before (-5000)) midday
             (midday - (-5000))); [reflexivity | lia].
  - apply (last_refresh_age (refreshed_before 5400000) midday
             (midday - 5400000)); [reflexivity | lia].
Defined.

(** ** What the discovery reads and runs *)

Lemma take_while_all (p : N -> bool) (s : jsstring) :
  forallb p (take_while p s) = true.
Proof.
  induction s as [|c s IH]; [reflexivity|]. cbn [take_while].
  destruct (p c) eqn:E; [|reflexivity]. cbn [forallb]. rewrite E. exact IH.
Qed.

Lemma leftmost_somewhere {A : Type} (here : jsstring -> option A) (a : A) :
  forall s, leftmost here s = Some a -> exists r, here r = Some a.
Proof.
  induction s as [|c s IH]; cbn [leftmost].
  - destruct (here []) eqn:E; [|discriminate]. intros [= <-]. eauto.
  - destruct (here (c :: s)) eqn:E; [intros [= <-]; eauto | exact IH].
Qed.

Lemma not_empty (s : jsstring) : is_empty s = false -> s <> [].
Proof. destruct s; [discriminate | discriminate]. Qed.

Lemma match_token_chars (line tok : jsstring) :
  match_token line = Some tok ->
  tok <> [] /\ forallb is_token_char tok = true.
Proof.
  intros Hm. apply leftmost_somewhere in Hm. destruct Hm as [r Hr].
  unfold token_here in Hr.
  destruct (strip_prefix (js "--csrf_token") r) as [t|]; [|discriminate].
  destruct (is_empty (take_while is_space t)); [discriminate|].
  destruct (is_empty (take_while is_token_char (drop_while is_space t)))
    eqn:E; [discriminate|].
  injection Hr as <-. split; [apply not_empty, E | apply take_while_all].
Qed.

Lemma match_port_digits (line p : jsstring) :
  match_port line = Some p -> p <> [] /\ forallb is_digit p = true.
Proof.
  intros Hm. apply leftmost_somewhere in Hm. destruct Hm as [r Hr].
  unfold port_here in Hr. destruct r as [|c t]; [discriminate|].
  destruct (N.eq_dec c 58) as [->|Hne].
  - destruct (is_empty (take_while is_digit t)) eqn:E; [discriminate|].
    destruct (drop_while is_digit t) as [|x u]; [discriminate|].
    destruct (is_space x); [|discriminate].
    injection Hr as <-. split; [apply not_empty, E | apply take_while_all].
  - exfalso. destruct c as [|q]; [discriminate|].
    repeat (destruct q as [q|q|]; try discriminate; try congruence).
Qed.

Lemma extract_ports_digits (lines : list jsstring) :
  Forall (fun p => p <> [] /\ forallb is_digit p = true)
    (extract_ports lines).
Proof.
  induction lines as [|line lines IH]; [constructor|]. cbn [extract_ports].
  destruct (match_port line) as [p|] eqn:E; [|exact IH].
  constructor; [exact (match_port_digits _ _ E) | exact IH].
Qed.

Lemma no_space_rev (s : jsstring) : no_space s = true -> no_space (rev s) = true.
Proof.
  unfold no_space. rewrite !forallb_forall. intros Hs c Hc.
  apply Hs, in_rev, Hc.
Qed.

Lemma split_ws_go_no_space (s : jsstring) :
  forall cur in_ws,
    no_space cur = true ->
    Forall (fun piece => no_space piece = true) (split_ws_go cur in_ws s).
Proof.
  induction s as [|c s IH]; intros cur in_ws Hcur; cbn [split_ws_go].
  - constructor; [apply no_space_rev, Hcur | constructor].
  - destruct (is_space c) eqn:E.
    + destruct in_ws; [apply IH; reflexivity|].
      constructor; [apply no_space_rev, Hcur | apply IH; reflexivity].
    + apply IH. unfold no_space. cbn [forallb]. rewrite E. exact Hcur.
Qed.

Lemma pid_field_no_space (line pid : jsstring) :
  pid_field line = Some pid -> no_space pid = true.
Proof.
  unfold pid_field, split_ws. intros Hnth. apply nth_error_In in Hnth.
  pose proof (split_ws_go_no_space (trim line) [] false eq_refl) as Hall.
  rewrite Forall_forall in Hall. exact (Hall _ Hnth).
Qed.

Section Candidates.

Context {World : Type} `{Host World}.

(** What [list_candidates] has read when it returns candidates. *)
Lemma list_candidates_inv (st st1 : Sys World) (pid token : jsstring)
  (ports : list jsstring) :
  list_candidates st = (Normal (Some (pid, token, ports)), st1) ->
  exists firstLine,
    pid_field firstLine = Some pid
    /\ is_empty pid = false /\ isNaN (parseInt pid) = false
    /\ match_token firstLine = Some token
    /\ ports <> []
    /\ Forall (fun p => p <> [] /\ forallb is_digit p = true) ports.
Proof.
  unfold list_candidates, bind, execSync, ret.
  destruct (run_command ps_command ps_timeout (world st)) as [[out|e] w];
    [|discriminate].
  destruct (is_empty (trim out)); [discriminate|].
  destruct (pid_field (first_line (trim out))) as [pid'|] eqn:Hpid;
    [|discriminate].
  destruct (is_empty pid' || isNaN (parseInt pid')) eqn:Hvalid;
    [discriminate|].
  destruct (match_token (first_line (trim out))) as [token'|] eqn:Htok;
    [|discriminate].
  unfold log_effect. cbn [world log].
  destruct (run_command (lsof_command pid') lsof_timeout w) as [[out2|e] w2];
    [|discriminate].
  destruct (is_empty (trim out2)); [discriminate|].
  destruct (length (extract_ports (split_on LF (trim out2))) =? 0)%nat eqn:Hn;
    [discriminate|].
  intros [= <- <- <- _]. apply orb_false_iff in Hvalid.
  destruct Hvalid as [Hne Hnum].
  exists (first_line (trim out)). repeat split; try assumption.
  - intros Hnil. rewrite Hnil in Hn. discriminate Hn.
  - apply extract_ports_digits.
Qed.

End Candidates.

(** The digits. *)
Lemma digit_cases (c : N) :
  is_digit c = true ->
  (c = 48 \/ c = 49 \/ c = 50 \/ c = 51 \/ c = 52 \/ c = 53 \/ c = 54
   \/ c = 55 \/ c = 56 \/ c = 57)%N.
Proof.
  unfold is_digit. rewrite andb_true_iff, !N.leb_le. lia.
Qed.

Lemma leading_digits_nonneg (radix : Z) (s : jsstring) :
  Forall (fun d => 0 <= d) (leading_digits radix s).
Proof.
  induction s as [|c s IH]; [constructor|]. cbn [leading_digits].
  destruct (digit_value radix c) as [d|] eqn:E; [|constructor].
  constructor; [|exact IH].
  unfold digit_value in E.
  destruct (is_digit c) eqn:Hd.
  - unfold is_digit in Hd. rewrite andb_true_iff, !N.leb_le in Hd.
    destruct (Z.of_N c - 48 <? radix); [|discriminate].
    injection E as <-. lia.
  - destruct ((97 <=? c) && (c <=? 122))%N eqn:Hl.
    + rewrite andb_true_iff, !N.leb_le in Hl.
      destruct (Z.of_N c - 87 <? radix); [|discriminate].
      injection E as <-. lia.
    + destruct ((65 <=? c) && (c <=? 90))%N eqn:Hu; [|discriminate].
      rewrite andb_true_iff, !N.leb_le in Hu.
      destruct (Z.of_N c - 55 <? radix); [|discriminate].
      injection E as <-. lia.
Qed.

Lemma digits_value_nonneg (radix : Z) (ds : list Z) :
  0 <= radix -> Forall (fun d => 0 <= d) ds -> 0 <= digits_value radix ds.
Proof.
  intros Hr. unfold digits_value.
  assert (Hgen : forall acc, 0 <= acc ->
            Forall (fun d => 0 <= d) ds ->
            0 <= fold_left (fun acc d => acc * radix + d) ds acc).
  { induction ds as [|d ds IH]; intros acc Hacc Hds; [exact Hacc|].
    inversion Hds; subst. cbn [fold_left]. apply IH; [nia | assumption]. }
  apply Hgen. lia.
Qed.

Lemma decimal_digits_start (c : N) (s : jsstring) :
  is_digit c = true -> leading_digits 10 (c :: s) <> [].
Proof.
  intros Hc. apply digit_cases in Hc.
  destruct Hc as [->|[->|[->|[->|[->|[->|[->|[->|[->| ->]]]]]]]]];
    cbn; discriminate.
Qed.

Lemma radix_10_value (s : jsstring) :
  leading_digits 10 s <> [] ->
  exists n,
    match leading_digits 10 s with
    | [] => NaN
    | d :: ds => Int (1 * digits_value 10 (d :: ds))
    end = Int n /\ 0 <= n.
Proof.
  intros Hne. pose proof (leading_digits_nonneg 10 s) as Hpos.
  destruct (leading_digits 10 s) as [|d ds]; [congruence|].
  eexists. split; [reflexivity|].
  assert (0 <= digits_value 10 (d :: ds))
    by (apply digits_value_nonneg; [lia | exact Hpos]).
  lia.
Qed.

(** [parseInt] of a text of digits is a number, not negative. *)
Lemma parseInt_digits (q : jsstring) :
  q <> [] -> forallb is_digit q = true ->
  exists n, parseInt q = Int n /\ 0 <= n.
Proof.
  destruct q as [|c r]; [congruence|]. intros _ Hq.
  cbn [forallb] in Hq. apply andb_true_iff in Hq. destruct Hq as [Hc Hr].
  pose proof (decimal_digits_start c r Hc) as Hstart.
  assert (Hns : is_space c = false).
  { apply digit_cases in Hc.
    destruct Hc as [->|[->|[->|[->|[->|[->|[->|[->|[->| ->]]]]]]]]];
      reflexivity. }
  unfold parseInt. cbn [drop_while]. rewrite Hns.
  apply digit_cases in Hc.
  destruct Hc as [->|[->|[->|[->|[->|[->|[->|[->|[->| ->]]]]]]]]];
    try (cbv beta iota zeta; apply radix_10_value; exact Hstart).
  destruct r as [|d r'];
    [cbv beta iota zeta; apply radix_10_value; exact Hstart|].
  cbn [forallb] in Hr. apply andb_true_iff in Hr. destruct Hr as [Hd _].
  apply digit_cases in Hd.
  destruct Hd as [->|[->|[->|[->|[->|[->|[->|[->|[->| ->]]]]]]]]];
    cbv beta iota zeta; apply radix_10_value; exact Hstart.
Qed.

Section Accounts.

Context {World : Type} `{Host World}.

(** The port of a returned endpoint is one of the ports extracted from
    the port listing. *)
Lemma endpoint_port_digits (st st' : Sys World) (info : ServerInfo) :
  discoverServer st = (Some info, st') ->
  port info <> [] /\ forallb is_digit (port info) = true.
Proof.
  intros Hd.
  destruct (discoverServer_inv _ _ _ Hd)
    as (pid & token & ports & st1 & Hc & Hp).
  destruct (probe_ports_sound _ _ _ _ _ _ Hp) as (_ & _ & _ & _ & Hin & _).
  destruct (list_candidates_inv _ _ _ _ _ Hc) as (_ & _ & _ & _ & _ & _ & Hports).
  rewrite Forall_forall in Hports. exact (Hports _ Hin).
Qed.

(** X4: an endpoint that [discoverServer] returns is well formed: the
    token is not empty and made of letters, digits and hyphens only, the
    port is not empty and made of digits only, and the pid is not empty,
    has no white space and starts as a number. Nothing else of the
    process listing reaches the command lines of the probes. *)
Theorem discovered_endpoint_is_well_formed (st st' : Sys World)
  (info : ServerInfo) :
  discoverServer st = (Some info, st') ->
  (pid info <> [] /\ no_space (pid info) = true
   /\ isNaN (parseInt (pid info)) = false)
  /\ (token info <> [] /\ forallb is_token_char (token info) = true)
  /\ (port info <> [] /\ forallb is_digit (port info) = true).
Proof.
  intros Hd.
  destruct (discoverServer_inv _ _ _ Hd)
    as (pid & token & ports & st1 & Hc & Hp).
  destruct (probe_ports_sound _ _ _ _ _ _ Hp)
    as (_ & _ & _ & _ & Hin & -> & ->).
  destruct (list_candidates_inv _ _ _ _ _ Hc)
    as (firstLine & Hpid & Hne & Hnum & Htok & _ & Hports).
  rewrite Forall_forall in Hports.
  repeat split.
  - apply not_empty, Hne.
  - exact (pid_field_no_space _ _ Hpid).
  - exact Hnum.
  - exact (proj1 (match_token_chars _ _ Htok)).
  - exact (proj2 (match_token_chars _ _ Htok)).
  - exact (proj1 (Hports _ Hin)).
  - exact (proj2 (Hports _ Hin)).
Qed.

Lemma probe_ports_effects (pid token : jsstring) (ports : list jsstring) :
  forall st,
    exists new,
      log (snd (probe_ports pid token ports st)) = log st ++ new
      /\ Forall (fun e => exists q r,
                   In q ports
                   /\ e = Exec (curl_command q token) probe_timeout r) new.
Proof.
  induction ports as [|p rest IH]; intros st.
  - exists []. split; [cbn; rewrite app_nil_r; reflexivity | constructor].
  - rewrite probe_ports_step. cbv zeta.
    destruct (answers_200 _).
    + eexists [_]. split; [reflexivity|].
      constructor; [|constructor]. eexists p, _. split; [left|]; reflexivity.
    + match goal with
      | |- context [probe_ports pid token rest ?s] =>
          destruct (IH s) as (new & Hlog & Hall)
      end.
      rewrite Hlog. cbn [log]. rewrite <- app_assoc.
      eexists (_ :: new). split; [reflexivity|]. constructor.
      * eexists p, _. split; [left|]; reflexivity.
      * rewrite Forall_forall in Hall |- *. intros e He.
        destruct (Hall e He) as (q & r & Hq & ->).
        exists q, r. split; [right; exact Hq | reflexivity].
Qed.

Lemma list_candidates_effects (st : Sys World) :
  exists new,
    log (snd (list_candidates st)) = log st ++ new
    /\ Forall discovery_effect new.
Proof.
  assert (Hps : forall r, discovery_effect (Exec ps_command ps_timeout r))
    by (intros r; left; split; reflexivity).
  assert (Hlsof : forall pid r,
            discovery_effect (Exec (lsof_command pid) lsof_timeout r))
    by (intros pid r; right; left; exists pid; split; reflexivity).
  unfold list_candidates, bind, execSync, ret, log_effect.
  destruct (run_command ps_command ps_timeout (world st)) as [[out|e] w];
    cbn [fst snd world log];
    [|eexists [_]; split; [reflexivity | constructor; [apply Hps | constructor]]].
  destruct (is_empty (trim out));
    [eexists [_]; split; [reflexivity | constructor; [apply Hps | constructor]]|].
  destruct (pid_field (first_line (trim out))) as [pid|];
    [|eexists [_]; split; [reflexivity | constructor; [apply Hps | constructor]]].
  destruct (is_empty pid || isNaN (parseInt pid));
    [eexists [_]; split; [reflexivity | constructor; [apply Hps | constructor]]|].
  destruct (match_token (first_line (trim out))) as [token|];
    [|eexists [_]; split; [reflexivity | constructor; [apply Hps | constructor]]].
  cbn [world log].
  destruct (run_command (lsof_command pid) lsof_timeout w) as [[out2|e] w2];
    cbn [fst snd world log].
  - destruct (is_empty (trim out2));
      [|destruct (length (extract_ports (split_on LF (trim out2))) =? 0)%nat];
      eexists [_; _]; cbn [snd log]; rewrite <- app_assoc;
      (split; [reflexivity
             | constructor; [apply Hps | constructor; [apply Hlsof | constructor]]]).
  - eexists [_; _]. rewrite <- app_assoc.
    split; [reflexivity
          | constructor; [apply Hps | constructor; [apply Hlsof | constructor]]].
Qed.

(** X5: all that [discoverServer] does to the host is to run shell
    commands, and only these: the process listing, a port listing, and
    probes whose port is written in digits and whose token is written in
    token characters, each with its timeout of 5, 5 and 3 seconds. It
    makes no HTTP request of its own. *)
Theorem discovery_runs_only_its_commands (st : Sys World) :
  exists new,
    log (snd (discoverServer st)) = log st ++ new
    /\ Forall discovery_effect new.
Proof.
  destruct (list_candidates_effects st) as (l & Hl & Hall).
  unfold discoverServer, discoverServer_try, bind.
  destruct (list_candidates st) as [[[[[pid token] ports]|]|e] st1] eqn:Hc;
    cbn [snd] in Hl; cbn [ret]; try (exists l; split; assumption).
  destruct (list_candidates_inv _ _ _ _ _ Hc)
    as (firstLine & _ & _ & _ & Htok & _ & Hports).
  destruct (probe_ports_effects pid token ports st1) as (new & Hnew & Hprobes).
  exists (l ++ new). split.
  - destruct (probe_ports pid token ports st1) as [[r|e] st2];
      cbn [snd] in Hnew |- *; rewrite Hnew, Hl, <- app_assoc; reflexivity.
  - apply Forall_app. split; [exact Hall|].
    rewrite Forall_forall in Hprobes, Hports |- *. intros e He.
    destruct (Hprobes e He) as (q & r & Hq & ->).
    right. right. exists q, token. repeat split.
    + exact (proj2 (Hports q Hq)).
    + exact (proj2 (match_token_chars _ _ Htok)).
Qed.

Lemma handlers_destroys (events : list HttpEvent) :
  forall r (st : Sys World),
    log (snd (fold_left handle events (r, st)))
    = log st ++ repeat Destroy (timeouts events).
Proof.
  induction events as [|ev events IH]; intros r st.
  - cbn. rewrite app_nil_r. reflexivity.
  - cbn [fold_left]. destruct (handle (r, st) ev) as [r' st'] eqn:E.
    rewrite IH.
    destruct ev; cbn [handle] in E;
      repeat match type of E with
             | context [match ?x with _ => _ end] => destruct x
             end;
      injection E as <- <-; try reflexivity.
    unfold timeouts. cbn [filter length repeat log_effect log].
    rewrite <- app_assoc. reflexivity.
Qed.

(** X6: [fetchMetrics] adds to the discovery at most one HTTP request and
    never retries: none when no server was found, and otherwise one
    request with the options made from the discovered endpoint, the fixed
    body and the timeout of 10 seconds; the request is destroyed once for
    each time its timeout expired, and not on an error or on a body that
    does not parse. *)
Theorem fetch_makes_one_request (st : Sys World) :
  log (snd (fetchMetrics st))
  = log (snd (discoverServer st))
    ++ match fst (discoverServer st) with
       | None => []
       | Some info =>
           http_effects info
             (metrics_answer (world (snd (discoverServer st))) info)
       end.
Proof.
  destruct (discoverServer st) as [[info|] st1] eqn:Hd; cbn [fst snd].
  - rewrite (fetchMetrics_found _ _ _ Hd). cbv zeta. unfold http_effects.
    destruct (metrics_answer (world st1) info) as [events|e]; cbn [snd].
    + rewrite handlers_destroys. cbn [log]. rewrite <- app_assoc.
      reflexivity.
    + reflexivity.
  - unfold fetchMetrics. rewrite Hd. cbn [snd]. rewrite app_nil_r.
    reflexivity.
Qed.

(** X7: the request for the metrics goes where the probe went: to
    127.0.0.1, to the path of the probe, as a POST, with the token of the
    endpoint in the token header, and to the port whose digits the
    endpoint names, which is a number and not negative. *)
Theorem request_goes_to_the_probed_endpoint (st st' : Sys World)
  (info : ServerInfo) :
  discoverServer st = (Some info, st') ->
  let options := request_options info in
  hostname options = js "127.0.0.1"
  /\ path options = api_path
  /\ method options = js "POST"
  /\ assoc (js "X-Codeium-Csrf-Token") (headers options)
     = Some (token info)
  /\ (exists n, port_number options = Int n /\ 0 <= n)
  /\ port_number options = parseInt (port info).
Proof.
  intros Hd options.
  destruct (endpoint_port_digits _ _ _ Hd) as (Hne & Hdigits).
  repeat split. exact (parseInt_digits _ Hne Hdigits).
Qed.

End Accounts.

(** ** Why a promise is settled *)

Lemma after_response_app (events : list HttpEvent) (ev : HttpEvent) :
  after_response (events ++ [ev])
  = match after_response events with
    | Some rest => Some (rest ++ [ev])
    | None => match ev with EvResponse _ => Some [] | _ => None end
    end.
Proof.
  induction events as [|x events IH]; [destruct ev; reflexivity|].
  destruct x; cbn [app after_response]; try exact IH; reflexivity.
Qed.

(** One more event that does not settle. *)
Lemma unsettled_app (events : list HttpEvent) (ev : HttpEvent) :
  unsettled events = true ->
  is_failure ev = false ->
  (is_end ev = true -> after_response events = None) ->
  unsettled (events ++ [ev]) = true.
Proof.
  unfold unsettled. intros Hun Hfail Hend.
  apply andb_true_iff in Hun. destruct Hun as [Hnone Hrest].
  rewrite existsb_app, after_response_app. cbn [existsb].
  rewrite Hfail, !orb_false_r, Hnone. cbn [andb].
  destruct (after_response events) as [rest|].
  - rewrite existsb_app. cbn [existsb]. rewrite orb_false_r.
    destruct (is_end ev); [discriminate (Hend eq_refl)|].
    rewrite orb_false_r. exact Hrest.
  - destruct ev; reflexivity.
Qed.

(** The first event that settles the promise, when there is one. *)
Lemma first_settling_event (events : list HttpEvent) :
  unsettled events = true
  \/ exists before ev rest p,
       events = before ++ ev :: rest
       /\ unsettled before = true
       /\ settlement before ev = Some p.
Proof.
  induction events as [|x events IH] using rev_ind; [left; reflexivity|].
  destruct IH as [Hun | (before & ev & rest & p & -> & Hun & Hp)].
  - destruct x as [status|chunk| |cause|].
    + left. apply unsettled_app; [exact Hun | reflexivity | discriminate].
    + left. apply unsettled_app; [exact Hun | reflexivity | discriminate].
    + destruct (after_response events) as [seen|] eqn:Hseen.
      * right. exists events, EvEnd, [], (body_outcome (concat (chunks_of seen))).
        split; [reflexivity|]. split; [exact Hun|].
        unfold settlement, body_of. rewrite Hseen. reflexivity.
      * left. apply unsettled_app; [exact Hun | reflexivity | ].
        intros _. exact Hseen.
    + right. eexists events, (EvError cause), [], _.
      split; [reflexivity|]. split; [exact Hun | reflexivity].
    + right. eexists events, EvTimeout, [], _.
      split; [reflexivity|]. split; [exact Hun | reflexivity].
  - right. exists before, ev, (rest ++ [x]), p.
    split; [rewrite <- app_assoc; reflexivity|]. split; assumption.
Qed.

Section Settlement.

Context {World : Type} `{Host World}.

(** Once the head of a response has come, chunks add to [data] until
    the response ends or fails. *)
Lemma handlers_body (events : list HttpEvent) :
  forall b (st : Sys World),
    existsb is_failure events = false ->
    existsb is_end events = false ->
    fold_left handle events ({| data := Some b; promise := Pending |}, st)
    = ({| data := Some (b ++ concat (chunks_of events)); promise := Pending |},
       st).
Proof.
  induction events as [|ev events IH]; intros b st Hfail Hend.
  - cbn. rewrite app_nil_r. reflexivity.
  - cbn [existsb] in Hfail, Hend.
    apply orb_false_iff in Hfail. destruct Hfail as [Hev Hfail].
    apply orb_false_iff in Hend. destruct Hend as [Hev' Hend].
    destruct ev; try discriminate Hev; try discriminate Hev';
      cbn [fold_left handle data promise].
    + rewrite IH; [reflexivity | exact Hfail | exact Hend].
    + rewrite IH; [|exact Hfail | exact Hend].
      cbn [chunks_of flat_map app concat]. rewrite <- app_assoc.
      reflexivity.
Qed.

(** Events that do not settle leave the promise pending, the log as it
    is, and in [data] the body received. *)
Lemma handlers_unsettled (events : list HttpEvent) (st : Sys World) :
  unsettled events = true ->
  fold_left handle events (new_request, st)
  = ({| data := body_of events; promise := Pending |}, st).
Proof.
  unfold unsettled, new_request. intros Hun.
  apply andb_true_iff in Hun. destruct Hun as [Hfail Hrest].
  apply negb_true_iff in Hfail.
  induction events as [|ev events IH]; [reflexivity|].
  cbn [existsb] in Hfail.
  apply orb_false_iff in Hfail. destruct Hfail as [Hev Hfail].
  destruct ev; try discriminate Hev;
    cbn [fold_left handle data promise after_response] in Hrest |- *.
  - apply negb_true_iff in Hrest.
    rewrite handlers_body; [reflexivity | exact Hfail | exact Hrest].
  - exact (IH Hfail Hrest).
  - exact (IH Hfail Hrest).
Qed.

(** The promise is settled by the first event that settles it. *)
Lemma settled_by_first (before rest : list HttpEvent) (ev : HttpEvent)
  (p : PromiseState) (st : Sys World) :
  unsettled before = true ->
  settlement before ev = Some p ->
  promise (fst (fold_left handle (before ++ ev :: rest) (new_request, st)))
  = p.
Proof.
  intros Hun Hp. rewrite fold_left_app, (handlers_unsettled _ _ Hun).
  destruct ev as [status|chunk| |cause|]; cbn [settlement] in Hp;
    try discriminate Hp; cbn [fold_left handle data promise].
  - destruct (body_of before) as [body|]; [|discriminate Hp].
    cbn [option_map] in Hp. injection Hp as <-. unfold body_outcome.
    destruct (Json.parse body); cbn [reject_with];
      rewrite handlers_settled; cbn; congruence.
  - injection Hp as <-. cbn [reject_with].
    rewrite handlers_settled; cbn; congruence.
  - injection Hp as <-. cbn [reject_with].
    rewrite handlers_settled; cbn; congruence.
Qed.

(** The promise after all the events: pending when none of them
    settles it, and else what the first one that does makes of it. *)
Lemma promise_of_events (events : list HttpEvent) (st : Sys World) :
  let p := promise (fst (fold_left handle events (new_request, st))) in
  (unsettled events = true /\ p = Pending)
  \/ exists before ev rest,
       events = before ++ ev :: rest
       /\ unsettled before = true
       /\ settlement before ev = Some p.
Proof.
  intros p. subst p.
  destruct (first_settling_event events)
    as [Hun | (before & ev & rest & p & -> & Hun & Hp)].
  - left. split; [exact Hun|]. rewrite (handlers_unsettled _ _ Hun).
    reflexivity.
  - right. exists before, ev, rest. split; [reflexivity|].
    split; [exact Hun|]. rewrite (settled_by_first _ _ _ _ _ Hun Hp).
    exact Hp.
Qed.

(** X8: a promise of [fetchMetrics] is rejected for one of five reasons
    and no other: no server was found; [http.request] threw, and the
    error is what it threw; or, by the first event of the request that
    settles the promise: the response ended and its body, the chunks
    received put together, is not JSON; the timeout expired; the request
    had an error, whose message follows the prefix of a failed fetch. *)
Theorem rejections_are_classified (st : Sys World) (e : JSError) :
  fst (fetchMetrics st) = Rejected e ->
  rejection_cause
    match fst (discoverServer st) with
    | None => None
    | Some info =>
        Some (metrics_answer (world (snd (discoverServer st))) info)
    end e.
Proof.
  destruct (discoverServer st) as [[info|] st1] eqn:Hd; cbn [fst snd].
  - rewrite (fetchMetrics_found _ _ _ Hd). cbv zeta.
    destruct (metrics_answer (world st1) info) as [events|thrown];
      cbn [fst rejection_cause].
    + intros Hrej.
      match type of Hrej with
      | promise (fst (fold_left handle events (_, ?s))) = _ =>
          destruct (promise_of_events events s)
            as [[_ Hpending] | (before & ev & rest & Hev & Hun & Hp)]
      end.
      * rewrite Hrej in Hpending. discriminate Hpending.
      * rewrite Hrej in Hp. exists before, ev, rest.
        split; [exact Hev|]. split; [exact Hun|].
        destruct ev as [status|chunk| |cause|]; cbn [settlement] in Hp;
          try discriminate Hp.
        -- destruct (body_of before) as [body|]; [|discriminate Hp].
           cbn [option_map] in Hp. unfold body_outcome in Hp.
           exists body. split; [reflexivity|].
           destruct (Json.parse body); [discriminate Hp|].
           split; [reflexivity | congruence].
        -- congruence.
        -- congruence.
    + intros [= ->]. reflexivity.
  - unfold fetchMetrics. rewrite Hd. cbn [fst rejection_cause].
    intros [= <-]. reflexivity.
Qed.

(** X9: a promise of [fetchMetrics] is fulfilled only with the parsed
    body of a response that ended: a server was found, the first event of
    the request that settled the promise is the end of the response, so
    that no error and no timeout came before it, and the value is what
    [JSON.parse] makes of the body, the chunks received until then put
    together. *)
Theorem fulfilled_needs_a_response (st : Sys World) (v : value) :
  fst (fetchMetrics st) = Fulfilled v ->
  exists info before rest body,
    fst (discoverServer st) = Some info
    /\ metrics_answer (world (snd (discoverServer st))) info
       = Normal (before ++ EvEnd :: rest)
    /\ unsettled before = true
    /\ body_of before = Some body
    /\ Json.parse body = Some v.
Proof.
  destruct (discoverServer st) as [[info|] st1] eqn:Hd; cbn [fst snd].
  - rewrite (fetchMetrics_found _ _ _ Hd). cbv zeta.
    destruct (metrics_answer (world st1) info) as [events|thrown] eqn:Hrun;
      cbn [fst]; [|discriminate].
    intros Hful.
    match type of Hful with
    | promise (fst (fold_left handle events (_, ?s))) = _ =>
        destruct (promise_of_events events s)
          as [[_ Hpending] | (before & ev & rest & Hev & Hun & Hp)]
    end.
    + rewrite Hful in Hpending. discriminate Hpending.
    + rewrite Hful in Hp.
      destruct ev as [status|chunk| |cause|]; cbn [settlement] in Hp;
        try discriminate Hp.
      destruct (body_of before) as [body|] eqn:Hbody; [|discriminate Hp].
      cbn [option_map] in Hp. unfold body_outcome in Hp.
      destruct (Json.parse body) as [parsed|] eqn:Hparse;
        [|discriminate Hp].
      exists info, before, rest, body. subst events.
      repeat split; try assumption; try reflexivity. congruence.
  - unfold fetchMetrics. rewrite Hd. discriminate.
Qed.

End Settlement.

(** ** What a refresh leaves behind *)

Section Refreshed.

Context {World : Type} `{Host World} `{Views}.

Lemma truthy_not_null (data : value) :
  truthy data = true ->
  match data with JNull => None | _ => Some data end = Some data.
Proof. destruct data; [discriminate | reflexivity ..]. Qed.

Lemma refresh_failed_result (error : JSError) (g : Globals) :
  is_empty (message error) = false ->
  refresh_failed error g
  = {| sidebarProvider :=
         {| _view :=
              match _view (sidebarProvider g) with
              | Some _ => Some (ErrorHtml (message error))
              | None => None
              end;
            _metricsData := JNull;
            _error := Some (message error);
            _isLoading := false;
            _lastRefreshTime := _lastRefreshTime (sidebarProvider g) |};
       webviewPanel :=
         match webviewPanel g with
         | Some _ => Some (ErrorHtml (message error))
         | None => None
         end;
       cachedData := cachedData g;
       notifications :=
         notifications g
         ++ [ErrorMessage (js "Failed to refresh: " ++ message error)] |}.
Proof.
  intros Hmsg.
  unfold refresh_failed, refresh, _updateView, sidebar_getHtmlContent,
    updateContent, panel_getHtmlContent, with_sidebar, notify, truthy_string.
  cbn [_view _metricsData _error _isLoading _lastRefreshTime].
  rewrite Hmsg. cbn [negb].
  destruct (_view (sidebarProvider g));
    cbn [webviewPanel sidebarProvider cachedData notifications snd];
    destruct (webviewPanel g); reflexivity.
Qed.

(** X10: the sidebar stops loading exactly when the promise of
    [fetchMetrics] settles: after [refreshData] it is still loading when
    the promise is pending, and not loading when the promise was
    fulfilled or rejected, also when a view threw on the data. *)
Theorem loading_ends_when_fetch_settles (g : Globals) (st : Sys World) :
  _isLoading (sidebarProvider (fst (refreshData g st)))
  = match fst (fetchMetrics st) with
    | Pending => true
    | _ => false
    end.
Proof.
  assert (Hfailed : forall error g',
            _isLoading (sidebarProvider (refresh_failed error g')) = false).
  { intros error g'.
    unfold refresh_failed, refresh, _updateView, with_sidebar, notify,
      updateContent.
    cbn [_view]. destruct (_view (sidebarProvider g'));
      [destruct (sidebar_getHtmlContent _)|];
      cbn [webviewPanel]; destruct (webviewPanel g');
      try destruct (panel_getHtmlContent _ _); reflexivity. }
  unfold refreshData.
  destruct (setLoading (sidebarProvider g)) as [c sb] eqn:Hload.
  assert (Hsb : _isLoading sb = true).
  { unfold setLoading, _updateView in Hload. cbn [_view] in Hload.
    destruct (_view (sidebarProvider g));
      [destruct (sidebar_getHtmlContent _)|];
      injection Hload as _ <-; reflexivity. }
  destruct (fetchMetrics st) as [[|data|error] st']; cbn [fst].
  - exact Hsb.
  - destruct (refresh_succeeded data _ _) as [[u|error] g'] eqn:Hsucc;
      cbn [fst]; [|apply Hfailed].
    unfold refresh_succeeded, refresh, _updateView, with_sidebar, notify,
      updateContent in Hsucc.
    cbn [_view sidebarProvider webviewPanel] in Hsucc.
    destruct (_view sb);
      [destruct (sidebar_getHtmlContent _)|];
      cbn [webviewPanel sidebarProvider] in Hsucc;
      try discriminate Hsucc;
      destruct (webviewPanel g); try destruct (truthy data);
      try destruct (panel_getHtmlContent _ _);
      try discriminate Hsucc; injection Hsucc as _ <-; reflexivity.
  - apply Hfailed.
Qed.

(** X11: when [fetchMetrics] fails with a message, [refreshData] takes
    the quota data off both views and shows the message in its place,
    while [cachedData] keeps the data of the last success: the sidebar
    holds no data, is not loading, and keeps the time of its last
    refresh, and one error notification is added. *)
Theorem failed_fetch_clears_the_views (g : Globals) (st : Sys World)
  (error : JSError) :
  fst (fetchMetrics st) = Rejected error ->
  is_empty (message error) = false ->
  fst (refreshData g st)
  = {| sidebarProvider :=
         {| _view :=
              match _view (sidebarProvider g) with
              | Some _ => Some (ErrorHtml (message error))
              | None => None
              end;
            _metricsData := JNull;
            _error := Some (message error);
            _isLoading := false;
            _lastRefreshTime := _lastRefreshTime (sidebarProvider g) |};
       webviewPanel :=
         match webviewPanel g with
         | Some _ => Some (ErrorHtml (message error))
         | None => None
         end;
       cachedData := cachedData g;
       notifications :=
         notifications g
         ++ [ErrorMessage (js "Failed to refresh: " ++ message error)] |}.
Proof.
  intros Hfail Hmsg. unfold refreshData.
  destruct (setLoading (sidebarProvider g)) as [c sb] eqn:Hload.
  destruct (fetchMetrics st) as [p st']. cbn [fst] in Hfail. subst p.
  cbn [fst]. rewrite (refresh_failed_result _ _ Hmsg).
  unfold setLoading, _updateView in Hload. cbn [_view] in Hload.
  unfold with_sidebar. cbn [sidebarProvider webviewPanel cachedData
                              notifications].
  destruct (_view (sidebarProvider g));
    [destruct (sidebar_getHtmlContent _)|];
    injection Hload as _ <-; reflexivity.
Qed.

(** X12: when [fetchMetrics] succeeds with data that counts as true and
    that both views can show, [refreshData] stores the data in
    [cachedData] and in the sidebar, shows it in each view that is open,
    clears the error, records the time of the refresh and adds one
    notification of success. *)
Theorem successful_refresh_shows_the_data (g : Globals) (st : Sys World)
  (data : value) :
  fst (fetchMetrics st) = Fulfilled data ->
  truthy data = true ->
  sidebar_data_throws data = None ->
  panel_data_throws data = None ->
  fst (refreshData g st)
  = {| sidebarProvider :=
         {| _view :=
              match _view (sidebarProvider g) with
              | Some _ => Some (DataHtml data)
              | None => None
              end;
            _metricsData := data;
            _error := None;
            _isLoading := false;
            _lastRefreshTime :=
              Some (current_time (world (snd (fetchMetrics st)))) |};
       webviewPanel :=
         match webviewPanel g with
         | Some _ => Some (DataHtml data)
         | None => None
         end;
       cachedData := data;
       notifications :=
         notifications g
         ++ [InformationMessage (js "Quota data refreshed successfully!")] |}.
Proof.
  intros Hok Htrue Hside Hpanel. unfold refreshData.
  destruct (setLoading (sidebarProvider g)) as [c sb] eqn:Hload.
  destruct (fetchMetrics st) as [p st']. cbn [fst snd] in Hok |- *. subst p.
  unfold refresh_succeeded, refresh, _updateView, sidebar_getHtmlContent,
    updateContent, panel_getHtmlContent, with_sidebar, notify, truthy_string.
  rewrite (truthy_not_null _ Htrue).
  cbn [_view _metricsData _error _isLoading _lastRefreshTime
         sidebarProvider webviewPanel cachedData notifications].
  rewrite Htrue, Hside, Hpanel. cbn [negb].
  unfold setLoading, _updateView in Hload. cbn [_view] in Hload.
  destruct (_view (sidebarProvider g));
    [destruct (sidebar_getHtmlContent _)|];
    injection Hload as _ <-;
    cbn [_view webviewPanel sidebarProvider cachedData notifications];
    destruct (webviewPanel g); reflexivity.
Qed.

(** X13: when [fetchMetrics] succeeds with data that the open sidebar
    cannot show, the error thrown by the view is reported as a failed
    refresh, and yet [cachedData] holds the new data and the time of the
    refresh is recorded: the views show the message, the sidebar holds no
    data, and one error notification is added. *)
Theorem view_error_after_fetch (g : Globals) (st : Sys World)
  (data : value) (html : Html) (error : JSError) :
  fst (fetchMetrics st) = Fulfilled data ->
  truthy data = true ->
  _view (sidebarProvider g) = Some html ->
  sidebar_data_throws data = Some error ->
  is_empty (message error) = false ->
  fst (refreshData g st)
  = {| sidebarProvider :=
         {| _view := Some (ErrorHtml (message error));
            _metricsData := JNull;
            _error := Some (message error);
            _isLoading := false;
            _lastRefreshTime :=
              Some (current_time (world (snd (fetchMetrics st)))) |};
       webviewPanel :=
         match webviewPanel g with
         | Some _ => Some (ErrorHtml (message error))
         | None => None
         end;
       cachedData := data;
       notifications :=
         notifications g
         ++ [ErrorMessage (js "Failed to refresh: " ++ message error)] |}.
Proof.
  intros Hok Htrue Hview Hside Hmsg. unfold refreshData.
  destruct (setLoading (sidebarProvider g)) as [c sb] eqn:Hload.
  destruct (fetchMetrics st) as [p st']. cbn [fst snd] in Hok |- *. subst p.
  assert (Hsb : _view sb = Some LoadingHtml
                /\ _lastRefreshTime sb = _lastRefreshTime (sidebarProvider g)).
  { unfold setLoading, _updateView, sidebar_getHtmlContent in Hload.
    cbn [_view _isLoading] in Hload. rewrite Hview in Hload.
    injection Hload as _ <-. split; reflexivity. }
  destruct Hsb as [Hsbview Hsblast].
  unfold refresh_succeeded, refresh, _updateView, sidebar_getHtmlContent,
    with_sidebar, truthy_string.
  rewrite (truthy_not_null _ Htrue).
  cbn [_view _metricsData _error _isLoading _lastRefreshTime
         sidebarProvider webviewPanel cachedData notifications].
  rewrite Hsbview, Htrue, Hside. cbn [negb].
  rewrite (refresh_failed_result _ _ Hmsg).
  cbn [_view _lastRefreshTime sidebarProvider webviewPanel cachedData
         notifications].
  reflexivity.
Qed.

(** X14: when [fetchMetrics] succeeds with data that counts as false
    ([null], [false], 0 or the empty string), [refreshData] reports a
    success all the same: the data replaces [cachedData], the open
    sidebar shows its welcome page, the panel is left as it was, and a
    notification of success is added. *)
Theorem falsy_data_is_a_success (g : Globals) (st : Sys World)
  (data : value) :
  fst (fetchMetrics st) = Fulfilled data ->
  truthy data = false ->
  fst (refreshData g st)
  = {| sidebarProvider :=
         {| _view :=
              match _view (sidebarProvider g) with
              | Some _ => Some WelcomeHtml
              | None => None
              end;
            _metricsData := data;
            _error := None;
            _isLoading := false;
            _lastRefreshTime :=
              Some (current_time (world (snd (fetchMetrics st)))) |};
       webviewPanel := webviewPanel g;
       cachedData := data;
       notifications :=
         notifications g
         ++ [InformationMessage (js "Quota data refreshed successfully!")] |}.
Proof.
  intros Hok Hfalse. unfold refreshData.
  destruct (setLoading (sidebarProvider g)) as [c sb] eqn:Hload.
  destruct (fetchMetrics st) as [p st']. cbn [fst snd] in Hok |- *. subst p.
  assert (Hshown :
    match match data with JNull => None | _ => Some data end with
    | Some d => d
    | None => JNull
    end = data) by (destruct data; reflexivity).
  unfold refresh_succeeded, refresh, _updateView, sidebar_getHtmlContent,
    with_sidebar, notify, truthy_string.
  cbn [_view _metricsData _error _isLoading _lastRefreshTime
         sidebarProvider webviewPanel cachedData notifications].
  rewrite Hshown, Hfalse. cbn [negb].
  unfold setLoading, _updateView in Hload. cbn [_view] in Hload.
  destruct (_view (sidebarProvider g));
    [destruct (sidebar_getHtmlContent _)|];
    injection Hload as _ <-;
    cbn [_view webviewPanel sidebarProvider cachedData notifications];
    destruct (webviewPanel g); reflexivity.
Qed.

End Refreshed.

(** ** The short names of the models *)

Lemma split_on_not_nil (sep : N) (s : jsstring) : split_on sep s <> [].
Proof.
  destruct s as [|c s]; cbn [split_on]; [discriminate|].
  destruct (N.eqb c sep); [discriminate|].
  destruct (split_on sep s); discriminate.
Qed.

(** Joining the pieces of a split gives the text back. *)
Lemma join_split_on (sep : N) (s : jsstring) :
  join [sep] (split_on sep s) = s.
Proof.
  induction s as [|c s IH]; [reflexivity|]. cbn [split_on].
  pose proof (split_on_not_nil sep s) as Hne.
  destruct (N.eqb_spec c sep) as [->|Hc].
  - destruct (split_on sep s) as [|piece pieces]; [congruence|].
    change (join [sep] ([] :: piece :: pieces))
      with ([] ++ [sep] ++ join [sep] (piece :: pieces)).
    rewrite IH. reflexivity.
  - destruct (split_on sep s) as [|piece pieces]; [congruence|].
    rewrite <- IH. destruct pieces; reflexivity.
Qed.

(** No piece of a split holds the separator. *)
Lemma split_on_pieces (sep : N) (s : jsstring) :
  Forall (fun piece => ~ In sep piece) (split_on sep s).
Proof.
  induction s as [|c s IH]; cbn [split_on].
  - constructor; [intros [] | constructor].
  - destruct (N.eqb_spec c sep) as [->|Hc].
    + constructor; [intros [] | exact IH].
    + destruct (split_on sep s) as [|piece pieces];
        [constructor; [|constructor]; intros [E|[]]; congruence|].
      inversion IH; subst. constructor; [|assumption].
      intros [E|Hin]; [congruence | contradiction].
Qed.

Lemma spaces_app (a b : jsstring) :
  spaces (a ++ b) = (spaces a + spaces b)%nat.
Proof. unfold spaces. rewrite filter_app, length_app. reflexivity. Qed.

Lemma spaces_none (s : jsstring) : ~ In SPACE s -> spaces s = 0%nat.
Proof.
  unfold spaces. induction s as [|c s IH]; [reflexivity|].
  intros Hnot. cbn [filter].
  destruct (N.eqb_spec SPACE c) as [E|_].
  - exfalso. apply Hnot. left. congruence.
  - apply IH. intros Hin. apply Hnot. right. exact Hin.
Qed.

Lemma join_starts (sep piece : jsstring) (rest : list jsstring) :
  exists tail, join sep (piece :: rest) = piece ++ tail.
Proof.
  destruct rest as [|next rest].
  - exists []. cbn. rewrite app_nil_r. reflexivity.
  - eexists. reflexivity.
Qed.

(** The first two words of a label: a prefix of the label with one space
    at most, and the label itself when it has one space at most. *)
Lemma first_two_words_spec (label : jsstring) :
  is_prefix (first_two_words label) label
  /\ (spaces (first_two_words label) <= 1)%nat
  /\ ((spaces label <= 1)%nat -> first_two_words label = label).
Proof.
  unfold first_two_words.
  pose proof (join_split_on SPACE label) as Hjoin.
  pose proof (split_on_pieces SPACE label) as Hpieces.
  pose proof (split_on_not_nil SPACE label) as Hne.
  destruct (split_on SPACE label) as [|a [|b rest]]; [congruence| |].
  - cbn [firstn join] in *. pose proof (Forall_inv Hpieces) as Ha.
    cbn beta in Ha. rewrite Hjoin in *.
    repeat split.
    + exists []. rewrite app_nil_r. reflexivity.
    + rewrite spaces_none by assumption. lia.
  - pose proof (Forall_inv Hpieces) as Ha.
    pose proof (Forall_inv (Forall_inv_tail Hpieces)) as Hb.
    cbn beta in Ha, Hb.
    cbn [firstn join].
    change (join [SPACE] (a :: b :: rest))
      with (a ++ [SPACE] ++ join [SPACE] (b :: rest)) in Hjoin.
    destruct (join_starts [SPACE] b rest) as [tail Htail].
    assert (Hcount : spaces (a ++ [SPACE] ++ b) = 1%nat).
    { rewrite !spaces_app, (spaces_none a), (spaces_none b) by assumption.
      reflexivity. }
    repeat split.
    + exists tail. rewrite <- Hjoin, Htail, <- !app_assoc. reflexivity.
    + rewrite Hcount. lia.
    + intros Hfew. rewrite <- Hjoin in Hfew |- *.
      destruct rest as [|c rest]; [reflexivity|].
      exfalso.
      change (join [SPACE] (b :: c :: rest))
        with (b ++ [SPACE] ++ join [SPACE] (c :: rest)) in Hfew.
      rewrite !spaces_app in Hfew.
      change (spaces [SPACE]) with 1%nat in Hfew. lia.
Qed.



(** X16: a label that is in neither table, and is not a name that every
    object inherits, is cut after its second word in both views: the
    short name is a prefix of the label, and the whole label when the
    label has one space at most. *)
Theorem unlisted_label_is_cut_to_a_prefix (label : jsstring) :
  assoc label sidebar_mappings = None ->
  inherited label = false ->
  sidebar_getShortModelName label = Some (first_two_words label)
  /\ panel_getShortModelName label = Some (first_two_words label)
  /\ is_prefix (first_two_words label) label
  /\ ((spaces label <= 1)%nat -> first_two_words label = label).
Proof.
  intros Hnone Hown.
  assert (Hpanel : assoc label panel_mappings = None).
  { unfold sidebar_mappings in Hnone. unfold panel_mappings.
    cbn [assoc] in Hnone |- *.
    repeat match goal with
           | |- context [jseqb label ?k] =>
               destruct (jseqb label k); [discriminate Hnone|]
           end.
    reflexivity. }
  unfold sidebar_getShortModelName, panel_getShortModelName,
    getShortModelName.
  rewrite Hnone, Hpanel, Hown.
  pose proof (first_two_words_spec label) as (Hprefix & _ & Hsame).
  repeat split; assumption.
Qed.

(** X17: the sidebar and the panel give a model the same short name,
    except for the two labels of Claude Sonnet 4.5, which the sidebar
    shortens to Sonnet and Sonnet Think and the panel to Claude Sonnet. *)
Theorem views_agree_on_short_names (label : jsstring) :
  label <> js "Claude Sonnet 4.5" ->
  label <> js "Claude Sonnet 4.5 (Thinking)" ->
  sidebar_getShortModelName label = panel_getShortModelName label.
Proof.
  intros Hplain Hthinking.
  unfold sidebar_getShortModelName, panel_getShortModelName,
    getShortModelName, sidebar_mappings, panel_mappings.
  cbn [assoc].
  repeat match goal with
         | |- context [jseqb label ?k] =>
             let E := fresh "E" in
             destruct (jseqb label k) eqn:E;
             [try reflexivity; apply jseqb_eq in E; contradiction|]
         end.
  reflexivity.
Qed.

(** ** The port loop of the shell script, to its end *)

Section ScriptEnd.

Context {World : Type} `{Curl World}.

Lemma port_loop_no_200 (TOKEN FINAL_PORT : jsstring) :
  forall PORTS w,
    (forall q w', In q PORTS -> fst (http_code q TOKEN w') <> js "200") ->
    fst (port_loop TOKEN PORTS FINAL_PORT w) = FINAL_PORT.
Proof.
  induction PORTS as [|q PORTS IH]; intros w Hall; cbn [port_loop];
    [reflexivity|].
  pose proof (Hall q w (or_introl eq_refl)) as Hq.
  destruct (http_code q TOKEN w) as [r w']. cbn [fst] in Hq.
  destruct (jseqb r (js "200")) eqn:E; [apply jseqb_eq in E; contradiction|].
  apply IH. intros q' w'' Hin. apply Hall. right. exact Hin.
Qed.

(** The calls of [curl] that the loop makes: one for each port up to
    the first whose response is 200. *)
Lemma port_loop_tried (TOKEN p : jsstring) (post : list jsstring) :
  forall pre w seen,
    (forall q w', In q pre -> fst (http_code q TOKEN w') <> js "200") ->
    (forall w', fst (http_code p TOKEN w') = js "200") ->
    snd (snd (@port_loop _ (recording _) TOKEN (pre ++ p :: post) []
                (w, seen)))
    = seen ++ pre ++ [p].
Proof.
  induction pre as [|q pre IH]; intros w seen Hpre Hp;
    cbn [app port_loop http_code recording fst snd].
  - specialize (Hp w). destruct (http_code p TOKEN w) as [r w'].
    cbn [fst] in Hp. rewrite Hp. reflexivity.
  - pose proof (Hpre q w (or_introl eq_refl)) as Hq.
    destruct (http_code q TOKEN w) as [r w']. cbn [fst] in Hq.
    destruct (jseqb r (js "200")) eqn:E;
      [apply jseqb_eq in E; contradiction|].
    rewrite IH; [|intros q' w'' Hin; apply Hpre; right; exact Hin | exact Hp].
    rewrite <- app_assoc. reflexivity.
Qed.

(** X18: the script selects the first port whose response is 200: the
    ports before it are passed over, and the ports after it are not
    tried: [curl] is called once for each port up to the selected one,
    in their order, and for no other. *)
Theorem script_selects_the_first_200 (TOKEN p : jsstring)
  (pre post : list jsstring) (w : World) :
  p <> [] ->
  (forall q w', In q pre -> fst (http_code q TOKEN w') <> js "200") ->
  (forall w', fst (http_code p TOKEN w') = js "200") ->
  fst (find_port TOKEN (pre ++ p :: post) w) = Some p
  /\ tried_ports TOKEN (pre ++ p :: post) w = pre ++ [p].
Proof.
  intros Hne Hpre Hp. split.
  - unfold find_port.
    pose proof (port_loop_first_200 TOKEN p post pre w Hpre Hp) as Hloop.
    destruct (port_loop TOKEN (pre ++ p :: post) [] w) as [final w'].
    cbn [fst] in Hloop |- *. subst final.
    destruct p; [congruence | reflexivity].
  - unfold tried_ports, find_port.
    pose proof (port_loop_tried TOKEN p post pre w [] Hpre Hp) as Htried.
    destruct (@port_loop _ (recording _) TOKEN (pre ++ p :: post) [] (w, []))
      as [final w'].
    cbn [snd] in Htried |- *. exact Htried.
Qed.

(** X19: when no port has the response 200, the script finds no port and
    exits with an error, whatever the ports answer instead. *)
Theorem script_gives_up_without_200 (TOKEN : jsstring)
  (PORTS : list jsstring) (w : World) :
  (forall q w', In q PORTS -> fst (http_code q TOKEN w') <> js "200") ->
  fst (find_port TOKEN PORTS w) = None.
Proof.
  intros Hall. unfold find_port.
  pose proof (port_loop_no_200 TOKEN [] PORTS w Hall) as Hloop.
  destruct (port_loop TOKEN PORTS [] w) as [final w'].
  cbn [fst] in Hloop |- *. subst final. reflexivity.
Qed.

End ScriptEnd.

(** ** Further runs on the scripted host *)

Lemma discovered_endpoint_is_well_formed_witness :
  let H := steady_host (answering 200 ann_body) in
  fst (discoverServer (boot tt)) = Some endpoint
  /\ forallb is_token_char the_token = true
  /\ forallb is_digit (js "5003") = true.
Proof.
  intros H.
  destruct (discovered_endpoint_is_well_formed (boot tt)
              (snd (discoverServer (boot tt))) endpoint)
    as (_ & (_ & Htoken) & (_ & Hport)).
  - vm_compute. reflexivity.
  - split; [vm_compute; reflexivity|]. split; [exact Htoken | exact Hport].
Defined.

Lemma request_goes_to_the_probed_endpoint_witness :
  let H := steady_host (answering 200 ann_body) in
  port_number (request_options endpoint) = parseInt (js "5003")
  /\ hostname (request_options endpoint) = js "127.0.0.1".
Proof.
  intros H.
  destruct (request_goes_to_the_probed_endpoint (boot tt)
              (snd (discoverServer (boot tt))) endpoint)
    as (Hhost & _ & _ & _ & _ & Hport).
  - vm_compute. reflexivity.
  - split; [exact Hport | exact Hhost].
Defined.

Lemma rejections_are_classified_witness :
  let H := steady_host (answering 503 [js "Service "; js "Unavailable"]) in
  fst (fetchMetrics (boot tt)) = Rejected (Error parse_failure_message)
  /\ exists before rest body,
       [EvResponse 503; EvData (js "Service "); EvData (js "Unavailable");
        EvEnd]
       = before ++ EvEnd :: rest
       /\ body_of before = Some body
       /\ Json.parse body = None.
Proof.
  intros H.
  assert (Hrej : fst (fetchMetrics (boot tt))
                 = Rejected (Error parse_failure_message))
    by (vm_compute; reflexivity).
  split; [exact Hrej|].
  pose proof (rejections_are_classified (boot tt)
                (Error parse_failure_message) Hrej) as Hcause.
  assert (Hrun :
    match fst (discoverServer (boot tt)) with
    | None => None
    | Some info =>
        Some (metrics_answer (world (snd (discoverServer (boot tt)))) info)
    end
    = Some (Normal [EvResponse 503; EvData (js "Service ");
                    EvData (js "Unavailable"); EvEnd]))
    by (vm_compute; reflexivity).
  rewrite Hrun in Hcause.
  destruct Hcause as (before & ev & rest & Hev & _ & Hcase).
  destruct ev as [status|chunk| |cause|].
  - contradiction.
  - contradiction.
  - destruct Hcase as (body & Hbody & Hparse & _).
    exists before, rest, body. repeat split; assumption.
  - cbv in Hcase. discriminate Hcase.
  - cbv in Hcase. discriminate Hcase.
Defined.

Lemma fulfilled_needs_a_response_witness :
  let H := steady_host (answering 200 ann_body) in
  fst (fetchMetrics (boot tt)) = Fulfilled ann
  /\ exists before rest body,
       EvResponse 200 :: map EvData ann_body ++ [EvEnd]
       = before ++ EvEnd :: rest
       /\ unsettled before = true
       /\ body_of before = Some body
       /\ Json.parse body = Some ann.
Proof.
  intros H.
  assert (Hful : fst (fetchMetrics (boot tt)) = Fulfilled ann)
    by (vm_compute; reflexivity).
  split; [exact Hful|].
  destruct (fulfilled_needs_a_response (boot tt) ann Hful)
    as (info & before & rest & body & Hd & Hrun & Hun & Hbody & Hparse).
  assert (Hinfo : fst (discoverServer (boot tt)) = Some endpoint)
    by (vm_compute; reflexivity).
  rewrite Hinfo in Hd. injection Hd as <-.
  assert (Hanswer :
    metrics_answer (world (snd (discoverServer (boot tt)))) endpoint
    = Normal (EvResponse 200 :: map EvData ann_body ++ [EvEnd]))
    by (vm_compute; reflexivity).
  rewrite Hanswer in Hrun. injection Hrun as Hrun.
  exists before, rest, body. repeat split; assumption.
Defined.

Lemma failed_fetch_clears_the_views_witness :
  let H := steady_host stalling in
  let g := fst (refreshData showing_sample (boot tt)) in
  cachedData g = sample
  /\ _metricsData (sidebarProvider g) = JNull
  /\ _view (sidebarProvider g) = Some (ErrorHtml timeout_message)
  /\ webviewPanel g = Some (ErrorHtml timeout_message).
Proof.
  intros H g. unfold g.
  rewrite (failed_fetch_clears_the_views showing_sample (boot tt)
             (Error timeout_message)).
  - repeat split; reflexivity.
  - vm_compute. reflexivity.
  - reflexivity.
Defined.

Lemma successful_refresh_shows_the_data_witness :
  let H := steady_host (answering 200 [sample_body]) in
  let g :=
    fst (refreshData
           {| sidebarProvider := sidebarProvider fresh_globals;
              webviewPanel := Some LoadingHtml;
              cachedData := JNull;
              notifications := [] |}
           (boot tt)) in
  cachedData g = sample
  /\ _view (sidebarProvider g) = Some (DataHtml sample)
  /\ webviewPanel g = Some (DataHtml sample)
  /\ _lastRefreshTime (sidebarProvider g) = Some midday.
Proof.
  intros H g. unfold g.
  rewrite (successful_refresh_shows_the_data _ (boot tt) sample).
  - repeat split; reflexivity.
  - vm_compute. reflexivity.
  - vm_compute. reflexivity.
  - vm_compute. reflexivity.
  - vm_compute. reflexivity.
Defined.

Lemma view_error_after_fetch_witness :
  let H := steady_host (answering 200 unavailable_body) in
  let g := fst (refreshData showing_sample (boot tt)) in
  cachedData g = unavailable
  /\ _metricsData (sidebarProvider g) = JNull
  /\ notifications g
     = [ErrorMessage
          (js "Failed to refresh: Cannot read properties of undefined (reading 'cascadeModelConfigData')")].
Proof.
  intros H g. unfold g.
  rewrite (view_error_after_fetch showing_sample (boot tt) unavailable
             (DataHtml sample)
             (reading_of_undefined "cascadeModelConfigData")).
  - repeat split; reflexivity.
  - vm_compute. reflexivity.
  - reflexivity.
  - reflexivity.
  - vm_compute. reflexivity.
  - reflexivity.
Defined.

Lemma falsy_data_is_a_success_witness :
  (let H := steady_host (answering 200 [js "null"]) in
   let g := fst (refreshData showing_sample (boot tt)) in
   cachedData g = JNull
   /\ _view (sidebarProvider g) = Some WelcomeHtml
   /\ webviewPanel g = Some (DataHtml sample)
   /\ notifications g
      = [InformationMessage (js "Quota data refreshed successfully!")])
  /\ (let H := steady_host (answering 200 [js "1e-400"]) in
      let g := fst (refreshData showing_sample (boot tt)) in
      cachedData g = JNumber 1 (-400)
      /\ _view (sidebarProvider g) = Some WelcomeHtml
      /\ webviewPanel g = Some (DataHtml sample)
      /\ notifications g
         = [InformationMessage (js "Quota data refreshed successfully!")]).
Proof.
  split; intros H g; unfold g.
  - rewrite (falsy_data_is_a_success showing_sample (boot tt) JNull).
    + repeat split; reflexivity.
    + vm_compute. reflexivity.
    + reflexivity.
  - rewrite (falsy_data_is_a_success showing_sample (boot tt)
               (JNumber 1 (-400))).
    + repeat split; reflexivity.
    + vm_compute. reflexivity.
    + vm_compute. reflexivity.
Defined.


Lemma unlisted_label_is_cut_to_a_prefix_witness :
  sidebar_getShortModelName (js "Llama 4 Scout (Beta)") = Some (js "Llama 4")
  /\ panel_getShortModelName (js "Llama") = Some (js "Llama").
Proof.
  split.
  - apply (unlisted_label_is_cut_to_a_prefix (js "Llama 4 Scout (Beta)"));
      reflexivity.
  - apply (unlisted_label_is_cut_to_a_prefix (js "Llama")); reflexivity.
Defined.

Lemma views_agree_on_short_names_witness :
  sidebar_getShortModelName (js "Gemini 3 Flash")
  = panel_getShortModelName (js "Gemini 3 Flash").
Proof.
  apply (views_agree_on_short_names (js "Gemini 3 Flash"));
    intros E; vm_compute in E; discriminate E.
Defined.

Lemma script_selects_the_first_200_witness :
  fst (find_port the_token [js "5001"; js "5002"; js "5003"; js "5004"] tt)
  = Some (js "5003")
  /\ tried_ports the_token [js "5001"; js "5002"; js "5003"; js "5004"] tt
     = [js "5001"; js "5002"; js "5003"].
Proof.
  apply (script_selects_the_first_200 the_token (js "5003")
           [js "5001"; js "5002"] [js "5004"] tt).
  - intros E. vm_compute in E. discriminate E.
  - intros q [] [<-|[<-|[]]]; vm_compute; intros E; discriminate E.
  - intros []. vm_compute. reflexivity.
Defined.

Lemma script_gives_up_without_200_witness :
  fst (find_port the_token [js "5001"; js "5002"] tt) = None.
Proof.
  apply (script_gives_up_without_200 the_token [js "5001"; js "5002"] tt).
  intros q [] [<-|[<-|[]]]; vm_compute; intros E; discriminate E.
Defined.

(** ** A request that never settles *)

Section Unsettled.

Context {World : Type} `{Host World} `{Views}.

(** X20: when the request for the metrics has neither an end, nor an
    error, nor a timeout, the promise of [fetchMetrics] stays pending,
    and [refreshData] stays at its [await]: the sidebar keeps loading,
    [cachedData] and the panel are as before, and no notification is
    shown. *)
Theorem unsettled_request_keeps_loading (g : Globals) (st st1 : Sys World)
  (info : ServerInfo) (events : list HttpEvent) :
  discoverServer st = (Some info, st1) ->
  metrics_answer (world st1) info = Normal events ->
  forallb quiet events = true ->
  fst (fetchMetrics st) = Pending
  /\ _isLoading (sidebarProvider (fst (refreshData g st))) = true
  /\ cachedData (fst (refreshData g st)) = cachedData g
  /\ webviewPanel (fst (refreshData g st)) = webviewPanel g
  /\ notifications (fst (refreshData g st)) = notifications g.
Proof.
  intros Hd Hrun Hquiet.
  assert (Hpending : fst (fetchMetrics st) = Pending).
  { rewrite (fetchMetrics_found _ _ _ Hd). cbv zeta. rewrite Hrun.
    cbn [fst].
    match goal with
    | |- context [fold_left handle events (new_request, ?s)] =>
        destruct (handlers_quiet events None s Hquiet) as [d' Hfold]
    end.
    unfold new_request. rewrite Hfold. reflexivity. }
  split; [exact Hpending|].
  unfold refreshData.
  destruct (setLoading (sidebarProvider g)) as [c sb] eqn:Hload.
  assert (Hsb : _isLoading sb = true).
  { unfold setLoading, _updateView in Hload. cbn [_view] in Hload.
    destruct (_view (sidebarProvider g));
      [destruct (sidebar_getHtmlContent _)|];
      injection Hload as _ <-; reflexivity. }
  destruct (fetchMetrics st) as [p st']. cbn [fst] in Hpending. subst p.
  repeat split; first [exact Hsb | reflexivity].
Qed.

End Unsettled.

Lemma unsettled_request_keeps_loading_witness :
  let H := steady_host hanging in
  fst (fetchMetrics (boot tt)) = Pending
  /\ _view (sidebarProvider (fst (refreshData showing_sample (boot tt))))
     = Some LoadingHtml.
Proof.
  intros H.
  destruct (unsettled_request_keeps_loading showing_sample (boot tt)
              (snd (discoverServer (boot tt))) endpoint
              [EvResponse 200; EvData (js "{")])
    as (Hpending & _).
  - vm_compute. reflexivity.
  - vm_compute. reflexivity.
  - reflexivity.
  - split; [exact Hpending | vm_compute; reflexivity].
Defined.
